(** * mcp-server-tester: test-case generation and response validation

    A shallow embedding of the test-case parser and the schema conformance
    checker of [src/test-generator/TestGenerator.ts], and of the response
    validator ([src/validator/ResponseValidator.ts]) as the specification
    describes it, with the properties the specification states about them.

    Conventions.
    - A JavaScript string is a [string]: a sequence of code units, each
      below 256.
    - An object that [JSON.parse] returns is a map from its own keys, in
      the order of enumeration; its prototype is [Object.prototype], that
      of an array is [Array.prototype], and the operators that follow the
      prototype chain ([in], a property read with a computed name,
      [String(...)]) see the properties inherited from them.
    - What the JavaScript runtime provides (numbers, [JSON.parse],
      [JSON.stringify], [uuidv4], [RegExp], the names of [Array.prototype],
      the messages of its [TypeError]s) is an interface, [JSRuntime]; every
      theorem holds for every runtime.
    - An exception is the message of the error thrown: [inl message] in a
      result of type [string + A].
    - [console.warn], [console.error] and [uuidv4] are effects on a [World]
      threaded through the parser. *)

From Stdlib Require Import Bool Arith ZArith List String Ascii Lia Sorted.
From Stdlib Require Import DecimalString DecimalNat.
Import ListNotations.
Local Open Scope list_scope.
Local Open Scope string_scope.

(** ** JSON values *)

(** A value as [JSON.parse] returns it.  [JObj] lists the own enumerable
    properties of a plain object in enumeration order; its keys are
    distinct. *)
#[warnings="-register-all"]
Inductive JSON (number : Type) : Type :=
| JNull
| JBool (b : bool)
| JNum (n : number)
| JStr (s : string)
| JArr (items : list (JSON number))
| JObj (props : list (string * JSON number)).

Arguments JNull {number}.
Arguments JBool {number} b.
Arguments JNum {number} n.
Arguments JStr {number} s.
Arguments JArr {number} items.
Arguments JObj {number} props.

(** What the program takes from the JavaScript runtime and its libraries. *)
Class JSRuntime (number : Type) : Type := {
  (** [n] is [+0] or [-0], the numbers that are falsy ([JSON.parse] never
      returns [NaN]). *)
  Number_isZero : number -> bool;
  (** SameValueZero on numbers, as [Array.prototype.includes] uses it. *)
  Number_sameValueZero : number -> number -> bool;
  (** [String(n)]. *)
  Number_toString : number -> string;
  (** The number that is a length. *)
  Number_ofNat : nat -> number;
  (** [JSON.parse]: the parsed value, or the message of the [SyntaxError]. *)
  JSON_parse : string -> string + JSON number;
  JSON_stringify : JSON number -> string;
  (** The identifier the [n]-th call of [uuidv4()] returns. *)
  uuid_source : nat -> string;
  (** [new RegExp(pattern).test(text)]. *)
  RegExp_test : string -> string -> bool;
  (** [name] is a property of [Array.prototype]; which names are depends
      on the edition of the language. *)
  Array_prototype_has : string -> bool;
  (** The message of the [TypeError] thrown when an object has no
      primitive value. *)
  ToPrimitive_TypeError : string;
  (** The message of the [TypeError] thrown by [key in v] when [v] is not
      an object. *)
  in_TypeError : string -> JSON number -> string
}.

(** Decimal notation of a natural number: [`${index}`]. *)
Definition nat_toString (n : nat) : string :=
  NilEmpty.string_of_uint (Nat.to_uint n).

(** The double quote, as a string. *)
Definition dquote : string := String (ascii_of_nat 34) EmptyString.

(** Association-list lookup: the first binding of [key]. *)
Fixpoint assoc {A : Type} (key : string) (l : list (string * A)) : option A :=
  match l with
  | [] => None
  | (k, v) :: rest => if String.eqb k key then Some v else assoc key rest
  end.

(** [l.map((x, i) => (String(start + i), x))]: the indexed elements of an
    array. *)
Fixpoint indexed {A : Type} (start : nat) (l : list A) : list (string * A) :=
  match l with
  | [] => []
  | x :: rest => (nat_toString start, x) :: indexed (S start) rest
  end.

(** The characters of a string, each as a string. *)
Fixpoint characters (s : string) : list string :=
  match s with
  | EmptyString => []
  | String c rest => String c EmptyString :: characters rest
  end.

(** The names of the properties of [Object.prototype], which every object
    and every array inherits. *)
Definition Object_prototype_names : list string :=
  ["constructor"; "__defineGetter__"; "__defineSetter__"; "hasOwnProperty";
   "__lookupGetter__"; "__lookupSetter__"; "isPrototypeOf";
   "propertyIsEnumerable"; "toString"; "valueOf"; "__proto__";
   "toLocaleString"].

(** [l.join(sep)] for the texts [elem] gives the elements, from left to
    right; the first exception ends it. *)
Definition join_with {A : Type} (elem : A -> string + string) (sep : string)
  : list A -> string + string :=
  fix join (l : list A) : string + string :=
    match l with
    | [] => inr EmptyString
    | x :: rest =>
        match elem x with
        | inl thrown => inl thrown
        | inr first =>
            match rest with
            | [] => inr first
            | _ :: _ =>
                match join rest with
                | inl thrown => inl thrown
                | inr others => inr (first ++ sep ++ others)
                end
            end
        end
    end.

Section Values.
Context {number : Type} {rt : JSRuntime number}.

(** [typeof v]. *)
Definition js_typeof (v : JSON number) : string :=
  match v with
  | JNull => "object"
  | JBool _ => "boolean"
  | JNum _ => "number"
  | JStr _ => "string"
  | JArr _ => "object"
  | JObj _ => "object"
  end.

(** [Array.isArray(v)]. *)
Definition Array_isArray (v : JSON number) : bool :=
  match v with
  | JArr _ => true
  | _ => false
  end.

(** [!!v]: [null], [false], zero and the empty string are falsy. *)
Definition truthy (v : JSON number) : bool :=
  match v with
  | JNull => false
  | JBool b => b
  | JNum n => negb (Number_isZero n)
  | JStr s => negb (String.eqb s EmptyString)
  | JArr _ => true
  | JObj _ => true
  end.

(** [!!x] for the result of a property access: [undefined] is falsy. *)
Definition truthy_opt (x : option (JSON number)) : bool :=
  match x with
  | Some v => truthy v
  | None => false
  end.

(** The own enumerable string-keyed properties of [v], with their values,
    in the order [for (const key in v)] visits them: the keys of an object,
    the indices of an array, the indices of the characters of a string;
    [null], a number and a boolean have none, and no inherited property is
    enumerable. *)
Definition own_entries (v : JSON number) : list (string * JSON number) :=
  match v with
  | JObj props => props
  | JArr items => indexed 0 items
  | JStr s => indexed 0 (map JStr (characters s))
  | _ => []
  end.

(** [v[key]] ([v.key]) where [v] is not [null] and [key] is an own
    enumerable property of [v] or a name that neither [v] nor its
    prototypes define, as are [description], [inputs], [expectedOutcome],
    [status] and [validationRules] on the values of [JSON.parse]; [None] is
    [undefined]. *)
Definition js_get (v : JSON number) (key : string) : option (JSON number) :=
  assoc key (own_entries v).

(** [key] is a property that [v] inherits: a name of [Object.prototype]
    for an object, and also a name of [Array.prototype] for an array. *)
Definition inherits (v : JSON number) (key : string) : bool :=
  match v with
  | JObj _ => existsb (String.eqb key) Object_prototype_names
  | JArr _ =>
      Array_prototype_has key || existsb (String.eqb key) Object_prototype_names
  | _ => false
  end.

(** [key in v]: [key] is an own property of [v], which for an array
    include [length], or a property [v] inherits.  On a value that is not
    an object the operator throws. *)
Definition js_in (key : string) (v : JSON number) : string + bool :=
  match v with
  | JObj _ | JArr _ =>
      inr match assoc key (own_entries v) with
          | Some _ => true
          | None => (Array_isArray v && String.eqb key "length") || inherits v key
          end
  | _ => inl (in_TypeError key v)
  end.

(** [String(v)], which a template literal applies.  An object is printed
    by the [toString] it finds: the one of [Object.prototype], unless the
    object has a [toString] of its own, which in a value of [JSON.parse] is
    no function, and then neither it nor [valueOf] yields a primitive value
    and a [TypeError] is thrown.  An array is printed by [join], which
    prints [null] as the empty string. *)
Fixpoint ToString (v : JSON number) : string + string :=
  match v with
  | JNull => inr "null"
  | JBool true => inr "true"
  | JBool false => inr "false"
  | JNum n => inr (Number_toString n)
  | JStr s => inr s
  | JArr items =>
      join_with (fun x => match x with
                          | JNull => inr EmptyString
                          | _ => ToString x
                          end) "," items
  | JObj props =>
      match assoc "toString" props with
      | Some _ => inl ToPrimitive_TypeError
      | None => inr "[object Object]"
      end
  end.

(** [items.join(sep)]. *)
Definition Array_join (sep : string) (items : list (JSON number))
  : string + string :=
  join_with (fun x => match x with
                      | JNull => inr EmptyString
                      | _ => ToString x
                      end) sep items.

(** [x === y] under SameValueZero.  Two objects or arrays are the same
    value only when they are one object; a value parsed from the response
    text is never an object of the tool's schema. *)
Definition sameValueZero (x y : JSON number) : bool :=
  match x, y with
  | JNull, JNull => true
  | JBool a, JBool b => Bool.eqb a b
  | JNum a, JNum b => Number_sameValueZero a b
  | JStr a, JStr b => String.eqb a b
  | _, _ => false
  end.

(** [items.includes(v)]. *)
Definition Array_includes (items : list (JSON number)) (v : JSON number) : bool :=
  existsb (fun x => sameValueZero x v) items.

End Values.

(** ** Tools and test cases *)

(** One entry of [inputSchema.properties]: the declared [type] and the
    [enum] array, each when present.  (The SDK's [ToolDefinition] is
    declared outside the repository; the record follows the
    specification's ToolSchema.) *)
Record SchemaProperty (number : Type) : Type := {
  prop_type : option string;
  prop_enum : option (list (JSON number))
}.

Arguments prop_type {number} s.
Arguments prop_enum {number} s.

(** [tool.inputSchema]; [properties] in the order of its keys. *)
Record InputSchema (number : Type) : Type := {
  properties : option (list (string * SchemaProperty number));
  required : option (list string)
}.

Arguments properties {number} i.
Arguments required {number} i.

Record ToolDefinition (number : Type) : Type := {
  name : string;
  tool_description : option string;
  inputSchema : option (InputSchema number)
}.

Arguments name {number} t.
Arguments tool_description {number} t.
Arguments inputSchema {number} t.

(** ['success' | 'error']. *)
Inductive Status : Type := success | error.

(** [expectedOutcome], over the type of the validation rules: the parser
    keeps them as the JSON values it read, the validator reads typed
    rules. *)
Record ExpectedOutcome (rule : Type) : Type := {
  status : Status;
  validationRules : list rule
}.

Arguments status {rule} e.
Arguments validationRules {rule} e.

(** A test case as [parseResponse] builds it.  [warnings] is an optional
    field: [None] when the test case has no such property. *)
Record TestCase (number rule : Type) : Type := {
  id : string;
  toolName : string;
  description : string;
  naturalLanguageQuery : string;
  inputs : JSON number;
  expectedOutcome : ExpectedOutcome rule;
  warnings : option (list string)
}.

Arguments id {number rule} t.
Arguments toolName {number rule} t.
Arguments description {number rule} t.
Arguments naturalLanguageQuery {number rule} t.
Arguments inputs {number rule} t.
Arguments expectedOutcome {number rule} t.
Arguments warnings {number rule} t.

(** ** The schema conformance checker: [validateTestInputs] *)

(** The local variables [isValid] and [warnings] of [validateTestInputs],
    which are also what it returns. *)
Record InputValidation : Type := {
  isValid : bool;
  input_warnings : list string
}.

(** [warnings.push(w)]. *)
Definition push_warning (st : InputValidation) (w : string) : InputValidation :=
  {| isValid := isValid st; input_warnings := (input_warnings st ++ [w])%list |}.

(** [isValid = false; warnings.push(w)]. *)
Definition push_invalid (st : InputValidation) (w : string) : InputValidation :=
  {| isValid := false; input_warnings := (input_warnings st ++ [w])%list |}.

(** [expectedType === t]. *)
Definition type_is (expectedType : option string) (t : string) : bool :=
  match expectedType with
  | Some e => String.eqb e t
  | None => false
  end.

(** [for (const x of l) body], for a body whose effect on the variables
    it captures is [body st x] and that may throw: the first exception
    ends the loop. *)
Fixpoint for_of {A T : Type} (body : T -> A -> string + T) (l : list A) (st : T)
  : string + T :=
  match l with
  | [] => inr st
  | x :: rest =>
      match body st x with
      | inl thrown => inl thrown
      | inr st' => for_of body rest st'
      end
  end.

Section Checker.
Context {number : Type} {rt : JSRuntime number}.

(** The body of the loop over [requiredParameters]. *)
Definition checkRequired (testInputs : JSON number) (st : InputValidation)
    (requiredParam : string) : string + InputValidation :=
  match js_in requiredParam testInputs with
  | inl thrown => inl thrown
  | inr found =>
      inr (if negb found
           then push_invalid st
                  ("Missing required input parameter: '" ++ requiredParam ++ "'.")
           else st)
  end.

(** The "Type Checking" chain of conditionals. *)
Definition checkType (inputName : string) (expectedType : option string)
    (inputValue : JSON number) (st : InputValidation) : InputValidation :=
  let actualType := js_typeof inputValue in
  if type_is expectedType "string" && negb (String.eqb actualType "string")
  then push_invalid st
         ("Input '" ++ inputName ++ "' type mismatch: Expected string, got "
            ++ actualType ++ ".")
  else if type_is expectedType "number" && negb (String.eqb actualType "number")
  then push_invalid st
         ("Input '" ++ inputName ++ "' type mismatch: Expected number, got "
            ++ actualType ++ ".")
  else if type_is expectedType "boolean" && negb (String.eqb actualType "boolean")
  then push_invalid st
         ("Input '" ++ inputName ++ "' type mismatch: Expected boolean, got "
            ++ actualType ++ ".")
  else if type_is expectedType "object"
  then
    if negb (String.eqb actualType "object") || Array_isArray inputValue
    then push_invalid st
           ("Input '" ++ inputName ++ "' type mismatch: Expected object, got "
              ++ (if Array_isArray inputValue then "array" else actualType)
              ++ ".")
    else st
  else if type_is expectedType "array"
  then
    if negb (Array_isArray inputValue)
    then push_invalid st
           ("Input '" ++ inputName ++ "' type mismatch: Expected array, got "
              ++ actualType ++ ".")
    else st
  else st.

(** The "Enum Checking" conditional.  The template literal of the warning
    converts [inputValue] and then joins the enumerated values; either may
    throw. *)
Definition checkEnum (inputName : string) (schemaProperty : SchemaProperty number)
    (inputValue : JSON number) (st : InputValidation) : string + InputValidation :=
  match prop_enum schemaProperty with
  | Some allowed =>
      if negb (Array_includes allowed inputValue)
      then
        match ToString inputValue with
        | inl thrown => inl thrown
        | inr value =>
            match Array_join ", " allowed with
            | inl thrown => inl thrown
            | inr values =>
                inr (push_invalid st
                       ("Input '" ++ inputName ++ "' value '" ++ value
                          ++ "' is not in the allowed enum values: ["
                          ++ values ++ "]."))
            end
        end
      else inr st
  | None => inr st
  end.

(** What [schemaProperties[inputName]] finds under a name that the schema
    does not declare and [Object.prototype] defines: a function or an
    object, which is truthy and has neither a [type] nor an [enum]. *)
Definition inherited_member : SchemaProperty number :=
  {| prop_type := None; prop_enum := None |}.

(** [schemaProperties[inputName]]: the declaration under the own key
    [inputName], otherwise what the object inherits under that name;
    [None] is [undefined]. *)
Definition schema_get (schemaProperties : list (string * SchemaProperty number))
    (inputName : string) : option (SchemaProperty number) :=
  match assoc inputName schemaProperties with
  | Some schemaProperty => Some schemaProperty
  | None =>
      if existsb (String.eqb inputName) Object_prototype_names
      then Some inherited_member
      else None
  end.

(** The body of the loop [for (const inputName in testCase.inputs)], at
    the key [inputName] whose value is [inputValue]. *)
Definition checkInput
    (schemaProperties : list (string * SchemaProperty number))
    (st : InputValidation) (entry : string * JSON number)
  : string + InputValidation :=
  let '(inputName, inputValue) := entry in
  match schema_get schemaProperties inputName with
  | None =>
      inr (push_warning st
             ("Input parameter '" ++ inputName
                ++ "' is not defined in the tool's input schema."))
  | Some schemaProperty =>
      let st := checkType inputName (prop_type schemaProperty) inputValue st in
      checkEnum inputName schemaProperty inputValue st
  end.

(** [validateTestInputs(testCase, tool)]: what it returns, or the
    exception it throws. *)
Definition validateTestInputs {rule : Type} (testCase : TestCase number rule)
    (tool : ToolDefinition number) : string + InputValidation :=
  let st := {| isValid := true; input_warnings := [] |} in
  match inputSchema tool with
  | None => inr {| isValid := true; input_warnings := [] |}
  | Some schema =>
      match properties schema with
      | None => inr {| isValid := true; input_warnings := [] |}
      | Some schemaProperties =>
          let requiredParameters :=
            match required schema with
            | Some names => names
            | None => []
            end in
          match for_of (checkRequired (inputs testCase)) requiredParameters st with
          | inl thrown => inl thrown
          | inr st =>
              for_of (checkInput schemaProperties)
                (own_entries (inputs testCase)) st
          end
      end
  end.

End Checker.

(** ** Effects: the console and the identifier source *)

Inductive Level : Type := LogWarn | LogError.

(** One call of [console.warn] or [console.error]. *)
Record Diagnostic : Type := {
  level : Level;
  text : string
}.

(** What the parser reads and writes besides its arguments: how many
    identifiers [uuidv4] has issued, and the console, oldest line first. *)
Record World : Type := {
  uuid_calls : nat;
  console : list Diagnostic
}.

Definition Eff (A : Type) : Type := World -> A * World.

Definition ret {A : Type} (a : A) : Eff A := fun w => (a, w).

Definition bind {A B : Type} (c : Eff A) (k : A -> Eff B) : Eff B :=
  fun w => let '(a, w') := c w in k a w'.

Declare Scope eff_scope.
Delimit Scope eff_scope with eff.
Notation "x <- c ;; k" := (bind c (fun x => k))
  (at level 61, c at next level, right associativity) : eff_scope.
Notation "c ;; k" := (bind c (fun _ => k))
  (at level 61, right associativity) : eff_scope.

Definition log (l : Level) (msg : string) : Eff unit :=
  fun w => (tt, {| uuid_calls := uuid_calls w;
                   console := (console w ++ [{| level := l; text := msg |}])%list |}).

Definition console_warn (msg : string) : Eff unit := log LogWarn msg.
Definition console_error (msg : string) : Eff unit := log LogError msg.

(** A computation that may throw: [inl message] is the exception, and
    the world is the one in which it was thrown. *)
Definition Exc (A : Type) : Type := World -> (string + A) * World.

Definition ret_exc {A : Type} (a : A) : Exc A := fun w => (inr a, w).

Definition bind_exc {A B : Type} (c : Exc A) (k : A -> Exc B) : Exc B :=
  fun w =>
    match c w with
    | (inr a, w') => k a w'
    | (inl thrown, w') => (inl thrown, w')
    end.

(** An effect that does not throw. *)
Definition lift {A : Type} (c : Eff A) : Exc A :=
  fun w => let '(a, w') := c w in (inr a, w').

(** The value of an expression, or the exception its evaluation throws. *)
Definition evaluate {A : Type} (r : string + A) : Exc A := fun w => (r, w).

(** [try { c } catch (error) { handler(error.message) }]. *)
Definition try_catch {A : Type} (c : Exc A) (handler : string -> Eff A) : Eff A :=
  fun w =>
    match c w with
    | (inr a, w') => (a, w')
    | (inl thrown, w') => handler thrown w'
    end.

Declare Scope exc_scope.
Delimit Scope exc_scope with exc.
Notation "x <- c ;; k" := (bind_exc c (fun x => k))
  (at level 61, c at next level, right associativity) : exc_scope.
Notation "c ;; k" := (bind_exc c (fun _ => k))
  (at level 61, right associativity) : exc_scope.

(** [array.forEach((x, index) => body)], for a body whose effect on the
    variables it captures is [body acc x index]; an exception of the body
    ends the loop. *)
Fixpoint forEach {A T : Type} (body : T -> A -> nat -> Exc T)
    (l : list A) (index : nat) (acc : T) : Exc T :=
  match l with
  | [] => ret_exc acc
  | x :: rest =>
      (acc' <- body acc x index ;; forEach body rest (S index) acc')%exc
  end.

(** ** The fenced payload: [responseText.match(/```(?:json)?\s*([\s\S]*?)\s*```/)] *)

(** The class [\s] on code units below 256: tab, line feed, vertical tab,
    form feed, carriage return, space and no-break space. *)
Definition is_space (c : ascii) : bool :=
  let n := nat_of_ascii c in
  ((9 <=? n) && (n <=? 13) || (n =? 32) || (n =? 160))%nat.

Definition fence : string := "```".

(** The text after the first occurrence of the fence. *)
Fixpoint after_fence (s : string) : option string :=
  if prefix fence s then Some (substring 3 (length s - 3) s)
  else match s with
       | EmptyString => None
       | String _ rest => after_fence rest
       end.

(** [(?:json)?], greedy. *)
Definition skip_json (s : string) : string :=
  if prefix "json" s then substring 4 (length s - 4) s else s.

(** [\s*], greedy. *)
Fixpoint skip_spaces (s : string) : string :=
  match s with
  | String c rest => if is_space c then skip_spaces rest else s
  | EmptyString => s
  end.

(** [s] starts with a match of [\s*```]. *)
Fixpoint closes (s : string) : bool :=
  if prefix fence s then true
  else match s with
       | String c rest => is_space c && closes rest
       | EmptyString => false
       end.

(** [([\s\S]*?)\s*```]: the shortest prefix of [s] after which the closing
    fence matches. *)
Fixpoint capture (s : string) : option string :=
  if closes s then Some EmptyString
  else match s with
       | String c rest => option_map (String c) (capture rest)
       | EmptyString => None
       end.

(** Group 1 of the match, [None] when the expression does not match.
    The match starts at the first fence: no other start and no other choice
    for [(?:json)?] or the first [\s*] finds a closing fence when these do
    not. *)
Definition fenced_payload (responseText : string) : option string :=
  match after_fence responseText with
  | Some rest => capture (skip_spaces (skip_json rest))
  | None => None
  end.

(** ** The test-case parser: [parseResponse] *)

Section Parser.
Context {number : Type} {rt : JSRuntime number}.

(** [uuidv4()]. *)
Definition uuidv4 : Eff string :=
  fun w => (uuid_source (uuid_calls w),
            {| uuid_calls := S (uuid_calls w); console := console w |}).

(** [typeof x] for the result of a property access. *)
Definition js_typeof_opt (x : option (JSON number)) : string :=
  match x with
  | Some v => js_typeof v
  | None => "undefined"
  end.

(** The string [x] is, where the code has found [typeof x === 'string']. *)
Definition string_of (x : option (JSON number)) : string :=
  match x with
  | Some (JStr s) => s
  | _ => EmptyString (* not reached *)
  end.

(** [x === s] for a string literal [s]. *)
Definition is_string (x : option (JSON number)) (s : string) : bool :=
  match x with
  | Some (JStr t) => String.eqb t s
  | _ => false
  end.

(** [x.key] where [x] is itself the result of a property access that the
    code has found truthy. *)
Definition js_get_opt (x : option (JSON number)) (key : string)
  : option (JSON number) :=
  match x with
  | Some v => js_get v key
  | None => None
  end.

(** The callback of [parsedJson.forEach]: what it does to
    [validTestCases] at the element [test] of index [index].  An exception
    of [validateTestInputs] leaves the callback. *)
Definition parseTest (tool : ToolDefinition number)
    (validTestCases : list (TestCase number (JSON number)))
    (test : JSON number) (index : nat)
  : Exc (list (TestCase number (JSON number))) :=
  let test_description := js_get test "description" in
  let test_inputs := js_get test "inputs" in
  let test_expectedOutcome := js_get test "expectedOutcome" in
  let test_status := js_get_opt test_expectedOutcome "status" in
  if negb (truthy test) || negb (String.eqb (js_typeof test) "object") then
    (lift (console_warn ("[" ++ name tool ++ "] Test case at index "
                           ++ nat_toString index
                           ++ " is not a valid object. Skipping.")) ;;
     ret_exc validTestCases)%exc
  else if negb (truthy_opt test_description)
          || negb (String.eqb (js_typeof_opt test_description) "string") then
    (lift (console_warn ("[" ++ name tool ++ "] Test case at index "
                           ++ nat_toString index
                           ++ " is missing or has an invalid 'description'. Skipping: "
                           ++ JSON_stringify test)) ;;
     ret_exc validTestCases)%exc
  else if negb (truthy_opt test_inputs)
          || negb (String.eqb (js_typeof_opt test_inputs) "object") then
    (lift (console_warn ("[" ++ name tool ++ "] Test case " ++ dquote
                           ++ string_of test_description ++ dquote
                           ++ " is missing or has invalid 'inputs'. Skipping: "
                           ++ JSON_stringify test)) ;;
     ret_exc validTestCases)%exc
  else if negb (truthy_opt test_expectedOutcome)
          || negb (String.eqb (js_typeof_opt test_expectedOutcome) "object") then
    (lift (console_warn ("[" ++ name tool ++ "] Test case " ++ dquote
                           ++ string_of test_description ++ dquote
                           ++ " is missing or has invalid 'expectedOutcome'. Skipping: "
                           ++ JSON_stringify test)) ;;
     ret_exc validTestCases)%exc
  else if negb (truthy_opt test_status)
          || (negb (is_string test_status "success")
              && negb (is_string test_status "error")) then
    (lift (console_warn ("[" ++ name tool ++ "] Test case " ++ dquote
                           ++ string_of test_description ++ dquote
                           ++ " has missing or invalid 'expectedOutcome.status'. Skipping: "
                           ++ JSON_stringify test)) ;;
     ret_exc validTestCases)%exc
  else
    (fresh <- lift uuidv4 ;;
     let newTestCase :=
       {| id := fresh;
          toolName := name tool;
          description := string_of test_description;
          naturalLanguageQuery := EmptyString;
          inputs := match test_inputs with
                    | Some v => v
                    | None => JNull (* not reached: [test.inputs] is truthy *)
                    end;
          expectedOutcome :=
            {| status := if is_string test_status "success" then success else error;
               validationRules :=
                 match js_get_opt test_expectedOutcome "validationRules" with
                 | Some (JArr rules) => rules
                 | _ => []
                 end |};
          warnings := None |} in
     match status (expectedOutcome newTestCase) with
     | success =>
         validationResult <- evaluate (validateTestInputs newTestCase tool) ;;
         match input_warnings validationResult with
         | [] => ret_exc (validTestCases ++ [newTestCase])%list
         | _ :: _ =>
             ret_exc
               (validTestCases
                  ++ [{| id := id newTestCase;
                         toolName := toolName newTestCase;
                         description := description newTestCase;
                         naturalLanguageQuery := naturalLanguageQuery newTestCase;
                         inputs := inputs newTestCase;
                         expectedOutcome := expectedOutcome newTestCase;
                         warnings := Some (input_warnings validationResult) |}])%list
         end
     | error => ret_exc (validTestCases ++ [newTestCase])%list
     end)%exc.

(** [parsedJson && typeof parsedJson === 'object' && parsedJson.description
     && parsedJson.inputs && parsedJson.expectedOutcome]. *)
Definition looks_like_test (parsedJson : JSON number) : bool :=
  truthy parsedJson
  && String.eqb (js_typeof parsedJson) "object"
  && truthy_opt (js_get parsedJson "description")
  && truthy_opt (js_get parsedJson "inputs")
  && truthy_opt (js_get parsedJson "expectedOutcome").

(** [parseResponse(responseText, tool)].  Inside the outer [try],
    [JSON.parse] has a [catch] of its own; an exception of
    [validateTestInputs] reaches the outer [catch], which discards the test
    cases built so far. *)
Definition parseResponse (responseText : string) (tool : ToolDefinition number)
  : Eff (list (TestCase number (JSON number))) :=
  try_catch
    (jsonContent <-
       match fenced_payload responseText with
       | Some (String c s) => ret_exc (String c s)
       | _ =>
           lift (console_warn ("[" ++ name tool
             ++ "] LLM response did not contain JSON within backticks. Attempting to parse directly.")) ;;
           ret_exc responseText
       end ;;
     match JSON_parse jsonContent with
     | inl message =>
         lift (console_error ("[" ++ name tool
           ++ "] Failed to parse JSON from LLM response. Error: " ++ message)) ;;
         lift (console_error ("[" ++ name tool
           ++ "] Raw response text was: " ++ responseText)) ;;
         ret_exc []
     | inr parsedJson =>
         match parsedJson with
         | JArr elements => forEach (parseTest tool) elements 0 []
         | _ =>
             lift (console_warn ("[" ++ name tool
               ++ "] Parsed JSON is not an array. LLM response might be malformed. Raw response: "
               ++ responseText)) ;;
             if looks_like_test parsedJson then
               lift (console_warn ("[" ++ name tool
                 ++ "] Attempting to recover by wrapping single test case object in an array.")) ;;
               forEach (parseTest tool) [parsedJson] 0 []
             else ret_exc []
         end
     end)%exc
    (fun message =>
       (console_error ("[" ++ name tool
          ++ "] Unexpected error in parseResponse: " ++ message) ;;
        console_error ("[" ++ name tool
          ++ "] Response text was: " ++ responseText) ;;
        ret [])%eff).

End Parser.

(** ** The response validator

    The definitions of this part follow the specification, sections 3,
    4.1, 4.4 and 4.5, and are run against the tests of
    [ResponseValidator.test.ts] below. *)

(** Modelled from the spec: the steps a path is tokenized into ("an
    explicit tokenizer producing a sequence of {key} | {index} steps");
    the tokenizer of [ResponseValidator.ts] is missing. *)
Inductive PathStep : Type :=
| Key (k : string)
| Index (i : nat).

(** Modelled from the spec: the result of path resolution, with the
    [NOT_FOUND] sentinel "distinct from a legitimate null value"; the
    resolver of [ResponseValidator.ts] is missing. *)
Inductive Resolved (number : Type) : Type :=
| NOT_FOUND
| Found (v : JSON number).

Arguments NOT_FOUND {number}.
Arguments Found {number} v.

(** [s.split(sep)]. *)
Fixpoint split_on (sep : ascii) (s : string) : list string :=
  match s with
  | EmptyString => [EmptyString]
  | String c rest =>
      if Ascii.eqb c sep then EmptyString :: split_on sep rest
      else match split_on sep rest with
           | h :: t => String c h :: t
           | [] => [String c EmptyString]
           end
  end.

Definition is_digit (c : ascii) : bool :=
  let n := nat_of_ascii c in ((48 <=? n) && (n <=? 57))%nat.

(** The number a string of decimal digits denotes, read after [acc];
    [None] when a character is not a digit. *)
Fixpoint digits_value (s : string) (acc : nat) : option nat :=
  match s with
  | EmptyString => Some acc
  | String c rest =>
      if is_digit c then digits_value rest (10 * acc + (nat_of_ascii c - 48))
      else None
  end.

(** The bracketed index that ends a segment: for [s] = "digits]" with at
    least one digit, the number. *)
Definition bracket_index (s : string) : option nat :=
  match split_on "]" s with
  | [String c ds; EmptyString] => digits_value (String c ds) 0
  | _ => None
  end.

(** Modelled from the spec: one segment of a path, "optionally suffixed
    with a bracketed non-negative integer index"; a segment of any other
    form is a key as a whole.  The tokenizer of [ResponseValidator.ts] is
    missing. *)
Definition tokenize_segment (segment : string) : list PathStep :=
  match split_on "[" segment with
  | [k; suffix] =>
      match bracket_index suffix with
      | Some i =>
          match k with
          | EmptyString => [Index i]
          | _ => [Key k; Index i]
          end
      | None => [Key segment]
      end
  | _ => [Key segment]
  end.

(** Modelled from the spec: "a sequence of dot-separated segments"; the
    tokenizer of [ResponseValidator.ts] is missing. *)
Definition tokenize (path : string) : list PathStep :=
  flat_map tokenize_segment (split_on "." path).

(** [needle] occurs in [hay]. *)
Fixpoint includes (needle hay : string) : bool :=
  prefix needle hay
  || match hay with
     | String _ rest => includes needle rest
     | EmptyString => false
     end.

Section Validator.
Context {number : Type} {rt : JSRuntime number}.

(** Modelled from the spec: "mapping access by key, sequence access by
    index", failing soft "on a missing key, an out-of-range index, indexing
    into a non-sequence, or keying into a non-mapping"; the resolver of
    [ResponseValidator.ts] is missing. *)
Definition resolve_step (v : JSON number) (step : PathStep) : Resolved number :=
  match step, v with
  | Key k, JObj props =>
      match assoc k props with
      | Some x => Found x
      | None => NOT_FOUND
      end
  | Index i, JArr items =>
      match nth_error items i with
      | Some x => Found x
      | None => NOT_FOUND
      end
  | _, _ => NOT_FOUND
  end.

(** Modelled from the spec: the steps "folded with early exit to a
    NOT_FOUND sentinel"; the resolver of [ResponseValidator.ts] is
    missing. *)
Fixpoint resolve_steps (v : JSON number) (steps : list PathStep)
  : Resolved number :=
  match steps with
  | [] => Found v
  | step :: rest =>
      match resolve_step v step with
      | Found x => resolve_steps x rest
      | NOT_FOUND => NOT_FOUND
      end
  end.

(** Modelled from the spec: [resolve(root, path)] of section 4.1; the
    resolver of [ResponseValidator.ts] is missing. *)
Definition resolve (root : JSON number) (path : string) : Resolved number :=
  resolve_steps root (tokenize path).

(** Modelled from the spec: "deep-structurally equal"; objects are equal
    when they have the same keys with equal values.  The comparison of
    [ResponseValidator.ts] is missing. *)
Fixpoint deep_equal (x y : JSON number) : bool :=
  match x, y with
  | JNull, JNull => true
  | JBool a, JBool b => Bool.eqb a b
  | JNum a, JNum b => Number_sameValueZero a b
  | JStr a, JStr b => String.eqb a b
  | JArr xs, JArr ys =>
      (fix all2 (xs ys : list (JSON number)) : bool :=
         match xs, ys with
         | [], [] => true
         | a :: xs', b :: ys' => deep_equal a b && all2 xs' ys'
         | _, _ => false
         end) xs ys
  | JObj ps, JObj qs =>
      (List.length ps =? List.length qs)%nat
      && (fix all_in (ps : list (string * JSON number)) : bool :=
            match ps with
            | [] => true
            | (k, a) :: ps' =>
                match assoc k qs with
                | Some b => deep_equal a b
                | None => false
                end && all_in ps'
            end) ps
  | _, _ => false
  end.

(** Modelled from the spec: a value "coerced to text", for the [matches]
    rule; the coercion of [ResponseValidator.ts] is missing.  The text is
    the one [String(v)] gives where it throws nothing; an array prints
    [null] as the empty string. *)
Fixpoint text_of (v : JSON number) : string :=
  match v with
  | JNull => "null"
  | JBool true => "true"
  | JBool false => "false"
  | JNum n => Number_toString n
  | JStr s => s
  | JArr items =>
      String.concat ","
        (map (fun x => match x with JNull => EmptyString | _ => text_of x end) items)
  | JObj _ => "[object Object]"
  end.

(** Modelled from the spec: the ValidationRule of section 3, "a closed
    tagged variant over kinds {hasProperty, contains, matches, equals,
    arrayLength, custom}"; the [ValidationRule] that [types.ts] declares
    predates [equals] and [arrayLength]. *)
Inductive ValidationRule : Type :=
| hasProperty (target message : string)
| contains (target : string) (value : JSON number) (message : string)
| matches (target : string) (value : JSON number) (message : string)
| equals (target : string) (value : JSON number) (message : string)
| arrayLength (target : string) (value : JSON number) (message : string)
| custom (predicate : JSON number -> bool) (message : string).

(** [rule.message]. *)
Definition rule_message (rule : ValidationRule) : string :=
  match rule with
  | hasProperty _ m => m
  | contains _ _ m => m
  | matches _ _ m => m
  | equals _ _ m => m
  | arrayLength _ _ m => m
  | custom _ m => m
  end.

(** Modelled from the spec: the Response Rule Evaluator of section 4.4,
    [(ValidationRule, responseFragment) -> pass/fail]; the evaluator of
    [ResponseValidator.ts] is missing. *)
Definition evaluateRule (rule : ValidationRule) (fragment : JSON number) : bool :=
  match rule with
  | hasProperty target _ =>
      match resolve fragment target with
      | Found _ => true
      | NOT_FOUND => false
      end
  | contains target value _ =>
      match resolve fragment target with
      | Found (JStr s) =>
          match value with
          | JStr t => includes t s
          | _ => false
          end
      | Found (JArr items) => existsb (deep_equal value) items
      | _ => false
      end
  | matches target value _ =>
      match resolve fragment target with
      | Found x => RegExp_test (text_of value) (text_of x)
      | NOT_FOUND => false
      end
  | equals target value _ =>
      match resolve fragment target with
      | Found x => deep_equal x value
      | NOT_FOUND => false
      end
  | arrayLength target value _ =>
      match resolve fragment target with
      | Found (JArr items) =>
          match value with
          | JNum n => Number_sameValueZero (Number_ofNat (List.length items)) n
          | _ => false
          end
      | _ => false
      end
  | custom predicate _ => predicate fragment
  end.

(** Modelled from the spec: the ToolResponse of section 3, which "carries
    data when success, or error {message, optional code} when error"
    ([types.ts] declares both as optional fields beside [status]). *)
Inductive ToolResponse : Type :=
| Succeeded (data : JSON number)
| Failed (message : string) (code : option string).

(** [response.status]. *)
Definition response_status (response : ToolResponse) : Status :=
  match response with
  | Succeeded _ => success
  | Failed _ _ => error
  end.

(** Modelled from the spec: the "synthetic root embedding response.error
    under key error"; the validator of [ResponseValidator.ts] is missing. *)
Definition error_root (message : string) (code : option string) : JSON number :=
  JObj [("error",
         JObj (("message", JStr message)
               :: match code with
                  | Some c => [("code", JStr c)]
                  | None => []
                  end))].

Record ValidationResult : Type := {
  valid : bool;
  errors : list string
}.

(** What one call of the validator does: the result it returns and the
    rules it has evaluated, in the order of their evaluation. *)
Record Validation : Type := {
  result : ValidationResult;
  evaluated : list ValidationRule
}.

(** The body of the loop over the declared rules: the rule is evaluated,
    and its message is pushed when it fails. *)
Definition runRule (fragment : JSON number) (st : Validation)
    (rule : ValidationRule) : Validation :=
  let errs :=
    if evaluateRule rule fragment then errors (result st)
    else (errors (result st) ++ [rule_message rule])%list in
  {| result := {| valid := match errs with [] => true | _ => false end;
                  errors := errs |};
     evaluated := (evaluated st ++ [rule])%list |}.

(** Modelled from the spec: the Validation Orchestrator of section 4.5;
    [validateResponse] of [ResponseValidator.ts] is missing. *)
Definition validateResponse (response : ToolResponse)
    (testCase : TestCase number ValidationRule) : Validation :=
  let start := {| result := {| valid := true; errors := [] |}; evaluated := [] |} in
  let rules := validationRules (expectedOutcome testCase) in
  match status (expectedOutcome testCase), response with
  | success, Failed message _ =>
      {| result := {| valid := false;
                      errors := ["Tool execution failed: " ++ message] |};
         evaluated := [] |}
  | error, Succeeded _ =>
      {| result := {| valid := false;
                      errors := ["Expected tool to return an error, but got success."] |};
         evaluated := [] |}
  | success, Succeeded data => fold_left (runRule data) rules start
  | error, Failed message code =>
      fold_left (runRule (error_root message code)) rules start
  end.

End Validator.

Arguments ValidationRule number : clear implicits.
Arguments ToolResponse number : clear implicits.
Arguments Validation number : clear implicits.

(** ** A runtime to run the scenarios on

    Numbers are integers; [JSON.parse] reads JSON texts whose numbers are
    integers and whose strings have no [\u] escapes, and keeps the keys of
    an object in the order of the text; a pattern is a literal text.  The
    theorems below do not depend on this runtime: it instantiates them on
    the scenarios of the specification and of the test suites. *)

Module Reference.

Definition Z_toString (n : Z) : string := NilZero.string_of_int (Z.to_int n).

(** The white space of JSON. *)
Definition json_space (c : ascii) : bool :=
  let n := nat_of_ascii c in ((n =? 32) || (n =? 9) || (n =? 10) || (n =? 13))%nat.

Fixpoint skip_ws (s : string) : string :=
  match s with
  | String c rest => if json_space c then skip_ws rest else s
  | EmptyString => s
  end.

(** The character an escape sequence [\e] denotes. *)
Definition unescape (e : ascii) : option ascii :=
  let n := nat_of_ascii e in
  if (n =? 34)%nat then Some e                          (* quote *)
  else if (n =? 92)%nat then Some e                     (* backslash *)
  else if (n =? 47)%nat then Some e                     (* slash *)
  else if (n =? 98)%nat then Some (ascii_of_nat 8)      (* b *)
  else if (n =? 102)%nat then Some (ascii_of_nat 12)    (* f *)
  else if (n =? 110)%nat then Some (ascii_of_nat 10)    (* n *)
  else if (n =? 114)%nat then Some (ascii_of_nat 13)    (* r *)
  else if (n =? 116)%nat then Some (ascii_of_nat 9)     (* t *)
  else None.

(** The characters of a string literal after its opening quote, and the
    text after its closing quote. *)
Fixpoint parse_chars (s : string) : option (string * string) :=
  match s with
  | EmptyString => None
  | String c rest =>
      let n := nat_of_ascii c in
      if (n =? 34)%nat then Some (EmptyString, rest)
      else if (n =? 92)%nat then
        match rest with
        | String e rest' =>
            match unescape e, parse_chars rest' with
            | Some x, Some (body, after) => Some (String x body, after)
            | _, _ => None
            end
        | EmptyString => None
        end
      else if (n <? 32)%nat then None
      else match parse_chars rest with
           | Some (body, after) => Some (String c body, after)
           | None => None
           end
  end.

(** The digits [s] starts with, and the text after them. *)
Fixpoint take_digits (s : string) : string * string :=
  match s with
  | String c rest =>
      if is_digit c
      then let '(ds, after) := take_digits rest in (String c ds, after)
      else (EmptyString, s)
  | EmptyString => (EmptyString, s)
  end.

(** An unsigned integer literal without a leading zero. *)
Definition parse_nat (s : string) : option (nat * string) :=
  match take_digits s with
  | (EmptyString, _) => None
  | (String c ds, after) =>
      if (nat_of_ascii c =? 48)%nat && negb (String.eqb ds EmptyString) then None
      else match digits_value (String c ds) 0 with
           | Some n => Some (n, after)
           | None => None
           end
  end.

(** [obj[k] = v] while the object is built: a key met again keeps its
    place and takes the new value. *)
Fixpoint set_prop {A : Type} (k : string) (v : A) (props : list (string * A))
  : list (string * A) :=
  match props with
  | [] => [(k, v)]
  | (k', v') :: rest =>
      if String.eqb k' k then (k, v) :: rest else (k', v') :: set_prop k v rest
  end.

Definition drop (n : nat) (s : string) : string := substring n (length s - n) s.

(** A JSON value at the head of [s], and the text after it. *)
Fixpoint parse_value (fuel : nat) (s : string) {struct fuel}
  : option (JSON Z * string) :=
  match fuel with
  | O => None
  | S fuel =>
      let s := skip_ws s in
      if prefix "null" s then Some (JNull, drop 4 s)
      else if prefix "true" s then Some (JBool true, drop 4 s)
      else if prefix "false" s then Some (JBool false, drop 5 s)
      else if prefix "-" s then
        match parse_nat (drop 1 s) with
        | Some (n, after) => Some (JNum (- Z.of_nat n)%Z, after)
        | None => None
        end
      else if prefix dquote s then
        match parse_chars (drop 1 s) with
        | Some (body, after) => Some (JStr body, after)
        | None => None
        end
      else if prefix "[" s then
        if prefix "]" (skip_ws (drop 1 s))
        then Some (JArr [], drop 1 (skip_ws (drop 1 s)))
        else match parse_items fuel (drop 1 s) with
             | Some (items, after) => Some (JArr items, after)
             | None => None
             end
      else if prefix "{" s then
        if prefix "}" (skip_ws (drop 1 s))
        then Some (JObj [], drop 1 (skip_ws (drop 1 s)))
        else match parse_members fuel (drop 1 s) [] with
             | Some (props, after) => Some (JObj props, after)
             | None => None
             end
      else
        match parse_nat s with
        | Some (n, after) => Some (JNum (Z.of_nat n), after)
        | None => None
        end
  end
with parse_items (fuel : nat) (s : string) {struct fuel}
  : option (list (JSON Z) * string) :=
  match fuel with
  | O => None
  | S fuel =>
      match parse_value fuel s with
      | Some (v, after) =>
          let after := skip_ws after in
          if prefix "," after then
            match parse_items fuel (drop 1 after) with
            | Some (vs, rest) => Some (v :: vs, rest)
            | None => None
            end
          else if prefix "]" after then Some ([v], drop 1 after)
          else None
      | None => None
      end
  end
with parse_members (fuel : nat) (s : string) (props : list (string * JSON Z))
    {struct fuel} : option (list (string * JSON Z) * string) :=
  match fuel with
  | O => None
  | S fuel =>
      let s := skip_ws s in
      if prefix dquote s then
        match parse_chars (drop 1 s) with
        | Some (k, after) =>
            let after := skip_ws after in
            if prefix ":" after then
              match parse_value fuel (drop 1 after) with
              | Some (v, after) =>
                  let after := skip_ws after in
                  if prefix "," after
                  then parse_members fuel (drop 1 after) (set_prop k v props)
                  else if prefix "}" after
                  then Some (set_prop k v props, drop 1 after)
                  else None
              | None => None
              end
            else None
        | None => None
        end
      else None
  end.

Definition parse (s : string) : string + JSON Z :=
  match parse_value (2 * length s + 2) s with
  | Some (v, after) =>
      match skip_ws after with
      | EmptyString => inr v
      | _ => inl "Unexpected non-whitespace character after JSON"
      end
  | None => inl "Unexpected token"
  end.

(** A string literal: the quote and the backslash escaped. *)
Fixpoint escape (s : string) : string :=
  match s with
  | EmptyString => EmptyString
  | String c rest =>
      let n := nat_of_ascii c in
      if ((n =? 34) || (n =? 92))%nat
      then String (ascii_of_nat 92) (String c (escape rest))
      else String c (escape rest)
  end.

Definition quote (s : string) : string := dquote ++ escape s ++ dquote.

Fixpoint stringify (v : JSON Z) : string :=
  match v with
  | JNull => "null"
  | JBool true => "true"
  | JBool false => "false"
  | JNum n => Z_toString n
  | JStr s => quote s
  | JArr items => "[" ++ String.concat "," (map stringify items) ++ "]"
  | JObj props =>
      "{" ++ String.concat ","
               (map (fun kv => match kv with
                               | (k, x) => quote k ++ ":" ++ stringify x
                               end) props) ++ "}"
  end.

(** The names of the properties of [Array.prototype] in ECMAScript 2023. *)
Definition Array_prototype_names : list string :=
  ["length"; "constructor"; "at"; "concat"; "copyWithin"; "fill"; "find";
   "findIndex"; "findLast"; "findLastIndex"; "lastIndexOf"; "pop"; "push";
   "reverse"; "shift"; "unshift"; "slice"; "sort"; "splice"; "includes";
   "indexOf"; "join"; "keys"; "entries"; "values"; "forEach"; "filter";
   "flat"; "flatMap"; "map"; "every"; "some"; "reduce"; "reduceRight";
   "toLocaleString"; "toString"; "toReversed"; "toSorted"; "toSpliced";
   "with"].

(** [String(v)] for a value that is not an object. *)
Definition primitive_text (v : JSON Z) : string :=
  match v with
  | JNull => "null"
  | JBool true => "true"
  | JBool false => "false"
  | JNum n => Z_toString n
  | JStr s => s
  | _ => EmptyString (* not reached *)
  end.

#[export] Instance runtime : JSRuntime Z := {
  Number_isZero := Z.eqb 0;
  Number_sameValueZero := Z.eqb;
  Number_toString := Z_toString;
  Number_ofNat := Z.of_nat;
  JSON_parse := parse;
  JSON_stringify := stringify;
  uuid_source := fun n => "uuid-" ++ nat_toString n;
  RegExp_test := includes;
  Array_prototype_has := fun key => existsb (String.eqb key) Array_prototype_names;
  ToPrimitive_TypeError := "Cannot convert object to primitive value";
  in_TypeError := fun key v =>
    "Cannot use 'in' operator to search for '" ++ key ++ "' in " ++ primitive_text v
}.

(** A text in which the apostrophe stands for the double quote. *)
Fixpoint json_text (s : string) : string :=
  match s with
  | EmptyString => EmptyString
  | String c rest =>
      String (if (nat_of_ascii c =? 39)%nat then ascii_of_nat 34 else c)
             (json_text rest)
  end.

(** The world before the first call. *)
Definition world0 : World := {| uuid_calls := 0; console := [] |}.

End Reference.

(** ** The vocabulary of the specification *)

(** [Missing required input parameter: '<name>'.] *)
Definition missing_message (param : string) : string :=
  "Missing required input parameter: '" ++ param ++ "'.".

(** [Input parameter '<name>' is not defined in the tool's input schema.] *)
Definition undeclared_message (param : string) : string :=
  "Input parameter '" ++ param
    ++ "' is not defined in the tool's input schema.".

(** [Input '<name>' type mismatch: Expected <expected>, got <actual>.] *)
Definition mismatch_message (param expected actual : string) : string :=
  "Input '" ++ param ++ "' type mismatch: Expected " ++ expected
    ++ ", got " ++ actual ++ ".".

(** The declared types the checker compares. *)
Definition checked_types : list string :=
  ["string"; "number"; "boolean"; "object"; "array"].

(** Every character of [s] is a decimal digit. *)
Fixpoint all_digits (s : string) : bool :=
  match s with
  | EmptyString => true
  | String c rest => is_digit c && all_digits rest
  end.

(** Modelled from the spec: a segment of a path, "optionally suffixed
    with a bracketed non-negative integer index": a key, and the index
    after it when there is one. *)
Record Segment : Type := {
  segment_key : string;
  segment_index : option nat
}.

(** The text of a segment: [key] or [key[index]]. *)
Definition segment_text (g : Segment) : string :=
  match segment_index g with
  | Some i => segment_key g ++ "[" ++ nat_toString i ++ "]"
  | None => segment_key g
  end.

(** The text of a path: its segments, separated by dots. *)
Fixpoint path_text (segments : list Segment) : string :=
  match segments with
  | [] => EmptyString
  | [g] => segment_text g
  | g :: rest => segment_text g ++ "." ++ path_text rest
  end.

(** The steps of a segment: by its key, then by its index. *)
Definition segment_steps (g : Segment) : list PathStep :=
  match segment_index g with
  | Some i => [Key (segment_key g); Index i]
  | None => [Key (segment_key g)]
  end.

(** [c] does not occur in [s]. *)
Fixpoint lacks (c : ascii) (s : string) : bool :=
  match s with
  | EmptyString => true
  | String d rest => negb (Ascii.eqb d c) && lacks c rest
  end.

(** The key of the segment has neither a dot nor an opening bracket, and
    is not empty when an index follows it. *)
Definition plain_segment (g : Segment) : bool :=
  lacks "." (segment_key g) && lacks "[" (segment_key g)
  && match segment_index g with
     | Some _ => negb (String.eqb (segment_key g) EmptyString)
     | None => true
     end.

Section Vocabulary.
Context {number : Type} {rt : JSRuntime number}.

(** The runtime kind of a value, among string, number, boolean, object and
    array: an array is an array, [null] is an object. *)
Definition runtime_kind (v : JSON number) : string :=
  match v with
  | JArr _ => "array"
  | _ => js_typeof v
  end.

(** The kind a mismatch warning reports after "got": the kind of the
    value where the declared type is object, otherwise its [typeof]. *)
Definition reported_kind (expected : string) (v : JSON number) : string :=
  if String.eqb expected "object" then runtime_kind v else js_typeof v.

(** [param] is a key of the inputs: a key of the object, an index of the
    array or its [length]. *)
Definition own_key (testInputs : JSON number) (param : string) : bool :=
  match testInputs with
  | JObj props => existsb (fun kv => String.eqb (fst kv) param) props
  | JArr items =>
      existsb (fun i => String.eqb (nat_toString i) param)
        (seq 0 (List.length items))
      || String.eqb param "length"
  | _ => false
  end.

(** [param] is a name the inputs inherit from their prototype. *)
Definition inherited_name (testInputs : JSON number) (param : string) : bool :=
  match testInputs with
  | JObj _ => if in_dec string_dec param Object_prototype_names then true else false
  | JArr _ =>
      Array_prototype_has param
      || if in_dec string_dec param Object_prototype_names then true else false
  | _ => false
  end.

(** [param] is absent from the inputs: neither a key of theirs nor a name
    they inherit. *)
Definition absent (testInputs : JSON number) (param : string) : bool :=
  negb (own_key testInputs param) && negb (inherited_name testInputs param).

(** The warning of the type check of one declared input, if any. *)
Definition type_warnings (param : string) (expectedType : option string)
    (v : JSON number) : list string :=
  match expectedType with
  | Some expected =>
      if existsb (String.eqb expected) checked_types
         && negb (String.eqb (runtime_kind v) expected)
      then [mismatch_message param expected (reported_kind expected v)]
      else []
  | None => []
  end.

(** [Input '<name>' value '<value>' is not in the allowed enum values:
    [<values>].] *)
Definition enum_message (param value values : string) : string :=
  "Input '" ++ param ++ "' value '" ++ value
    ++ "' is not in the allowed enum values: [" ++ values ++ "].".

(** The warning of the enum check of one declared input, if any, or the
    exception that building it throws. *)
Definition enum_warnings (param : string) (schemaProperty : SchemaProperty number)
    (v : JSON number) : string + list string :=
  match prop_enum schemaProperty with
  | Some allowed =>
      if Array_includes allowed v then inr []
      else match ToString v, Array_join ", " allowed with
           | inl thrown, _ => inl thrown
           | inr _, inl thrown => inl thrown
           | inr value, inr values => inr [enum_message param value values]
           end
  | None => inr []
  end.

(** The warnings of one input key, or the exception thrown at it. *)
Definition entry_warnings (schemaProperties : list (string * SchemaProperty number))
    (entry : string * JSON number) : string + list string :=
  match schema_get schemaProperties (fst entry) with
  | None => inr [undeclared_message (fst entry)]
  | Some schemaProperty =>
      match enum_warnings (fst entry) schemaProperty (snd entry) with
      | inl thrown => inl thrown
      | inr ws =>
          inr (type_warnings (fst entry) (prop_type schemaProperty) (snd entry)
                 ++ ws)%list
      end
  end.

(** The warnings of the input keys, in their order, or the first
    exception. *)
Fixpoint entries_warnings (schemaProperties : list (string * SchemaProperty number))
    (entries : list (string * JSON number)) : string + list string :=
  match entries with
  | [] => inr []
  | entry :: rest =>
      match entry_warnings schemaProperties entry with
      | inl thrown => inl thrown
      | inr ws =>
          match entries_warnings schemaProperties rest with
          | inl thrown => inl thrown
          | inr ws' => inr (ws ++ ws')%list
          end
      end
  end.

(** The payload [parseResponse] hands to [JSON.parse]: the text inside
    the fence when there is one and it is not empty, otherwise the whole
    text. *)
Definition extracted_payload (responseText : string) : string :=
  match fenced_payload responseText with
  | Some (String c s) => String c s
  | _ => responseText
  end.

(** [x] is an object or an array, the values that are truthy and whose
    [typeof] is ['object']. *)
Definition structured (x : option (JSON number)) : bool :=
  match x with
  | Some (JObj _) => true
  | Some (JArr _) => true
  | _ => false
  end.

(** [x] is present and a structured object: a mapping from keys to
    values. *)
Definition an_object (x : option (JSON number)) : bool :=
  match x with
  | Some (JObj _) => true
  | _ => false
  end.

(** [x] is present and a string. *)
Definition a_string (x : option (JSON number)) : bool :=
  match x with
  | Some (JStr _) => true
  | _ => false
  end.

(** [expectedOutcome.status] is one of success and error. *)
Definition a_status (test : JSON number) : bool :=
  is_string (js_get_opt (js_get test "expectedOutcome") "status") "success"
  || is_string (js_get_opt (js_get test "expectedOutcome") "status") "error".

(** The conditions under which the specification has an element
    rejected. *)
Definition rejected_as_stated (test : JSON number) : bool :=
  negb (an_object (Some test))
  || negb (a_string (js_get test "description"))
  || negb (an_object (js_get test "inputs"))
  || negb (an_object (js_get test "expectedOutcome"))
  || negb (a_status test).

(** The conditions under which the parser rejects an element: those of
    the specification, an empty description counting with the missing ones
    and inputs that are an array with those that are an object. *)
Definition rejected (test : JSON number) : bool :=
  negb (an_object (Some test))
  || negb (a_string (js_get test "description"))
  || is_string (js_get test "description") EmptyString
  || negb (structured (js_get test "inputs"))
  || negb (an_object (js_get test "expectedOutcome"))
  || negb (a_status test).

(** What an accepted element hands over to its test case: description,
    inputs, status and rules. *)
Definition case_of (test : JSON number)
  : string * JSON number * Status * list (JSON number) :=
  (string_of (js_get test "description"),
   match js_get test "inputs" with Some v => v | None => JNull end,
   if is_string (js_get_opt (js_get test "expectedOutcome") "status") "success"
   then success else error,
   match js_get_opt (js_get test "expectedOutcome") "validationRules" with
   | Some (JArr rules) => rules
   | _ => []
   end).

(** The same four fields of a test case. *)
Definition case_fields (t : TestCase number (JSON number))
  : string * JSON number * Status * list (JSON number) :=
  (description t, inputs t, status (expectedOutcome t),
   validationRules (expectedOutcome t)).

(** The [warnings] field of a test case, were it attached only for the
    status success and a checker that returns warnings. *)
Definition attached_warnings {rule : Type} (tool : ToolDefinition number)
    (t : TestCase number rule) : option (list string) :=
  match status (expectedOutcome t) with
  | success =>
      match validateTestInputs t tool with
      | inr {| isValid := _; input_warnings := w :: ws |} => Some (w :: ws)
      | _ => None
      end
  | error => None
  end.

(** A test case of the given inputs and status; the checker reads no
    other field. *)
Definition probe (given : JSON number) (expected : Status)
  : TestCase number (JSON number) :=
  {| id := EmptyString;
     toolName := EmptyString;
     description := EmptyString;
     naturalLanguageQuery := EmptyString;
     inputs := given;
     expectedOutcome := {| status := expected; validationRules := [] |};
     warnings := None |}.

(** The exception the conformance check throws at an element, if any:
    the check runs on the inputs of an element that is not rejected and
    expects success. *)
Definition thrown_at (tool : ToolDefinition number) (test : JSON number)
  : option string :=
  if rejected test then None
  else
    match case_of test with
    | (_, given, success, _) =>
        match validateTestInputs (probe given success) tool with
        | inl thrown => Some thrown
        | inr _ => None
        end
    | (_, _, error, _) => None
    end.

(** The conformance check throws at the element. *)
Definition throws (tool : ToolDefinition number) (test : JSON number) : bool :=
  match thrown_at tool test with
  | Some _ => true
  | None => false
  end.

(** The two lines the outer [catch] of [parseResponse] writes. *)
Definition catch_lines (tool_name responseText thrown : string) : list Diagnostic :=
  [{| level := LogError;
      text := "[" ++ tool_name ++ "] Unexpected error in parseResponse: " ++ thrown |};
   {| level := LogError;
      text := "[" ++ tool_name ++ "] Response text was: " ++ responseText |}].

(** The rules of the five kinds that have a target, with the same target,
    value and message. *)
Definition targeted_rules (target : string) (value : JSON number) (message : string)
  : list (ValidationRule number) :=
  [hasProperty target message; contains target value message;
   matches target value message; equals target value message;
   arrayLength target value message].

(** Modelled from the spec: "mapping access by key, sequence access by
    index".  One step of a path succeeds: the mapping has the key, or the
    sequence has the index. *)
Inductive steps_to : JSON number -> PathStep -> JSON number -> Prop :=
| by_key props k x :
    assoc k props = Some x -> steps_to (JObj props) (Key k) x
| by_index items i x :
    nth_error items i = Some x -> steps_to (JArr items) (Index i) x.

(** The steps of a path succeed one after the other. *)
Inductive reaches : JSON number -> list PathStep -> JSON number -> Prop :=
| reaches_here v : reaches v [] v
| reaches_further v step x rest y :
    steps_to v step x -> reaches x rest y -> reaches v (step :: rest) y.

(** Modelled from the spec: the four causes for which a step fails, "a
    missing key, an out-of-range index, indexing into a non-sequence, or
    keying into a non-mapping". *)
Inductive fails_at : JSON number -> PathStep -> Prop :=
| missing_key props k :
    assoc k props = None -> fails_at (JObj props) (Key k)
| index_out_of_range items i :
    List.length items <= i -> fails_at (JArr items) (Index i)
| index_into_non_sequence v i :
    Array_isArray v = false -> fails_at v (Index i)
| key_into_non_mapping v k :
    an_object (Some v) = false -> fails_at v (Key k).

End Vocabulary.

(** ** Scenarios

    The tools, texts and responses of the scenarios of the specification
    and of the test suites, on the reference runtime. *)

Module Scenarios.
Import Reference.

(** The properties of [mockToolFull] of [TestGenerator.test.ts]. *)
Definition mockProperties : list (string * SchemaProperty Z) :=
  [("paramString", {| prop_type := Some "string"; prop_enum := None |});
   ("paramNumber", {| prop_type := Some "number"; prop_enum := None |});
   ("paramBoolean", {| prop_type := Some "boolean"; prop_enum := None |});
   ("paramObject", {| prop_type := Some "object"; prop_enum := None |});
   ("paramArray", {| prop_type := Some "array"; prop_enum := None |});
   ("paramEnum", {| prop_type := Some "string";
                    prop_enum := Some [JStr "A"; JStr "B"; JStr "C"] |});
   ("optionalParam", {| prop_type := Some "string"; prop_enum := None |})].

Definition mockSchema : InputSchema Z :=
  {| properties := Some mockProperties;
     required := Some ["paramString"; "paramNumber"; "paramEnum"] |}.

(** [mockToolFull] of [TestGenerator.test.ts]. *)
Definition mockToolFull : ToolDefinition Z :=
  {| name := "validationTool";
     tool_description := Some "A tool to test input validation.";
     inputSchema := Some mockSchema |}.

(** [mockToolMinimal] of [TestGenerator.test.ts]: a schema without
    properties. *)
Definition mockToolMinimal : ToolDefinition Z :=
  {| name := "testTool";
     tool_description := None;
     inputSchema := Some {| properties := None; required := Some ["location"] |} |}.

(** Scenario A: a schema that requires [location]. *)
Definition weatherSchema : InputSchema Z :=
  {| properties :=
       Some [("location", {| prop_type := Some "string"; prop_enum := None |});
             ("unit", {| prop_type := Some "string";
                         prop_enum := Some [JStr "celsius"; JStr "fahrenheit"] |})];
     required := Some ["location"] |}.

Definition weatherTool : ToolDefinition Z :=
  {| name := "getWeather";
     tool_description := Some "Fetches the current weather for a given location.";
     inputSchema := Some weatherSchema |}.

(** A test case of the given inputs, status and rules. *)
Definition test_case {rule : Type} (tool : ToolDefinition Z) (given : JSON Z)
    (expected : Status) (rules : list rule) : TestCase Z rule :=
  {| id := "1";
     toolName := name tool;
     description := "desc";
     naturalLanguageQuery := EmptyString;
     inputs := given;
     expectedOutcome := {| status := expected; validationRules := rules |};
     warnings := None |}.

Definition weatherCase : TestCase Z (JSON Z) :=
  test_case weatherTool (JObj [("unit", JStr "celsius")]) success [].

(** Scenario B: a number where a string is declared. *)
Definition mismatchText : string :=
  json_text "[{'description': 'Test type mismatch', 'inputs': {'paramString': 123, 'paramNumber': 456, 'paramEnum': 'A'}, 'expectedOutcome': {'status': 'success'}}]".

Definition mismatchCase : TestCase Z (JSON Z) :=
  {| id := "uuid-0";
     toolName := "validationTool";
     description := "Test type mismatch";
     naturalLanguageQuery := EmptyString;
     inputs := JObj [("paramString", JNum 123%Z); ("paramNumber", JNum 456%Z);
                     ("paramEnum", JStr "A")];
     expectedOutcome := {| status := success; validationRules := [] |};
     warnings := Some ["Input 'paramString' type mismatch: Expected string, got number."] |}.

(** An element whose description is the empty string. *)
Definition emptyDescription : JSON Z :=
  JObj [("description", JStr EmptyString);
        ("inputs", JObj []);
        ("expectedOutcome", JObj [("status", JStr "success")])].

Definition emptyDescriptionText : string :=
  json_text "[{'description':'','inputs':{},'expectedOutcome':{'status':'success'}}]".

(** An element whose inputs are an array. *)
Definition arrayInputs : JSON Z :=
  JObj [("description", JStr "Array inputs");
        ("inputs", JArr []);
        ("expectedOutcome", JObj [("status", JStr "error")])].

Definition arrayInputsText : string :=
  json_text "[{'description':'Array inputs','inputs':[],'expectedOutcome':{'status':'error'}}]".

(** Two elements that have a description, inputs, an expected outcome
    and the status success; in the second the value of [paramEnum] is an
    object with a key [toString]. *)
Definition printable : JSON Z :=
  JObj [("description", JStr "Printable");
        ("inputs", JObj [("paramString", JStr "s"); ("paramNumber", JNum 1%Z);
                         ("paramEnum", JStr "A")]);
        ("expectedOutcome", JObj [("status", JStr "success")])].

Definition unprintable : JSON Z :=
  JObj [("description", JStr "Unprintable");
        ("inputs", JObj [("paramString", JStr "s"); ("paramNumber", JNum 1%Z);
                         ("paramEnum", JObj [("toString", JNum 1%Z)])]);
        ("expectedOutcome", JObj [("status", JStr "success")])].

Definition unprintableText : string :=
  json_text "[{'description':'Printable','inputs':{'paramString':'s','paramNumber':1,'paramEnum':'A'},'expectedOutcome':{'status':'success'}}, {'description':'Unprintable','inputs':{'paramString':'s','paramNumber':1,'paramEnum':{'toString':1}},'expectedOutcome':{'status':'success'}}]".

(** The schema of [mockToolFull] without its required names. *)
Definition optionalTool : ToolDefinition Z :=
  {| name := "validationTool";
     tool_description := None;
     inputSchema :=
       Some {| properties := Some mockProperties; required := None |} |}.

(** A schema that requires names every object inherits. *)
Definition inheritingTool : ToolDefinition Z :=
  {| name := "validationTool";
     tool_description := None;
     inputSchema :=
       Some {| properties := Some mockProperties;
               required := Some ["toString"; "constructor"; "paramString"] |} |}.

(** Scenario E. *)
Definition notJson : string := "this is not json".

(** Scenario F: success expected, with a declared rule. *)
Definition expectsSuccess : TestCase Z (ValidationRule Z) :=
  test_case mockToolFull (JObj []) success
    [hasProperty "foo" "missing foo"].

(** Scenario D: an error expected whose message matches [fail]. *)
Definition expectsError : TestCase Z (ValidationRule Z) :=
  test_case mockToolFull (JObj []) error
    [matches "error.message" (JStr "fail") "msg"].

(** The mixed response of [TestGenerator.test.ts], inside a fence. *)
Definition mixedText : string :=
  ("```json" ++ String (ascii_of_nat 10) EmptyString
   ++ json_text "[ {'description':'Valid Case 1','inputs':{'paramString':'s', 'paramNumber':1, 'paramEnum':'A'},'expectedOutcome':{'status':'success','validationRules':[{'type':'contains','target':'field','value':'abc'}]}}, {'inputs':{'paramString':'s', 'paramNumber':1, 'paramEnum':'A'},'expectedOutcome':{'status':'error'}}, {'description':'Valid Case 2','inputs':{'paramString':'s', 'paramNumber':1, 'paramEnum':'A'},'expectedOutcome':{'status':'success'}}, {'description':'Invalid Outcome','inputs':{'paramString':'s', 'paramNumber':1, 'paramEnum':'A'},'expectedOutcome':{}}, {'description':'Invalid Status','inputs':{'paramString':'s', 'paramNumber':1, 'paramEnum':'A'},'expectedOutcome':{'status':'unknown'}} ]"
   ++ String (ascii_of_nat 10) EmptyString ++ "```")%string.

(** The elements of [mixedText]. *)
Definition mixedElements : list (JSON Z) :=
  let given := JObj [("paramString", JStr "s"); ("paramNumber", JNum 1%Z);
                     ("paramEnum", JStr "A")] in
  [JObj [("description", JStr "Valid Case 1"); ("inputs", given);
         ("expectedOutcome",
          JObj [("status", JStr "success");
                ("validationRules",
                 JArr [JObj [("type", JStr "contains"); ("target", JStr "field");
                             ("value", JStr "abc")]])])];
   JObj [("inputs", given); ("expectedOutcome", JObj [("status", JStr "error")])];
   JObj [("description", JStr "Valid Case 2"); ("inputs", given);
         ("expectedOutcome", JObj [("status", JStr "success")])];
   JObj [("description", JStr "Invalid Outcome"); ("inputs", given);
         ("expectedOutcome", JObj [])];
   JObj [("description", JStr "Invalid Status"); ("inputs", given);
         ("expectedOutcome", JObj [("status", JStr "unknown")])]].

(** The response of the [arrayLength] and bracket-path tests of
    [ResponseValidator.test.ts]. *)
Definition itemsData : JSON Z :=
  JObj [("items", JArr [JObj [("id", JNum 1%Z)]; JObj [("id", JNum 2%Z)]]);
        ("count", JNum 42%Z);
        ("nothing", JNull)].

End Scenarios.

(** ** Conforming inputs *)

Section Conformance.
Context {number : Type} {rt : JSRuntime number}.

(** The value has the declared type, or the declared type is none of
    those the checker compares. *)
Definition type_ok (expectedType : option string) (v : JSON number) : bool :=
  match expectedType with
  | Some expected =>
      negb (existsb (String.eqb expected) checked_types)
      || String.eqb (runtime_kind v) expected
  | None => true
  end.

(** The value is one of the enumerated values, or none are enumerated. *)
Definition enum_ok (schemaProperty : SchemaProperty number) (v : JSON number)
  : bool :=
  match prop_enum schemaProperty with
  | Some allowed => Array_includes allowed v
  | None => true
  end.

(** The key of the entry is declared in the schema, or is a name the
    schema inherits from [Object.prototype], which the checker takes for
    declared. *)
Definition declared (schemaProperties : list (string * SchemaProperty number))
    (entry : string * JSON number) : bool :=
  match assoc (fst entry) schemaProperties with
  | Some _ => true
  | None => if in_dec string_dec (fst entry) Object_prototype_names
            then true else false
  end.

(** The entry passes the checks of its declaration, if it has one. *)
Definition passes (schemaProperties : list (string * SchemaProperty number))
    (entry : string * JSON number) : bool :=
  match assoc (fst entry) schemaProperties with
  | Some schemaProperty =>
      type_ok (prop_type schemaProperty) (snd entry)
      && enum_ok schemaProperty (snd entry)
  | None => true
  end.

(** The value cannot be printed: it is an object with a key [toString],
    or an array that holds a value that cannot be printed. *)
Fixpoint unprintable (v : JSON number) : bool :=
  match v with
  | JObj props => existsb (fun kv => String.eqb (fst kv) "toString") props
  | JArr items => existsb unprintable items
  | _ => false
  end.

(** The entry makes the checker throw: its key has a declaration with
    enumerated values, its value is none of them, and the value or one of
    the enumerated values cannot be printed. *)
Definition entry_throws (schemaProperties : list (string * SchemaProperty number))
    (entry : string * JSON number) : bool :=
  match assoc (fst entry) schemaProperties with
  | Some schemaProperty =>
      match prop_enum schemaProperty with
      | Some allowed =>
          negb (Array_includes allowed (snd entry))
          && (unprintable (snd entry) || existsb unprintable allowed)
      | None => false
      end
  | None => false
  end.

(** [tool.inputSchema.required || []]. *)
Definition required_names (schema : InputSchema number) : list string :=
  match required schema with
  | Some names => names
  | None => []
  end.

End Conformance.

(** ** The diagnostics of the parser *)

Section Diagnostics.
Context {number : Type} {rt : JSRuntime number}.

(** The line the parser writes when the text has no fenced payload. *)
Definition fence_notice (tool : ToolDefinition number) (responseText : string)
  : list Diagnostic :=
  match fenced_payload responseText with
  | Some (String _ _) => []
  | _ =>
      [{| level := LogWarn;
          text := "[" ++ name tool
            ++ "] LLM response did not contain JSON within backticks. Attempting to parse directly." |}]
  end.

(** The line the parser writes when the parsed value is not an array. *)
Definition not_array_notice (tool : ToolDefinition number) (responseText : string)
  : Diagnostic :=
  {| level := LogWarn;
     text := "[" ++ name tool
       ++ "] Parsed JSON is not an array. LLM response might be malformed. Raw response: "
       ++ responseText |}.

(** The line the parser writes when it wraps a single object. *)
Definition recovery_notice (tool : ToolDefinition number) : Diagnostic :=
  {| level := LogWarn;
     text := "[" ++ name tool
       ++ "] Attempting to recover by wrapping single test case object in an array." |}.

(** The elements [parseResponse] runs its loop on, for a parsed value:
    those of an array, the value itself when it looks like a test case,
    none otherwise. *)
Definition elements_of (parsedJson : JSON number) : list (JSON number) :=
  match parsedJson with
  | JArr elements => elements
  | _ => if looks_like_test parsedJson then [parsedJson] else []
  end.

(** The warning the parser writes for a rejected element: it cites the
    tool and the index of the element or, once it has one, its
    description. *)
Definition rejection_notice (tool_name : string) (test : JSON number)
    (index : nat) : Diagnostic :=
  let cited := string_of (js_get test "description") in
  {| level := LogWarn;
     text :=
       if negb (structured (Some test)) then
         "[" ++ tool_name ++ "] Test case at index " ++ nat_toString index
           ++ " is not a valid object. Skipping."
       else if negb (a_string (js_get test "description"))
               || is_string (js_get test "description") EmptyString then
         "[" ++ tool_name ++ "] Test case at index " ++ nat_toString index
           ++ " is missing or has an invalid 'description'. Skipping: "
           ++ JSON_stringify test
       else if negb (structured (js_get test "inputs")) then
         "[" ++ tool_name ++ "] Test case " ++ dquote ++ cited ++ dquote
           ++ " is missing or has invalid 'inputs'. Skipping: "
           ++ JSON_stringify test
       else if negb (structured (js_get test "expectedOutcome")) then
         "[" ++ tool_name ++ "] Test case " ++ dquote ++ cited ++ dquote
           ++ " is missing or has invalid 'expectedOutcome'. Skipping: "
           ++ JSON_stringify test
       else
         "[" ++ tool_name ++ "] Test case " ++ dquote ++ cited ++ dquote
           ++ " has missing or invalid 'expectedOutcome.status'. Skipping: "
           ++ JSON_stringify test |}.

(** The warnings for the rejected elements among [elements], the first
    of which has the index [index]. *)
Fixpoint rejection_notices (tool_name : string) (elements : list (JSON number))
    (index : nat) : list Diagnostic :=
  match elements with
  | [] => []
  | test :: rest =>
      (if rejected test then [rejection_notice tool_name test index] else [])
        ++ rejection_notices tool_name rest (S index)
  end.

(** The conformance check throws at an element of the response, which
    interrupts the parser. *)
Definition interrupted (tool : ToolDefinition number) (responseText : string)
  : bool :=
  match JSON_parse (extracted_payload responseText) with
  | inr parsedJson => existsb (throws tool) (elements_of parsedJson)
  | inl _ => false
  end.

(** The lines the parser writes about the shape of the parsed value. *)
Definition shape_notices (tool : ToolDefinition number) (responseText : string)
    (parsedJson : JSON number) : list Diagnostic :=
  match parsedJson with
  | JArr _ => []
  | _ =>
      not_array_notice tool responseText
        :: (if looks_like_test parsedJson then [recovery_notice tool] else [])
  end.

End Diagnostics.

(** ** Fenced texts *)

(** Every character of [s] is white space. *)
Fixpoint all_spaces (s : string) : bool :=
  match s with
  | EmptyString => true
  | String c rest => is_space c && all_spaces rest
  end.

(** [s] starts with white space. *)
Definition starts_with_space (s : string) : bool :=
  match s with
  | String c _ => is_space c
  | EmptyString => false
  end.

(** [s] ends with white space. *)
Fixpoint ends_with_space (s : string) : bool :=
  match s with
  | EmptyString => false
  | String c EmptyString => is_space c
  | String _ rest => ends_with_space rest
  end.

(** [s] has no backtick. *)
Fixpoint no_backtick (s : string) : bool :=
  match s with
  | EmptyString => true
  | String c rest => negb (Ascii.eqb c "`") && no_backtick rest
  end.

(** A payload inside a fence tagged [json], after any text without a
    backtick and before any text. *)
Definition fenced (before ws1 body ws2 rest : string) : string :=
  before ++ "```json" ++ ws1 ++ body ++ ws2 ++ "```" ++ rest.

(** [s] ends with a backtick. *)
Fixpoint ends_with_backtick (s : string) : bool :=
  match s with
  | EmptyString => false
  | String c EmptyString => Ascii.eqb c "`"
  | String _ rest => ends_with_backtick rest
  end.

(** ** The generator: [generateTests] *)

(** The fields of the configuration that [generateTests] reads. *)
Record TesterConfig (number : Type) : Type := {
  numTestsPerTool : number;
  modelName : option string;
  temperature : option number
}.

Arguments numTestsPerTool {number} t.
Arguments modelName {number} t.
Arguments temperature {number} t.

(** The argument of [anthropic.completions.create]. *)
Record CompletionRequest (number : Type) : Type := {
  model : string;
  max_tokens_to_sample : nat;
  prompt : string;
  request_temperature : number
}.

Arguments model {number} c.
Arguments max_tokens_to_sample {number} c.
Arguments prompt {number} c.
Arguments request_temperature {number} c.

(** What a run of the generator reads and writes: the world of the
    parser, the lines of [console.log] and the requests sent so far. *)
Record Process (number : Type) : Type := {
  world : World;
  stdout : list string;
  requests : list (CompletionRequest number)
}.

Arguments world {number} p.
Arguments stdout {number} p.
Arguments requests {number} p.

(** [x || d] for a string that may be undefined: the empty string is
    falsy. *)
Definition string_or (x : option string) (d : string) : string :=
  match x with
  | Some (String c s) => String c s
  | _ => d
  end.

(** The line feed. *)
Definition newline : string := String (ascii_of_nat 10) EmptyString.

Section Generator.
Context {number : Type} {rt : JSRuntime number}.

(** [createPrompt(tool, testsPerTool)]; the properties below hold
    whatever text the prompt is. *)
Variable createPrompt : ToolDefinition number -> number -> string.

(** What the [n]-th call of [anthropic.completions.create] does with a
    request: it throws an error, given as the console prints it, or
    resolves to a response with this [completion]. *)
Variable completions_create : nat -> CompletionRequest number -> string + string.

(** [process.env.CLAUDE_MODEL]. *)
Variable CLAUDE_MODEL : option string.

(** The number [0.7]. *)
Variable seven_tenths : number.

(** [config.numTestsPerTool || 3]. *)
Definition testsPerTool (config : TesterConfig number) : number :=
  if Number_isZero (numTestsPerTool config) then Number_ofNat 3
  else numTestsPerTool config.

(** [config.modelName || process.env.CLAUDE_MODEL || 'claude-3-7-sonnet-20250219']. *)
Definition currentModel (config : TesterConfig number) : string :=
  string_or (modelName config) (string_or CLAUDE_MODEL "claude-3-7-sonnet-20250219").

(** [config.temperature !== undefined ? config.temperature : 0.7]. *)
Definition currentTemperature (config : TesterConfig number) : number :=
  match temperature config with
  | Some t => t
  | None => seven_tenths
  end.

(** The request [generateTests] sends for a tool. *)
Definition request_for (config : TesterConfig number) (tool : ToolDefinition number)
  : CompletionRequest number :=
  {| model := currentModel config;
     max_tokens_to_sample := 4000;
     prompt := newline ++ newline ++ "Human: "
                 ++ createPrompt tool (testsPerTool config)
                 ++ newline ++ newline ++ "Assistant:";
     request_temperature := currentTemperature config |}.

(** [console.log(line)]. *)
Definition console_log (p : Process number) (line : string) : Process number :=
  {| world := world p; stdout := (stdout p ++ [line])%list; requests := requests p |}.

(** The body of the loop over the tools: its effect on [allTests] and on
    the process. *)
Definition generateFor (config : TesterConfig number)
    (st : list (TestCase number (JSON number)) * Process number)
    (tool : ToolDefinition number)
  : list (TestCase number (JSON number)) * Process number :=
  let '(allTests, p) := st in
  let p := console_log p ("Generating tests for tool: " ++ name tool) in
  let request := request_for config tool in
  let response := completions_create (List.length (requests p)) request in
  let p := {| world := world p; stdout := stdout p;
              requests := (requests p ++ [request])%list |} in
  match response with
  | inr completion =>
      let '(testCases, w) := parseResponse completion tool (world p) in
      let p := {| world := w; stdout := stdout p; requests := requests p |} in
      ((allTests ++ testCases)%list,
       console_log p ("Generated " ++ nat_toString (List.length testCases)
                        ++ " tests for " ++ name tool))
  | inl thrown =>
      (allTests,
       {| world := snd (console_error
                          ("Error generating tests for tool " ++ name tool
                             ++ ": " ++ thrown) (world p));
          stdout := stdout p; requests := requests p |})
  end.

(** [generateTests(tools, config)]. *)
Definition generateTests (tools : list (ToolDefinition number))
    (config : TesterConfig number) (p : Process number)
  : list (TestCase number (JSON number)) * Process number :=
  fold_left (generateFor config) tools ([], p).

(** The test cases of a run, tool by tool: those of one tool bear its
    name, and a tool whose request failed has none.  [n] is the number of
    requests sent before. *)
Fixpoint grouped_by_tool (config : TesterConfig number) (n : nat)
    (tools : list (ToolDefinition number))
    (groups : list (list (TestCase number (JSON number)))) : Prop :=
  match tools, groups with
  | [], [] => True
  | tool :: tools', group :: groups' =>
      Forall (fun t => toolName t = name tool) group
      /\ (forall thrown,
             completions_create n (request_for config tool) = inl thrown ->
             group = [])
      /\ grouped_by_tool config (S n) tools' groups'
  | _, _ => False
  end.

End Generator.

(** ** The parser without the conformance check

    The [parseResponse(responseText, toolName)] that the repository also
    holds, which takes the name of the tool and checks no inputs. *)

Section NameParser.
Context {number : Type} {rt : JSRuntime number}.

(** The callback of [parsedJson.forEach] of this parser. *)
Definition parseTest_v1 (tool_name : string)
    (validTestCases : list (TestCase number (JSON number)))
    (test : JSON number) (index : nat)
  : Exc (list (TestCase number (JSON number))) :=
  let test_description := js_get test "description" in
  let test_inputs := js_get test "inputs" in
  let test_expectedOutcome := js_get test "expectedOutcome" in
  let test_status := js_get_opt test_expectedOutcome "status" in
  if negb (truthy test) || negb (String.eqb (js_typeof test) "object") then
    (lift (console_warn ("[" ++ tool_name ++ "] Test case at index "
                           ++ nat_toString index
                           ++ " is not a valid object. Skipping.")) ;;
     ret_exc validTestCases)%exc
  else if negb (truthy_opt test_description)
          || negb (String.eqb (js_typeof_opt test_description) "string") then
    (lift (console_warn ("[" ++ tool_name ++ "] Test case at index "
                           ++ nat_toString index
                           ++ " is missing or has an invalid 'description'. Skipping: "
                           ++ JSON_stringify test)) ;;
     ret_exc validTestCases)%exc
  else if negb (truthy_opt test_inputs)
          || negb (String.eqb (js_typeof_opt test_inputs) "object") then
    (lift (console_warn ("[" ++ tool_name ++ "] Test case " ++ dquote
                           ++ string_of test_description ++ dquote
                           ++ " is missing or has invalid 'inputs'. Skipping: "
                           ++ JSON_stringify test)) ;;
     ret_exc validTestCases)%exc
  else if negb (truthy_opt test_expectedOutcome)
          || negb (String.eqb (js_typeof_opt test_expectedOutcome) "object") then
    (lift (console_warn ("[" ++ tool_name ++ "] Test case " ++ dquote
                           ++ string_of test_description ++ dquote
                           ++ " is missing or has invalid 'expectedOutcome'. Skipping: "
                           ++ JSON_stringify test)) ;;
     ret_exc validTestCases)%exc
  else if negb (truthy_opt test_status)
          || (negb (is_string test_status "success")
              && negb (is_string test_status "error")) then
    (lift (console_warn ("[" ++ tool_name ++ "] Test case " ++ dquote
                           ++ string_of test_description ++ dquote
                           ++ " has missing or invalid 'expectedOutcome.status'. Skipping: "
                           ++ JSON_stringify test)) ;;
     ret_exc validTestCases)%exc
  else
    (fresh <- lift uuidv4 ;;
     ret_exc
       (validTestCases
          ++ [{| id := fresh;
                 toolName := tool_name;
                 description := string_of test_description;
                 naturalLanguageQuery := EmptyString;
                 inputs := match test_inputs with
                           | Some v => v
                           | None => JNull (* not reached: [test.inputs] is truthy *)
                           end;
                 expectedOutcome :=
                   {| status := if is_string test_status "success"
                                then success else error;
                      validationRules :=
                        match js_get_opt test_expectedOutcome "validationRules" with
                        | Some (JArr rules) => rules
                        | _ => []
                        end |};
                 warnings := None |}])%list)%exc.

(** [parseResponse(responseText, toolName)]. *)
Definition parseResponse_v1 (responseText : string) (tool_name : string)
  : Eff (list (TestCase number (JSON number))) :=
  try_catch
    (jsonContent <-
       match fenced_payload responseText with
       | Some (String c s) => ret_exc (String c s)
       | _ =>
           lift (console_warn ("[" ++ tool_name
             ++ "] LLM response did not contain JSON within backticks. Attempting to parse directly.")) ;;
           ret_exc responseText
       end ;;
     match JSON_parse jsonContent with
     | inl message =>
         lift (console_error ("[" ++ tool_name
           ++ "] Failed to parse JSON from LLM response. Error: " ++ message)) ;;
         lift (console_error ("[" ++ tool_name
           ++ "] Raw response text was: " ++ responseText)) ;;
         ret_exc []
     | inr parsedJson =>
         match parsedJson with
         | JArr elements => forEach (parseTest_v1 tool_name) elements 0 []
         | _ =>
             lift (console_warn ("[" ++ tool_name
               ++ "] Parsed JSON is not an array. LLM response might be malformed. Raw response: "
               ++ responseText)) ;;
             if looks_like_test parsedJson then
               lift (console_warn ("[" ++ tool_name
                 ++ "] Attempting to recover by wrapping single test case object in an array.")) ;;
               forEach (parseTest_v1 tool_name) [parsedJson] 0 []
             else ret_exc []
         end
     end)%exc
    (fun message =>
       (console_error ("[" ++ tool_name
          ++ "] Unexpected error in parseResponse: " ++ message) ;;
        console_error ("[" ++ tool_name
          ++ "] Response text was: " ++ responseText) ;;
        ret [])%eff).

(** A tool of this name without a schema. *)
Definition unspecified (tool_name : string) : ToolDefinition number :=
  {| name := tool_name; tool_description := None; inputSchema := None |}.

(** A test case without its [warnings] field. *)
Definition without_warnings (t : TestCase number (JSON number))
  : TestCase number (JSON number) :=
  {| id := id t;
     toolName := toolName t;
     description := description t;
     naturalLanguageQuery := naturalLanguageQuery t;
     inputs := inputs t;
     expectedOutcome := expectedOutcome t;
     warnings := None |}.

End NameParser.

(** ** More scenarios *)

Module MoreScenarios.
Import Reference Scenarios.

(** Inputs that conform to the schema of [mockToolFull]. *)
Definition conformingCase : TestCase Z (JSON Z) :=
  test_case mockToolFull
    (JObj [("paramString", JStr "abc"); ("paramNumber", JNum 123%Z);
           ("paramEnum", JStr "A"); ("paramObject", JNull)])
    success [].

(** Conforming inputs and one parameter the schema does not declare. *)
Definition extraCase : TestCase Z (JSON Z) :=
  test_case mockToolFull
    (JObj [("paramString", JStr "abc"); ("paramNumber", JNum 123%Z);
           ("paramEnum", JStr "A"); ("extraParam", JStr "xyz")])
    success [].

(** "should handle a single test case object response by wrapping it in
    an array". *)
Definition singleText : string :=
  json_text "{'description':'Single test','inputs':{'paramString':'abc', 'paramNumber':123, 'paramEnum':'A'},'expectedOutcome':{'status':'success'}}".

Definition singleObject : JSON Z :=
  JObj [("description", JStr "Single test");
        ("inputs", JObj [("paramString", JStr "abc"); ("paramNumber", JNum 123%Z);
                         ("paramEnum", JStr "A")]);
        ("expectedOutcome", JObj [("status", JStr "success")])].

(** The payload of a fenced answer. *)
Definition fencedBody : string :=
  json_text "[{'description':'Test 1','inputs':{'paramString':'abc', 'paramNumber':123, 'paramEnum':'A'},'expectedOutcome':{'status':'success','validationRules':[]}}]".

(** A prompt, for the runs of the generator. *)
Definition promptOf (tool : ToolDefinition Z) (count : Z) : string :=
  "Generate " ++ Z_toString count ++ " test cases for " ++ name tool.

(** A service that rejects every request. *)
Definition failing (n : nat) (request : CompletionRequest Z) : string + string :=
  inl "Error: boom".

(** A service that answers the first request with the text of scenario B
    and the second with the mixed response, and rejects every other. *)
Definition answering (n : nat) (request : CompletionRequest Z) : string + string :=
  match n with
  | 0 => inr mismatchText
  | 1 => inr mixedText
  | _ => inl "Error: boom"
  end.

(** A service that answers the first request with the response at which
    the conformance check throws and the second with the text of scenario
    B, and rejects every other. *)
Definition interruptedService (n : nat) (request : CompletionRequest Z)
  : string + string :=
  match n with
  | 0 => inr unprintableText
  | 1 => inr mismatchText
  | _ => inl "Error: boom"
  end.

Definition someConfig : TesterConfig Z :=
  {| numTestsPerTool := 0%Z; modelName := None; temperature := Some 0%Z |}.

(** The process before the first request. *)
Definition process0 : Process Z :=
  {| world := world0; stdout := []; requests := [] |}.

End MoreScenarios.

(** * Properties *)

Local Open Scope string_scope.
Local Open Scope list_scope.

(** ** Strings *)

Lemma length_append (s t : string) :
  String.length (s ++ t)%string = String.length s + String.length t.
Proof.
  induction s as [|c s IH]; simpl; [reflexivity | now rewrite IH].
Qed.

Lemma append_inv_head (s t u : string) : (s ++ t = s ++ u)%string -> t = u.
Proof.
  induction s as [|c s IH]; simpl; intros H; [exact H | injection H; exact IH].
Qed.

Lemma append_inv_tail (s t u : string) : (s ++ u = t ++ u)%string -> s = t.
Proof.
  revert t; induction s as [|c s IH]; intros [|d t] H; simpl in H.
  - reflexivity.
  - apply (f_equal String.length) in H; simpl in H.
    rewrite length_append in H; lia.
  - apply (f_equal String.length) in H; simpl in H.
    rewrite length_append in H; lia.
  - injection H as -> H. f_equal. now apply IH.
Qed.

Lemma missing_message_inj (a b : string) :
  missing_message a = missing_message b -> a = b.
Proof.
  unfold missing_message. intros H.
  apply append_inv_head in H. now apply append_inv_tail in H.
Qed.

Lemma existsb_eqb_in_dec (x : string) (l : list string) :
  existsb (String.eqb x) l = if in_dec string_dec x l then true else false.
Proof.
  destruct (in_dec string_dec x l) as [Hin|Hout].
  - apply existsb_exists. exists x. split; [exact Hin | apply String.eqb_refl].
  - destruct (existsb (String.eqb x) l) eqn:E; [|reflexivity].
    apply existsb_exists in E. destruct E as [y [Hy E]].
    apply String.eqb_eq in E. subst y. contradiction.
Qed.

Lemma assoc_existsb {A : Type} (key : string) (l : list (string * A)) :
  existsb (fun kv => String.eqb (fst kv) key) l
  = match assoc key l with Some _ => true | None => false end.
Proof.
  induction l as [|[k v] l IH]; [reflexivity|].
  cbn [existsb assoc fst]. now destruct (String.eqb k key).
Qed.

Lemma assoc_indexed {A : Type} (key : string) (l : list A) :
  forall start,
    existsb (fun i => String.eqb (nat_toString i) key) (seq start (List.length l))
    = match assoc key (indexed start l) with Some _ => true | None => false end.
Proof.
  induction l as [|x l IH]; intros start; [reflexivity|].
  cbn [List.length seq existsb indexed assoc].
  destruct (String.eqb (nat_toString start) key); [reflexivity | apply IH].
Qed.

Section CheckerFacts.
Context {number : Type} {rt : JSRuntime number}.

(** The operator [in] on an object or an array: the keys of the value and
    the names it inherits. *)
Lemma js_in_structured (testInputs : JSON number) param :
  structured (Some testInputs) = true ->
  js_in param testInputs = inr (negb (absent testInputs param)).
Proof.
  unfold js_in, absent, own_key, inherited_name, inherits.
  destruct testInputs as [| b | n | s | items | props]; try discriminate; intros _;
    cbn [own_entries Array_isArray andb orb]; f_equal.
  - rewrite assoc_indexed, existsb_eqb_in_dec.
    destruct (assoc param (indexed 0 items)); [reflexivity|].
    destruct (String.eqb param "length"), (Array_prototype_has param),
      (in_dec string_dec param Object_prototype_names); reflexivity.
  - rewrite assoc_existsb, existsb_eqb_in_dec.
    destruct (assoc param props); [reflexivity|].
    now destruct (in_dec string_dec param Object_prototype_names).
Qed.

Lemma js_in_primitive (testInputs : JSON number) param :
  structured (Some testInputs) = false ->
  js_in param testInputs = inl (in_TypeError param testInputs).
Proof. destruct testInputs; try discriminate; reflexivity. Qed.

(** The loop over the required names. *)
Lemma required_loop (testInputs : JSON number) names :
  forall st,
    for_of (checkRequired testInputs) names st
    = if structured (Some testInputs)
      then inr {| isValid := isValid st
                    && forallb (fun param => negb (absent testInputs param)) names;
                  input_warnings :=
                    input_warnings st
                      ++ map missing_message (filter (absent testInputs) names) |}
      else match names with
           | [] => inr st
           | param :: _ => inl (in_TypeError param testInputs)
           end.
Proof.
  destruct (structured (Some testInputs)) eqn:Hs.
  - induction names as [|param names IH]; intros st.
    + cbn. rewrite andb_true_r, app_nil_r. now destruct st.
    + cbn [for_of]. unfold checkRequired at 1.
      rewrite (js_in_structured _ _ Hs), negb_involutive, IH.
      cbn [forallb filter]. destruct (absent testInputs param);
        cbn [negb andb map push_invalid isValid input_warnings].
      * now rewrite andb_false_r, <- app_assoc.
      * reflexivity.
  - intros st. destruct names as [|param names]; [reflexivity|].
    cbn [for_of]. unfold checkRequired. now rewrite (js_in_primitive _ _ Hs).
Qed.

(** The type check of one input. *)
Lemma checkType_spec param expectedType (v : JSON number) st :
  checkType param expectedType v st
  = {| isValid := isValid st && type_ok expectedType v;
       input_warnings := input_warnings st ++ type_warnings param expectedType v |}.
Proof.
  destruct st as [ok ws].
  destruct expectedType as [expected|];
    [|unfold checkType; cbn; now rewrite andb_true_r, app_nil_r].
  unfold checkType, type_warnings, type_ok, checked_types, type_is, reported_kind,
    mismatch_message, push_invalid.
  cbn [existsb isValid input_warnings].
  destruct (String.eqb_spec expected "string") as [->|_];
    [destruct v; cbn; now rewrite ?andb_true_r, ?andb_false_r, ?app_nil_r|].
  destruct (String.eqb_spec expected "number") as [->|_];
    [destruct v; cbn; now rewrite ?andb_true_r, ?andb_false_r, ?app_nil_r|].
  destruct (String.eqb_spec expected "boolean") as [->|_];
    [destruct v; cbn; now rewrite ?andb_true_r, ?andb_false_r, ?app_nil_r|].
  destruct (String.eqb_spec expected "object") as [->|_];
    [destruct v; cbn; now rewrite ?andb_true_r, ?andb_false_r, ?app_nil_r|].
  destruct (String.eqb_spec expected "array") as [->|_];
    [destruct v; cbn; now rewrite ?andb_true_r, ?andb_false_r, ?app_nil_r|].
  cbn. now rewrite andb_true_r, app_nil_r.
Qed.

(** The enum check of one input. *)
Lemma checkEnum_spec param sp (v : JSON number) st :
  checkEnum param sp v st
  = match enum_warnings param sp v with
    | inl thrown => inl thrown
    | inr ws => inr {| isValid := isValid st && enum_ok sp v;
                       input_warnings := input_warnings st ++ ws |}
    end.
Proof.
  destruct st as [ok ws].
  unfold checkEnum, enum_warnings, enum_ok, enum_message, push_invalid.
  destruct (prop_enum sp) as [allowed|];
    [|cbn; now rewrite andb_true_r, app_nil_r].
  destruct (Array_includes allowed v); cbn [negb isValid input_warnings];
    [now rewrite andb_true_r, app_nil_r|].
  destruct (ToString v) as [thrown|value]; [reflexivity|].
  destruct (Array_join ", " allowed) as [thrown|values]; [reflexivity|].
  now rewrite andb_false_r.
Qed.

(** One turn of the loop over the input keys. *)
Lemma checkInput_spec props st (entry : string * JSON number) :
  checkInput props st entry
  = match entry_warnings props entry with
    | inl thrown => inl thrown
    | inr ws => inr {| isValid := isValid st && passes props entry;
                       input_warnings := input_warnings st ++ ws |}
    end.
Proof.
  destruct entry as [param v]. unfold checkInput, entry_warnings, passes, schema_get.
  cbn [fst snd].
  destruct (assoc param props) as [sp|].
  - rewrite checkEnum_spec, checkType_spec. cbn [isValid input_warnings].
    destruct (enum_warnings param sp v) as [thrown|ws]; [reflexivity|].
    now rewrite andb_assoc, app_assoc.
  - destruct (existsb (String.eqb param) Object_prototype_names).
    + rewrite checkEnum_spec, checkType_spec. cbn.
      rewrite !andb_true_r, !app_nil_r. now destruct st.
    + unfold push_warning. cbn. now rewrite andb_true_r.
Qed.

(** The loop over the input keys. *)
Lemma input_loop props (entries : list (string * JSON number)) :
  forall st,
    for_of (checkInput props) entries st
    = match entries_warnings props entries with
      | inl thrown => inl thrown
      | inr ws => inr {| isValid := isValid st && forallb (passes props) entries;
                         input_warnings := input_warnings st ++ ws |}
      end.
Proof.
  induction entries as [|entry entries IH]; intros st.
  - cbn. rewrite andb_true_r, app_nil_r. now destruct st.
  - cbn [for_of entries_warnings forallb]. rewrite checkInput_spec.
    destruct (entry_warnings props entry) as [thrown|ws]; [reflexivity|].
    rewrite IH. cbn [isValid input_warnings].
    destruct (entries_warnings props entries) as [thrown|ws']; [reflexivity|].
    now rewrite andb_assoc, app_assoc.
Qed.

(** What the checker returns, when it returns. *)
Lemma validateTestInputs_returns {rule : Type}
    (testCase : TestCase number rule) (tool : ToolDefinition number)
    (schema : InputSchema number) (props : list (string * SchemaProperty number))
    (r : InputValidation) :
  inputSchema tool = Some schema ->
  properties schema = Some props ->
  validateTestInputs testCase tool = inr r ->
  exists perKey,
    entries_warnings props (own_entries (inputs testCase)) = inr perKey
    /\ input_warnings r
       = map missing_message
           (filter (absent (inputs testCase)) (required_names schema))
         ++ perKey
    /\ isValid r
       = forallb (fun param => negb (absent (inputs testCase) param))
           (required_names schema)
         && forallb (passes props) (own_entries (inputs testCase)).
Proof.
  intros Hschema Hprops. unfold validateTestInputs, required_names.
  rewrite Hschema, Hprops, required_loop.
  destruct (structured (Some (inputs testCase))).
  - rewrite input_loop. cbn [isValid input_warnings app andb].
    destruct (entries_warnings props (own_entries (inputs testCase)))
      as [thrown|ws]; [discriminate|].
    intros E. injection E as <-. exists ws. repeat split.
  - destruct (required schema) as [[|param names]|]; try discriminate;
      rewrite input_loop; cbn [isValid input_warnings app andb];
      (destruct (entries_warnings props (own_entries (inputs testCase)))
         as [thrown|ws]; [discriminate|]);
      intros E; injection E as <-; exists ws; repeat split.
Qed.

(** The checker reads the inputs of the test case and nothing else of
    it. *)
Lemma validateTestInputs_inputs {rule rule' : Type} (a : TestCase number rule)
    (b : TestCase number rule') tool :
  inputs a = inputs b -> validateTestInputs a tool = validateTestInputs b tool.
Proof. unfold validateTestInputs. now intros ->. Qed.

End CheckerFacts.

(** ** The schema conformance checker *)

Lemma count_occ_filter_true {A : Type} (dec : forall x y : A, {x = y} + {x <> y})
    (p : A -> bool) (l : list A) (x : A) :
  p x = true -> count_occ dec (filter p l) x = count_occ dec l x.
Proof.
  intros Hp. induction l as [|a l IH]; simpl; [reflexivity|].
  destruct (dec a x) as [->|Hne].
  - rewrite Hp. simpl. destruct (dec x x); [now rewrite IH | contradiction].
  - destruct (p a); simpl; [destruct (dec a x); [contradiction | exact IH] | exact IH].
Qed.

Lemma count_occ_filter_false {A : Type} (dec : forall x y : A, {x = y} + {x <> y})
    (p : A -> bool) (l : list A) (x : A) :
  p x = false -> count_occ dec (filter p l) x = 0.
Proof.
  intros Hp. apply count_occ_not_In. intros Hin. apply filter_In in Hin.
  destruct Hin as [_ Hin]. congruence.
Qed.

Section CheckerTheorems.
Context {number : Type} {rt : JSRuntime number}.

Lemma type_warnings_not_missing param' expectedType (v : JSON number) w param :
  In w (type_warnings param' expectedType v) -> w <> missing_message param.
Proof.
  unfold type_warnings. destruct expectedType as [expected|]; [|contradiction].
  destruct (_ && _); [|contradiction].
  intros [<-|[]]. discriminate.
Qed.

Lemma entry_warnings_not_missing props (entry : string * JSON number) ws w param :
  entry_warnings props entry = inr ws -> In w ws -> w <> missing_message param.
Proof.
  unfold entry_warnings, enum_warnings.
  destruct (schema_get props (fst entry)) as [sp|].
  - destruct (prop_enum sp) as [allowed|].
    + destruct (Array_includes allowed (snd entry)).
      * intros E; injection E as <-. rewrite app_nil_r.
        intros Hin. exact (type_warnings_not_missing _ _ _ _ param Hin).
      * destruct (ToString (snd entry)) as [thrown|value]; [discriminate|].
        destruct (Array_join ", " allowed) as [thrown|values]; [discriminate|].
        intros E; injection E as <-. intros Hin.
        apply in_app_or in Hin. destruct Hin as [Hin|[<-|[]]].
        -- exact (type_warnings_not_missing _ _ _ _ param Hin).
        -- discriminate.
    + intros E; injection E as <-. rewrite app_nil_r.
      intros Hin. exact (type_warnings_not_missing _ _ _ _ param Hin).
  - intros E; injection E as <-. intros [<-|[]]. discriminate.
Qed.

Lemma entries_warnings_not_missing props (entries : list (string * JSON number)) :
  forall ws w param,
    entries_warnings props entries = inr ws -> In w ws -> w <> missing_message param.
Proof.
  induction entries as [|entry entries IH]; intros ws w param.
  - intros E; injection E as <-. contradiction.
  - cbn [entries_warnings].
    destruct (entry_warnings props entry) as [thrown|ws1] eqn:E1; [discriminate|].
    destruct (entries_warnings props entries) as [thrown|ws2]; [discriminate|].
    intros E; injection E as <-. intros Hin.
    apply in_app_or in Hin. destruct Hin as [Hin|Hin].
    + now apply (entry_warnings_not_missing props entry ws1).
    + now apply (IH ws2).
Qed.

(** C5, amended. When the schema declares properties and the checker
    returns, every required name that is absent from the inputs, being
    neither a key of theirs nor a name they inherit, produces exactly one
    warning, [Missing required input parameter: '<name>'.], and no other
    name produces one; these warnings come in the order of [required],
    before every per-key warning. *)
Theorem C5_missing_required_warnings {rule : Type}
    (testCase : TestCase number rule) (tool : ToolDefinition number)
    (schema : InputSchema number) (props : list (string * SchemaProperty number))
    (r : InputValidation) :
  inputSchema tool = Some schema ->
  properties schema = Some props ->
  validateTestInputs testCase tool = inr r ->
  let names := required_names schema in
  exists perKey,
    entries_warnings props (own_entries (inputs testCase)) = inr perKey
    /\ input_warnings r
       = map missing_message (filter (absent (inputs testCase)) names) ++ perKey
    /\ (forall w param, In w perKey -> w <> missing_message param)
    /\ (forall param,
          count_occ string_dec (input_warnings r) (missing_message param)
          = if absent (inputs testCase) param
            then count_occ string_dec names param
            else 0)
    /\ (NoDup names ->
        forall param, In param names -> absent (inputs testCase) param = true ->
          count_occ string_dec (input_warnings r) (missing_message param) = 1).
Proof.
  intros Hschema Hprops Hr names.
  destruct (validateTestInputs_returns testCase tool schema props r Hschema Hprops Hr)
    as [perKey [Hper [Hws _]]].
  exists perKey. fold names in Hws.
  assert (Hfresh : forall w param, In w perKey -> w <> missing_message param).
  { intros w param.
    exact (entries_warnings_not_missing props _ perKey w param Hper). }
  assert (Hcount : forall param,
            count_occ string_dec (input_warnings r) (missing_message param)
            = if absent (inputs testCase) param
              then count_occ string_dec names param
              else 0).
  { intros param. rewrite Hws, count_occ_app.
    rewrite (proj1 (count_occ_not_In string_dec perKey (missing_message param)));
      [|intros Hin; now apply (Hfresh _ param Hin)].
    rewrite Nat.add_0_r.
    rewrite <- (count_occ_map missing_message string_dec string_dec
                  missing_message_inj).
    destruct (absent (inputs testCase) param) eqn:Ha.
    - now apply count_occ_filter_true.
    - now apply count_occ_filter_false. }
  split; [exact Hper|]. split; [exact Hws|]. split; [exact Hfresh|].
  split; [exact Hcount|].
  intros Hnodup param Hin Habsent. rewrite Hcount, Habsent.
  now apply NoDup_count_occ'.
Qed.

(** C9. Without an [inputSchema], or without its [properties], the
    checker returns no warning whatever the inputs are; names listed in
    [required] then produce no missing-parameter warning. *)
Theorem C9_no_schema_no_warnings {rule : Type}
    (testCase : TestCase number rule) (tool : ToolDefinition number) :
  inputSchema tool = None
  \/ (exists schema, inputSchema tool = Some schema /\ properties schema = None) ->
  validateTestInputs testCase tool = inr {| isValid := true; input_warnings := [] |}
  /\ forall r, validateTestInputs testCase tool = inr r ->
       forall param, ~ In (missing_message param) (input_warnings r).
Proof.
  intros H.
  assert (E : validateTestInputs testCase tool
              = inr {| isValid := true; input_warnings := [] |}).
  { unfold validateTestInputs.
    destruct H as [-> | [schema [-> ->]]]; reflexivity. }
  split; [exact E|]. intros r Hr param. rewrite E in Hr. injection Hr as <-.
  simpl. tauto.
Qed.





(** C10. For a parameter declared of type object, the value [null] passes
    the type check without a warning: its [typeof] is object and it is not
    an array; the entry produces no type-mismatch warning. *)
Theorem C10_null_passes_object
    (props : list (string * SchemaProperty number)) (st : InputValidation)
    (param : string) (sp : SchemaProperty number) :
  assoc param props = Some sp ->
  prop_type sp = Some "object" ->
  js_typeof (@JNull number) = "object"
  /\ Array_isArray (@JNull number) = false
  /\ checkType param (Some "object") (@JNull number) st = st
  /\ checkInput props st (param, @JNull number) = checkEnum param sp JNull st
  /\ (forall st',
        checkInput props st (param, @JNull number) = inr st' ->
        exists ws,
          enum_warnings param sp JNull = inr ws
          /\ input_warnings st' = input_warnings st ++ ws)
  /\ (forall ws w expected actual,
        entry_warnings props (param, JNull) = inr ws ->
        In w ws ->
        w <> mismatch_message param expected actual).
Proof.
  intros Hdecl Htype.
  assert (Hget : schema_get props param = Some sp)
    by (unfold schema_get; now rewrite Hdecl).
  split; [reflexivity|]. split; [reflexivity|]. split; [reflexivity|].
  split; [unfold checkInput; now rewrite Hget, Htype|].
  split.
  { intros st'. rewrite checkInput_spec. unfold entry_warnings. cbn [fst snd].
    rewrite Hget, Htype.
    destruct (enum_warnings param sp JNull) as [thrown|ws]; [discriminate|].
    intros E; injection E as <-. now exists ws. }
  intros ws w expected actual. unfold entry_warnings. cbn [fst snd].
  rewrite Hget, Htype. cbn [type_warnings checked_types existsb runtime_kind
    js_typeof String.eqb Ascii.eqb Bool.eqb andb orb negb app].
  unfold enum_warnings.
  destruct (prop_enum sp) as [allowed|]; [|intros E; injection E as <-; contradiction].
  destruct (Array_includes allowed JNull); [intros E; injection E as <-; contradiction|].
  cbn [ToString].
  destruct (Array_join ", " allowed) as [thrown|values]; [discriminate|].
  intros E; injection E as <-. intros [<-|[]].
  unfold mismatch_message, enum_message. intros H.
  apply append_inv_head in H. apply append_inv_head in H. discriminate.
Qed.

End CheckerTheorems.

(** ** The test-case parser *)

Lemma string_of_uint_digits (d : Decimal.uint) :
  all_digits (NilEmpty.string_of_uint d) = true.
Proof. induction d; cbn; [reflexivity | assumption ..]. Qed.

Lemma nat_toString_digits (n : nat) : all_digits (nat_toString n) = true.
Proof. apply string_of_uint_digits. Qed.

(** A name that is not a number is no index of an array. *)
Lemma assoc_indexed_name {A : Type} (key : string) (l : list A) :
  all_digits key = false -> forall start, assoc key (indexed start l) = None.
Proof.
  intros Hkey. induction l as [|x l IH]; intros start; [reflexivity|].
  cbn [indexed assoc].
  destruct (String.eqb_spec (nat_toString start) key) as [E|_]; [|apply IH].
  rewrite <- E, nat_toString_digits in Hkey. discriminate Hkey.
Qed.

Section ParserFacts.
Context {number : Type} {rt : JSRuntime number}.

Lemma guard_object (x : option (JSON number)) :
  negb (truthy_opt x) || negb (String.eqb (js_typeof_opt x) "object")
  = negb (structured x).
Proof.
  destruct x as [[| b | n | s | items | props]|]; simpl;
    rewrite ?orb_true_r, ?orb_false_r; reflexivity.
Qed.

Lemma guard_element (test : JSON number) :
  negb (truthy test) || negb (String.eqb (js_typeof test) "object")
  = negb (structured (Some test)).
Proof. exact (guard_object (Some test)). Qed.

Lemma guard_description (x : option (JSON number)) :
  negb (truthy_opt x) || negb (String.eqb (js_typeof_opt x) "string")
  = negb (a_string x) || is_string x EmptyString.
Proof.
  destruct x as [[| b | n | s | items | props]|]; simpl;
    rewrite ?orb_true_r, ?orb_false_r; try reflexivity.
  now rewrite negb_involutive.
Qed.

Lemma guard_status (test : JSON number) :
  let x := js_get_opt (js_get test "expectedOutcome") "status" in
  negb (truthy_opt x) || (negb (is_string x "success") && negb (is_string x "error"))
  = negb (a_status test).
Proof.
  unfold a_status. cbv zeta.
  destruct (js_get_opt (js_get test "expectedOutcome") "status")
    as [[| b | n | s | items | props]|]; simpl;
    rewrite ?orb_true_r, ?orb_false_r; try reflexivity.
  destruct (String.eqb_spec s "success") as [->|_]; [reflexivity|].
  destruct (String.eqb_spec s "error") as [->|_]; [reflexivity|].
  simpl. now rewrite orb_true_r.
Qed.

(** The conditions of rejection are the guards of the callback: an
    element that is an array has no description, and an expected outcome
    that is an array has no status. *)
Lemma rejected_guards (test : JSON number) :
  rejected test
  = negb (structured (Some test))
    || (negb (a_string (js_get test "description"))
        || is_string (js_get test "description") EmptyString)
    || negb (structured (js_get test "inputs"))
    || negb (structured (js_get test "expectedOutcome"))
    || negb (a_status test).
Proof.
  unfold rejected.
  destruct test as [| b | n | s | items | props]; try reflexivity.
  - assert (Hd : js_get (JArr items) "description" = None)
      by apply (assoc_indexed_name "description" items eq_refl).
    rewrite Hd. reflexivity.
  - cbn [an_object structured negb orb].
    destruct (a_string (js_get (JObj props) "description")); cbn [negb orb];
      [|reflexivity].
    destruct (is_string (js_get (JObj props) "description") EmptyString);
      cbn [negb orb]; [reflexivity|].
    destruct (structured (js_get (JObj props) "inputs")); cbn [negb orb];
      [|reflexivity].
    unfold a_status.
    destruct (js_get (JObj props) "expectedOutcome")
      as [[| b | n | s | items | eo]|]; try reflexivity.
    cbn [js_get_opt].
    assert (Hs : js_get (JArr items) "status" = None)
      by apply (assoc_indexed_name "status" items eq_refl).
    rewrite Hs. reflexivity.
Qed.

(** What the callback of [forEach] does at one element. *)
Lemma parseTest_outcome tool acc (test : JSON number) index w :
  if rejected test
  then parseTest tool acc test index w
       = (inr acc, {| uuid_calls := uuid_calls w;
                      console := console w
                                   ++ [rejection_notice (name tool) test index] |})
  else
    match thrown_at tool test with
    | Some thrown =>
        parseTest tool acc test index w
        = (inl thrown, {| uuid_calls := S (uuid_calls w); console := console w |})
    | None =>
        exists t,
          parseTest tool acc test index w
          = (inr (acc ++ [t]),
             {| uuid_calls := S (uuid_calls w); console := console w |})
          /\ case_fields t = case_of test
          /\ id t = uuid_source (uuid_calls w)
          /\ toolName t = name tool
          /\ naturalLanguageQuery t = EmptyString
          /\ warnings t = attached_warnings tool t
    end.
Proof.
  unfold thrown_at. rewrite rejected_guards.
  unfold parseTest, case_of, rejection_notice. cbv zeta.
  rewrite guard_element, guard_description, !guard_object, guard_status.
  unfold bind_exc, lift, console_warn, log, ret_exc.
  destruct (structured (Some test)); cbn [negb orb];
    [|reflexivity].
  destruct (a_string (js_get test "description")); cbn [negb orb];
    [|reflexivity].
  destruct (is_string (js_get test "description") EmptyString) eqn:Hempty;
    cbn [negb orb]; [reflexivity|].
  destruct (structured (js_get test "inputs")); cbn [negb orb];
    [|reflexivity].
  destruct (structured (js_get test "expectedOutcome")); cbn [negb orb];
    [|reflexivity].
  destruct (a_status test) eqn:Hstatus; cbn [negb]; [|reflexivity].
  unfold a_status in Hstatus.
  destruct (is_string (js_get_opt (js_get test "expectedOutcome") "status") "success")
    eqn:Hsuccess.
  - unfold uuidv4, evaluate. cbn [status expectedOutcome].
    match goal with
    | |- context [validateTestInputs ?t tool] =>
        rewrite (validateTestInputs_inputs
                   (probe match js_get test "inputs" with
                          | Some v => v
                          | None => JNull
                          end success) t tool eq_refl);
        destruct (validateTestInputs t tool) as [thrown|[ok [|w0 ws]]] eqn:Hcheck
    end.
    + reflexivity.
    + eexists. split; [reflexivity|].
      unfold case_fields, attached_warnings. cbn [description inputs expectedOutcome
        status validationRules id toolName naturalLanguageQuery warnings].
      rewrite ?Hsuccess, Hcheck. repeat split.
    + eexists. split; [reflexivity|].
      unfold case_fields, attached_warnings. cbn [description inputs expectedOutcome
        status validationRules id toolName naturalLanguageQuery warnings].
      rewrite ?Hsuccess.
      erewrite validateTestInputs_inputs; [rewrite Hcheck|reflexivity]. repeat split.
  - unfold uuidv4. cbn [status expectedOutcome].
    eexists. split; [reflexivity|].
    unfold case_fields, attached_warnings. cbn [description inputs expectedOutcome
      status validationRules id toolName naturalLanguageQuery warnings].
    rewrite ?Hsuccess. repeat split.
Qed.

Lemma throws_rejected tool (test : JSON number) :
  rejected test = true -> throws tool test = false.
Proof. unfold throws, thrown_at. now intros ->. Qed.

(** The loop over the elements, with what it writes and draws.  Unless
    the conformance check throws at an element, the loop adds the test
    cases of the elements that are not rejected, in their order, writes the
    warning of each rejected element and draws one identifier for each
    test case.  When the check throws, the loop ends there, after the
    warnings of the rejected elements before and one identifier for each
    other element up to the one at which it throws. *)
Lemma forEach_parseTest_trace tool (elements : list (JSON number)) :
  forall index acc w,
    if existsb (throws tool) elements
    then exists thrown before test after,
        forEach (parseTest tool) elements index acc w
        = (inl thrown,
           {| uuid_calls :=
                uuid_calls w
                  + S (List.length (filter (fun e => negb (rejected e)) before));
              console := console w ++ rejection_notices (name tool) before index |})
        /\ elements = before ++ test :: after
        /\ existsb (throws tool) before = false
        /\ thrown_at tool test = Some thrown
    else exists added,
        forEach (parseTest tool) elements index acc w
        = (inr (acc ++ added),
           {| uuid_calls := uuid_calls w + List.length added;
              console := console w ++ rejection_notices (name tool) elements index |})
        /\ map case_fields added
           = map case_of (filter (fun test => negb (rejected test)) elements)
        /\ map id added = map uuid_source (seq (uuid_calls w) (List.length added))
        /\ Forall (fun t => toolName t = name tool
                            /\ naturalLanguageQuery t = EmptyString
                            /\ warnings t = attached_warnings tool t) added.
Proof.
  induction elements as [|test elements IH]; intros index acc w.
  - exists []. cbn [forEach rejection_notices]. unfold ret_exc.
    rewrite !app_nil_r, Nat.add_0_r.
    destruct w. repeat split; constructor.
  - pose proof (parseTest_outcome tool acc test index w) as Hone.
    cbn [forEach existsb rejection_notices]. unfold bind_exc.
    destruct (rejected test) eqn:Hrej.
    + rewrite Hone, (throws_rejected _ _ Hrej).
      cbn beta iota. cbn [orb].
      specialize (IH (S index) acc
                    {| uuid_calls := uuid_calls w;
                       console := console w
                                    ++ [rejection_notice (name tool) test index] |}).
      destruct (existsb (throws tool) elements).
      * destruct IH as [thrown [before [culprit [after [E [Hel [Hb Ht]]]]]]].
        exists thrown, (test :: before), culprit, after.
        cbn [uuid_calls console] in E. rewrite E, <- app_assoc.
        cbn [app filter existsb List.length rejection_notices].
        rewrite Hrej, (throws_rejected _ _ Hrej).
        cbn [negb orb List.length app].
        repeat split; try assumption. now rewrite Hel.
      * destruct IH as [added [E [Hf [Hi Ht]]]].
        exists added.
        cbn [uuid_calls console] in E, Hi. rewrite E, <- app_assoc.
        cbn [app filter List.length]. rewrite Hrej. cbn [negb List.length].
        repeat split; assumption.
    + unfold throws at 1. destruct (thrown_at tool test) as [thrown|] eqn:Hthrown.
      * rewrite Hone. cbn beta iota. cbn [orb].
        exists thrown, [], test, elements.
        cbn [filter List.length app existsb rejection_notices].
        rewrite Nat.add_1_r, app_nil_r.
        repeat split; try assumption; constructor.
      * destruct Hone as [t [-> [Hc [Hid [Htn [Hq Hat]]]]]]. cbn beta iota. cbn [orb].
        specialize (IH (S index) (acc ++ [t])
                      {| uuid_calls := S (uuid_calls w); console := console w |}).
        destruct (existsb (throws tool) elements).
        -- destruct IH as [thrown [before [culprit [after [E [Hel [Hb Ht]]]]]]].
           exists thrown, (test :: before), culprit, after.
           cbn [uuid_calls console] in E. rewrite E.
           cbn [app filter existsb List.length rejection_notices]. rewrite Hrej.
           unfold throws at 1. rewrite Hthrown.
           cbn [negb orb List.length app].
           split; [f_equal; f_equal; lia|].
           repeat split; try assumption. now rewrite Hel.
        -- destruct IH as [added [E [Hf [Hi Ht]]]].
           exists (t :: added).
           cbn [uuid_calls console] in E, Hi. rewrite E, <- app_assoc.
           cbn [app filter map List.length seq]. rewrite Hrej.
           cbn [negb map].
           split; [f_equal; f_equal; lia|].
           split; [now rewrite Hc, Hf|]. split; [now rewrite Hid, Hi|].
           constructor; [repeat split; assumption | exact Ht].
Qed.

(** [parseResponse] on a text whose payload parses: the loop runs on the
    elements of the parsed value, after the notices about the fence and the
    shape; an exception that leaves the loop is caught, reported in two
    lines, and the result is empty. *)
Lemma parseResponse_parsed responseText (tool : ToolDefinition number) w parsedJson :
  JSON_parse (extracted_payload responseText) = inr parsedJson ->
  parseResponse responseText tool w
  = match forEach (parseTest tool) (elements_of parsedJson) 0 []
            {| uuid_calls := uuid_calls w;
               console := console w
                            ++ fence_notice tool responseText
                            ++ shape_notices tool responseText parsedJson |} with
    | (inr testCases, w') => (testCases, w')
    | (inl thrown, w') =>
        ([], {| uuid_calls := uuid_calls w';
                console := console w'
                             ++ catch_lines (name tool) responseText thrown |})
    end.
Proof.
  unfold parseResponse, extracted_payload, fence_notice, try_catch, catch_lines.
  intros Hparse.
  assert (Hw : forall w0 : World,
             {| uuid_calls := uuid_calls w0; console := console w0 |} = w0)
    by (now intros []).
  destruct (fenced_payload responseText) as [[|c s]|];
    unfold bind_exc, bind, ret_exc, ret, lift, console_warn, console_error, log;
    cbn beta iota; rewrite Hparse;
    destruct parsedJson as [| b | n | s' | items | props];
    cbn [elements_of shape_notices];
    try destruct (looks_like_test _);
    unfold not_array_notice, recovery_notice;
    cbn [uuid_calls console];
    rewrite <- ?app_assoc; cbn [app]; rewrite ?app_nil_r, ?Hw;
    try reflexivity;
    match goal with
    | |- context [forEach ?f ?l ?i ?a ?w0] =>
        destruct (forEach f l i a w0) as [[thrown|testCases] w']
    end;
    cbn [uuid_calls console]; rewrite <- ?app_assoc; cbn [app]; reflexivity.
Qed.

(** [parseResponse] on a text whose payload does not parse. *)
Lemma parseResponse_failed responseText (tool : ToolDefinition number) w message :
  JSON_parse (extracted_payload responseText) = inl message ->
  parseResponse responseText tool w
  = ([], {| uuid_calls := uuid_calls w;
            console := console w
              ++ fence_notice tool responseText
              ++ [{| level := LogError;
                     text := ("[" ++ name tool
                       ++ "] Failed to parse JSON from LLM response. Error: "
                       ++ message)%string |};
                  {| level := LogError;
                     text := ("[" ++ name tool ++ "] Raw response text was: "
                       ++ responseText)%string |}] |}).
Proof.
  unfold parseResponse, extracted_payload, fence_notice, try_catch. intros Hparse.
  destruct (fenced_payload responseText) as [[|c s]|];
    unfold bind_exc, ret_exc, lift, console_warn, console_error, log; cbn beta iota;
    rewrite Hparse; cbn [uuid_calls console];
    rewrite <- ?app_assoc; reflexivity.
Qed.

(** An element that is not rejected looks like a test case. *)
Lemma accepted_looks_like_test (test : JSON number) :
  rejected test = false -> looks_like_test test = true.
Proof.
  unfold rejected, looks_like_test. intros H.
  repeat (apply orb_false_iff in H; destruct H as [H ?]).
  repeat match goal with
         | E : negb _ = false |- _ => apply negb_false_iff in E
         end.
  destruct test; try discriminate; cbn [truthy js_typeof String.eqb andb];
  repeat match goal with
         | |- context [js_get ?t ?k] => destruct (js_get t k) as [[]|]; try discriminate
         end;
    cbn [truthy_opt truthy andb is_string] in *;
    repeat match goal with
           | E : String.eqb ?s EmptyString = false |- _ => rewrite E
           end; reflexivity.
Qed.

(** What an element that is not rejected hands over: a description that
    is not empty and structured inputs. *)
Lemma accepted_case (test : JSON number) :
  rejected test = false ->
  fst (fst (fst (case_of test))) <> EmptyString
  /\ structured (Some (snd (fst (fst (case_of test))))) = true.
Proof.
  unfold rejected, case_of. intros H.
  repeat (apply orb_false_iff in H; destruct H as [H ?]).
  repeat match goal with
         | E : negb _ = false |- _ => apply negb_false_iff in E
         end.
  cbn [fst snd]. split.
  - destruct (js_get test "description") as [[]|]; try discriminate.
    cbn [string_of is_string] in *.
    now apply String.eqb_neq.
  - destruct (js_get test "inputs") as [[]|]; try discriminate; reflexivity.
Qed.

Lemma accepted_cases (elements : list (JSON number))
    (added : list (TestCase number (JSON number))) :
  map case_fields added
  = map case_of (filter (fun test => negb (rejected test)) elements) ->
  Forall (fun t => description t <> EmptyString
                   /\ structured (Some (inputs t)) = true) added.
Proof.
  revert added. induction elements as [|test elements IH]; intros added Hf.
  - destruct added; [constructor | discriminate Hf].
  - cbn [filter] in Hf. destruct (rejected test) eqn:Hr; cbn [negb] in Hf.
    + now apply IH.
    + destruct added as [|t added]; [discriminate Hf|].
      cbn [map] in Hf.
      assert (Hc : case_fields t = case_of test) by congruence.
      assert (Hf' : map case_fields added
                    = map case_of
                        (filter (fun test => negb (rejected test)) elements))
        by congruence.
      constructor; [|now apply IH].
      destruct (accepted_case test Hr) as [Hd Hs].
      rewrite <- Hc in Hd, Hs. cbn [case_fields fst snd] in Hd, Hs.
      split; assumption.
Qed.

(** Every run of [parseResponse]: the test cases it returns, the
    identifiers it draws and the lines it writes. *)
Lemma parseResponse_run responseText (tool : ToolDefinition number) w :
  exists added lines discarded,
    parseResponse responseText tool w
    = (added, {| uuid_calls := uuid_calls w + List.length added + discarded;
                 console := console w ++ lines |})
    /\ map id added = map uuid_source (seq (uuid_calls w) (List.length added))
    /\ Forall (fun t => toolName t = name tool
                        /\ naturalLanguageQuery t = EmptyString
                        /\ description t <> EmptyString
                        /\ structured (Some (inputs t)) = true) added
    /\ Forall (fun t => warnings t = attached_warnings tool t) added.
Proof.
  destruct (JSON_parse (extracted_payload responseText)) as [message|parsedJson] eqn:Hparse.
  - rewrite (parseResponse_failed _ _ _ _ Hparse).
    eexists [], _, 0. rewrite !Nat.add_0_r. repeat split; constructor.
  - rewrite (parseResponse_parsed _ _ _ _ Hparse).
    pose proof (forEach_parseTest_trace tool (elements_of parsedJson) 0 []
                  {| uuid_calls := uuid_calls w;
                     console := console w ++ fence_notice tool responseText
                                  ++ shape_notices tool responseText parsedJson |})
      as Hloop.
    destruct (existsb (throws tool) (elements_of parsedJson)).
    + destruct Hloop as [thrown [before [culprit [after [-> _]]]]].
      cbn [uuid_calls console]. rewrite <- !app_assoc.
      exists [], (fence_notice tool responseText
                    ++ shape_notices tool responseText parsedJson
                    ++ rejection_notices (name tool) before 0
                    ++ catch_lines (name tool) responseText thrown),
        (S (List.length (filter (fun e => negb (rejected e)) before))).
      cbn [List.length]. rewrite Nat.add_0_r.
      repeat split; constructor.
    + destruct Hloop as [added [-> [Hf [Hi Ht]]]].
      cbn [uuid_calls console app] in *. rewrite <- !app_assoc.
      eexists added, _, 0. rewrite Nat.add_0_r.
      split; [reflexivity|]. split; [exact Hi|].
      pose proof (accepted_cases _ _ Hf) as Hwf.
      split.
      * rewrite Forall_forall in *. intros t Hin.
        destruct (Ht t Hin) as [Htn [Hq _]]. destruct (Hwf t Hin) as [Hd Hs].
        repeat split; assumption.
      * eapply Forall_impl; [|exact Ht]. intros t [_ [_ H]]. exact H.
Qed.

End ParserFacts.

Section ParserTheorems.
Context {number : Type} {rt : JSRuntime number}.

(** C3. When the extracted payload is not valid JSON, [parseResponse]
    returns the empty sequence, no partial result, and writes an error to
    the console that holds the name of the tool and the raw text. *)
Theorem C3_invalid_json_returns_empty responseText (tool : ToolDefinition number)
    w message :
  JSON_parse (extracted_payload responseText) = inl message ->
  let out := parseResponse responseText tool w in
  fst out = []
  /\ uuid_calls (snd out) = uuid_calls w
  /\ (exists earlier,
        console (snd out)
        = console w ++ earlier
            ++ [{| level := LogError;
                   text := ("[" ++ name tool
                     ++ "] Failed to parse JSON from LLM response. Error: "
                     ++ message)%string |};
                {| level := LogError;
                   text := ("[" ++ name tool ++ "] Raw response text was: "
                     ++ responseText)%string |}])
  /\ (exists d, In d (console (snd out))
                /\ level d = LogError
                /\ text d = ("[" ++ name tool ++ "] Raw response text was: "
                               ++ responseText)%string).
Proof.
  intros Hparse out. subst out.
  rewrite (parseResponse_failed _ _ _ _ Hparse). cbn [fst snd uuid_calls console].
  split; [reflexivity|]. split; [reflexivity|].
  split; [now exists (fence_notice tool responseText)|].
  exists {| level := LogError;
            text := ("[" ++ name tool ++ "] Raw response text was: "
                       ++ responseText)%string |}.
  split; [|split; reflexivity].
  apply in_or_app. right. apply in_or_app. right. right. now left.
Qed.

(** C4, amended. An element is rejected exactly when it is not a
    structured object, or its description is missing, not a string or the
    empty string, or its inputs are missing or neither a structured object
    nor an array, or its expectedOutcome is missing or not a structured
    object, or its status is missing or neither success nor error.  Every
    other element becomes a test case, and the elements after a rejected
    one are still processed, unless the conformance check throws at an
    element: then [parseResponse] returns no test case at all. *)
Theorem C4_rejected_elements (tool : ToolDefinition number) :
  (forall acc test index w,
      (fst (parseTest tool acc test index w) = inr acc <-> rejected test = true)
      /\ (rejected test = false ->
          throws tool test = false ->
          exists t, fst (parseTest tool acc test index w) = inr (acc ++ [t])
                    /\ case_fields t = case_of test)
      /\ (forall thrown,
            thrown_at tool test = Some thrown ->
            fst (parseTest tool acc test index w) = inl thrown))
  /\ (forall responseText w elements,
        JSON_parse (extracted_payload responseText) = inr (JArr elements) ->
        map case_fields (fst (parseResponse responseText tool w))
        = if existsb (throws tool) elements then []
          else map case_of (filter (fun test => negb (rejected test)) elements)).
Proof.
  split.
  - intros acc test index w.
    pose proof (parseTest_outcome tool acc test index w) as Hone.
    unfold throws.
    destruct (rejected test) eqn:Hrej.
    + rewrite Hone. cbn [fst].
      split; [tauto|]. split; [discriminate|].
      intros thrown Ht. unfold thrown_at in Ht. rewrite Hrej in Ht. discriminate Ht.
    + destruct (thrown_at tool test) as [thrown|].
      * rewrite Hone. cbn [fst].
        split; [split; discriminate|]. split; [discriminate|].
        now intros thrown' [= <-].
      * destruct Hone as [t [-> [Hc _]]]. cbn [fst]. split.
        -- split; [|discriminate]. intros E. injection E as E.
           apply (f_equal (@List.length _)) in E. rewrite length_app in E.
           cbn [List.length] in E. lia.
        -- split; [intros _ _; now exists t | discriminate].
  - intros responseText w elements Hparse.
    rewrite (parseResponse_parsed _ _ _ _ Hparse). cbn [elements_of].
    match goal with
    | |- context [forEach _ _ _ _ ?w0] =>
        pose proof (forEach_parseTest_trace tool elements 0 [] w0) as Hloop
    end.
    destruct (existsb (throws tool) elements).
    + destruct Hloop as [thrown [before [culprit [after [-> _]]]]].
      reflexivity.
    + destruct Hloop as [added [-> [Hf _]]]. exact Hf.
Qed.

(** C7. A test case the parser returns carries warnings only when its
    status is success and the conformance checker has returned warnings,
    and then these; no test case of status error and no test case of
    status success without warnings carries the field. *)
Theorem C7_warnings_only_for_success responseText (tool : ToolDefinition number)
    w t :
  In t (fst (parseResponse responseText tool w)) ->
  (forall ws, warnings t = Some ws ->
              status (expectedOutcome t) = success
              /\ (exists r, validateTestInputs t tool = inr r
                            /\ ws = input_warnings r)
              /\ ws <> [])
  /\ (status (expectedOutcome t) = error -> warnings t = None)
  /\ (forall r, validateTestInputs t tool = inr r ->
                input_warnings r = [] -> warnings t = None)
  /\ (status (expectedOutcome t) = success ->
      exists r, validateTestInputs t tool = inr r
                /\ (input_warnings r <> [] -> warnings t = Some (input_warnings r))).
Proof.
  intros Hin.
  destruct (parseResponse_run responseText tool w)
    as [added [lines [discarded [E [_ [Hwf Hat]]]]]].
  rewrite E in Hin. cbn [fst] in Hin.
  rewrite Forall_forall in Hat. specialize (Hat t Hin).
  assert (Hrun : status (expectedOutcome t) = success ->
                 exists r, validateTestInputs t tool = inr r).
  { (* a test case of status success is returned only after its check *)
    clear Hat Hwf. intros Hs.
    destruct (JSON_parse (extracted_payload responseText))
      as [message|parsedJson] eqn:Hparse.
    - rewrite (parseResponse_failed _ _ _ _ Hparse) in E. injection E as <- _.
      contradiction.
    - rewrite (parseResponse_parsed _ _ _ _ Hparse) in E.
      match type of E with
      | context [forEach _ _ _ _ ?w0] =>
          pose proof (forEach_parseTest_trace tool (elements_of parsedJson) 0 [] w0)
            as Hloop
      end.
      destruct (existsb (throws tool) (elements_of parsedJson)) eqn:Hth.
      + destruct Hloop as [thrown [before [culprit [after [E' _]]]]].
        rewrite E' in E. injection E as <- _. contradiction.
      + destruct Hloop as [added' [E' [Hf _]]].
        rewrite E' in E. cbn [app] in E. injection E as <- _.
        assert (Hc : In (case_fields t)
                       (map case_of (filter (fun test => negb (rejected test))
                                       (elements_of parsedJson)))).
        { rewrite <- Hf. now apply in_map. }
        apply in_map_iff in Hc. destruct Hc as [test [Hc Htest]].
        apply filter_In in Htest. destruct Htest as [Htest Hrej].
        apply negb_true_iff in Hrej.
        assert (Hnt : throws tool test = false).
        { destruct (throws tool test) eqn:Ht; [|reflexivity].
          rewrite <- Hth. symmetry. apply existsb_exists. now exists test. }
        unfold throws, thrown_at in Hnt. rewrite Hrej in Hnt.
        unfold case_fields in Hc.
        destruct (case_of test) as [[[d given] expected] rules].
        injection Hc as _ Hgiven Hexpected _. rewrite Hs in Hexpected.
        subst expected.
        rewrite (validateTestInputs_inputs t (probe given success) tool
                   (eq_sym Hgiven)).
        destruct (validateTestInputs (probe given success) tool) as [thrown|r];
          [discriminate Hnt | now exists r]. }
  rewrite Hat. unfold attached_warnings.
  destruct (status (expectedOutcome t)).
  - destruct (Hrun eq_refl) as [r Hr]. rewrite Hr.
    destruct r as [ok [|w1 ws1]]; cbn [input_warnings].
    + split; [discriminate|]. split; [discriminate|].
      split; [reflexivity|]. intros _. eexists. split; [reflexivity|].
      cbn. congruence.
    + split.
      { intros ws [= <-]. split; [reflexivity|].
        split; [eexists; split; reflexivity | discriminate]. }
      split; [discriminate|].
      split; [intros r [= <-]; discriminate|].
      intros _. eexists. split; [reflexivity|]. reflexivity.
  - split; [discriminate|]. split; [reflexivity|].
    split; [reflexivity | discriminate].
Qed.

End ParserTheorems.

(** ** The tokenizer of paths *)

Lemma split_on_nonempty (sep : ascii) (s : string) : split_on sep s <> [].
Proof.
  destruct s as [|c s]; cbn [split_on]; [discriminate|].
  destruct (Ascii.eqb c sep); [discriminate|].
  destruct (split_on sep s); discriminate.
Qed.

(** Splitting a text at a separator splits each side of it. *)
Lemma split_on_append (sep : ascii) (p q : string) :
  split_on sep (p ++ String sep q)%string = split_on sep p ++ split_on sep q.
Proof.
  induction p as [|c p IH]; cbn [append split_on].
  - now rewrite Ascii.eqb_refl.
  - destruct (Ascii.eqb c sep); [now rewrite IH|].
    rewrite IH. pose proof (split_on_nonempty sep p) as Hne.
    destruct (split_on sep p) as [|h t]; [contradiction | reflexivity].
Qed.

Lemma split_on_lacks (sep : ascii) (s : string) :
  lacks sep s = true -> split_on sep s = [s].
Proof.
  induction s as [|c s IH]; [reflexivity|].
  cbn [lacks split_on]. intros H. apply andb_true_iff in H. destruct H as [Hc Hs].
  apply negb_true_iff in Hc. rewrite Hc, (IH Hs). reflexivity.
Qed.

Lemma lacks_append (c : ascii) (s t : string) :
  lacks c (s ++ t)%string = lacks c s && lacks c t.
Proof.
  induction s as [|d s IH]; [reflexivity|].
  cbn [append lacks]. now rewrite IH, andb_assoc.
Qed.

(** A text of digits has no character that is not a digit. *)
Lemma all_digits_lacks (c : ascii) (s : string) :
  is_digit c = false -> all_digits s = true -> lacks c s = true.
Proof.
  intros Hc. induction s as [|d s IH]; [reflexivity|].
  cbn [all_digits lacks]. intros H. apply andb_true_iff in H. destruct H as [Hd Hs].
  rewrite (IH Hs), andb_true_r. apply negb_true_iff.
  destruct (Ascii.eqb_spec d c) as [->|_]; [congruence | reflexivity].
Qed.

Lemma digits_value_uint (d : Decimal.uint) :
  forall acc,
    digits_value (NilEmpty.string_of_uint d) acc = Some (Nat.of_uint_acc d acc).
Proof.
  induction d; intros acc; cbn [NilEmpty.string_of_uint digits_value Nat.of_uint_acc];
    [reflexivity | ..];
    match goal with
    | |- context [is_digit ?c] => change (is_digit c) with true
    end; cbn beta iota; rewrite IHd; f_equal; f_equal;
    rewrite Nat.tail_mul_spec;
    match goal with
    | |- context [nat_of_ascii ?c] =>
        let n := eval vm_compute in (nat_of_ascii c) in
        change (nat_of_ascii c) with n
    end; lia.
Qed.

(** The decimal notation of a number denotes the number. *)
Lemma digits_value_nat_toString (n : nat) :
  digits_value (nat_toString n) 0 = Some n.
Proof.
  unfold nat_toString. rewrite digits_value_uint.
  f_equal. apply DecimalNat.Unsigned.of_to.
Qed.

Lemma nat_toString_nonempty (n : nat) : nat_toString n <> EmptyString.
Proof.
  intros H. pose proof (digits_value_nat_toString n) as Hv.
  rewrite H in Hv. cbn [digits_value] in Hv. injection Hv as <-.
  discriminate H.
Qed.

Lemma bracket_index_text (i : nat) :
  bracket_index (nat_toString i ++ "]")%string = Some i.
Proof.
  unfold bracket_index.
  change (nat_toString i ++ "]")%string
    with (nat_toString i ++ String "]" EmptyString)%string.
  rewrite split_on_append, split_on_lacks;
    [|apply all_digits_lacks; [reflexivity | apply nat_toString_digits]].
  cbn [app split_on].
  pose proof (nat_toString_nonempty i) as Hne.
  pose proof (digits_value_nat_toString i) as Hv.
  destruct (nat_toString i) as [|c ds]; [contradiction | exact Hv].
Qed.

(** The tokenizer reads a segment as its steps. *)
Lemma tokenize_segment_text (g : Segment) :
  plain_segment g = true -> tokenize_segment (segment_text g) = segment_steps g.
Proof.
  unfold plain_segment, tokenize_segment, segment_text, segment_steps.
  intros H. apply andb_true_iff in H. destruct H as [H Hne].
  apply andb_true_iff in H. destruct H as [_ Hbracket].
  destruct (segment_index g) as [i|].
  - change (segment_key g ++ "[" ++ nat_toString i ++ "]")%string
      with (segment_key g ++ String "[" (nat_toString i ++ "]"))%string.
    rewrite split_on_append, (split_on_lacks _ _ Hbracket), split_on_lacks.
    + cbn [app]. rewrite bracket_index_text.
      destruct (segment_key g); [discriminate Hne | reflexivity].
    + rewrite lacks_append, (all_digits_lacks "[" _ eq_refl (nat_toString_digits i)).
      reflexivity.
  - now rewrite (split_on_lacks _ _ Hbracket).
Qed.

Lemma segment_text_lacks_dot (g : Segment) :
  plain_segment g = true -> lacks "." (segment_text g) = true.
Proof.
  unfold plain_segment, segment_text.
  intros H. apply andb_true_iff in H. destruct H as [H _].
  apply andb_true_iff in H. destruct H as [Hdot _].
  destruct (segment_index g) as [i|]; [|exact Hdot].
  rewrite !lacks_append, Hdot,
    (all_digits_lacks "." _ eq_refl (nat_toString_digits i)).
  reflexivity.
Qed.

(** The tokenizer reads the text of a path as the steps of its segments,
    in their order. *)
Lemma tokenize_path_text (segments : list Segment) :
  segments <> [] ->
  forallb plain_segment segments = true ->
  tokenize (path_text segments) = flat_map segment_steps segments.
Proof.
  unfold tokenize.
  induction segments as [|g segments IH]; [contradiction|].
  intros _ H. cbn [forallb] in H. apply andb_true_iff in H. destruct H as [Hg Hs].
  destruct segments as [|g' segments].
  - cbn [path_text flat_map]. rewrite (split_on_lacks _ _ (segment_text_lacks_dot g Hg)).
    cbn [flat_map]. now rewrite (tokenize_segment_text g Hg).
  - change (path_text (g :: g' :: segments))
      with (segment_text g ++ String "." (path_text (g' :: segments)))%string.
    rewrite split_on_append, (split_on_lacks _ _ (segment_text_lacks_dot g Hg)).
    rewrite flat_map_app. cbn [flat_map].
    rewrite (tokenize_segment_text g Hg), app_nil_r.
    f_equal. apply IH; [discriminate | exact Hs].
Qed.

(** ** The response validator *)

Section ValidatorTheorems.
Context {number : Type} {rt : JSRuntime number}.

(** The loop over the rules evaluates each of them, in order, and keeps
    the messages of those that fail. *)
Lemma rule_loop (fragment : JSON number) (rules : list (ValidationRule number)) :
  forall st,
    valid (result st) = match errors (result st) with [] => true | _ => false end ->
    let out := fold_left (runRule fragment) rules st in
    evaluated out = evaluated st ++ rules
    /\ errors (result out)
       = errors (result st)
           ++ map rule_message
                (filter (fun rule => negb (evaluateRule rule fragment)) rules)
    /\ valid (result out)
       = match errors (result out) with [] => true | _ => false end.
Proof.
  induction rules as [|rule rules IH]; intros st Hst; cbv zeta;
    cbn [fold_left filter map].
  - now rewrite !app_nil_r.
  - destruct (IH (runRule fragment st rule)) as [He [Hr Hv]]; [reflexivity|].
    cbv zeta in He, Hr, Hv.
    split; [|split; [|exact Hv]].
    + rewrite He. unfold runRule. cbn [evaluated]. now rewrite <- app_assoc.
    + rewrite Hr. unfold runRule. cbn [result errors].
      destruct (evaluateRule rule fragment); cbn [negb map];
        [reflexivity | now rewrite <- app_assoc].
Qed.

Lemma valid_iff_all_pass (fragment : JSON number) (rules : list (ValidationRule number)) :
  match map rule_message
          (filter (fun rule => negb (evaluateRule rule fragment)) rules) with
  | [] => true
  | _ => false
  end = forallb (fun rule => evaluateRule rule fragment) rules.
Proof.
  induction rules as [|rule rules IH]; [reflexivity|].
  cbn [filter forallb]. destruct (evaluateRule rule fragment); [exact IH | reflexivity].
Qed.

(** C1. Expected success, actual error: the result is invalid, its errors are
    the one string [Tool execution failed: <error.message>], and no rule
    of the test case is evaluated. *)
Theorem C1_success_expected_error_returned (response : ToolResponse number)
    (testCase : TestCase number (ValidationRule number)) :
  status (expectedOutcome testCase) = success ->
  response_status response = error ->
  exists message code,
    response = Failed message code
    /\ result (validateResponse response testCase)
       = {| valid := false;
            errors := [("Tool execution failed: " ++ message)%string] |}
    /\ evaluated (validateResponse response testCase) = [].
Proof.
  intros Hexpected Hactual.
  destruct response as [data | message code]; [discriminate|].
  exists message, code. unfold validateResponse. rewrite Hexpected.
  repeat split.
Qed.

(** C2. Expected error, actual error: every declared rule is evaluated, in
    the order of declaration and without short-circuit, against the root
    [{error: response.error}]; the errors are the messages of the failing
    rules.  A [matches] rule of target [error.message] and value [fail]
    passes on an error whose message is [fail], and the result is valid. *)
Theorem C2_error_expected_error_returned
    (testCase : TestCase number (ValidationRule number))
    (message : string) (code : option string) :
  status (expectedOutcome testCase) = error ->
  let rules := validationRules (expectedOutcome testCase) in
  let root := error_root message code in
  let out := validateResponse (Failed message code) testCase in
  evaluated out = rules
  /\ errors (result out)
     = map rule_message (filter (fun rule => negb (evaluateRule rule root)) rules)
  /\ valid (result out) = forallb (fun rule => evaluateRule rule root) rules
  /\ (forall msg,
        RegExp_test "fail" "fail" = true ->
        message = "fail" ->
        rules = [matches "error.message" (JStr "fail") msg] ->
        result out = {| valid := true; errors := [] |}).
Proof.
  intros Hexpected rules root out.
  destruct (rule_loop root rules
              {| result := {| valid := true; errors := [] |}; evaluated := [] |})
    as [He [Hr Hv]]; [reflexivity|].
  cbv zeta in He, Hr, Hv. cbn [evaluated result errors app] in He, Hr.
  assert (Hout : out = fold_left (runRule root) rules
                         {| result := {| valid := true; errors := [] |};
                            evaluated := [] |}).
  { subst out. unfold validateResponse. now rewrite Hexpected. }
  rewrite Hout. split; [exact He|]. split; [exact Hr|].
  split; [rewrite Hv, Hr; apply valid_iff_all_pass|].
  intros msg Hregex Hmessage Hrules.
  destruct (result (fold_left (runRule root) rules _)) as [v errs].
  cbn [valid errors] in *. rewrite Hv, Hr, Hrules. subst root message.
  cbn [filter]. unfold evaluateRule, resolve. cbn. now rewrite Hregex.
Qed.

Lemma resolve_steps_app (root : JSON number) before after :
  resolve_steps root (before ++ after)
  = match resolve_steps root before with
    | Found v => resolve_steps v after
    | NOT_FOUND => NOT_FOUND
    end.
Proof.
  revert root; induction before as [|step before IH]; intros root; cbn [app resolve_steps].
  - reflexivity.
  - destruct (resolve_step root step) as [|v]; [reflexivity | apply IH].
Qed.

(** A step succeeds exactly when the mapping has the key or the sequence
    has the index. *)
Lemma resolve_step_found (v : JSON number) step x :
  resolve_step v step = Found x <-> steps_to v step x.
Proof.
  split.
  - destruct step as [k|i], v as [| b | n | s | items | props]; cbn [resolve_step];
      try discriminate.
    + destruct (assoc k props) as [y|] eqn:E; [|discriminate].
      intros [= <-]. now constructor.
    + destruct (nth_error items i) as [y|] eqn:E; [|discriminate].
      intros [= <-]. now constructor.
  - intros [props k y E | items i y E]; cbn [resolve_step]; now rewrite E.
Qed.

(** A step fails exactly for one of the four causes. *)
Lemma resolve_step_not_found (v : JSON number) step :
  resolve_step v step = NOT_FOUND <-> fails_at v step.
Proof.
  split.
  - destruct step as [k|i], v as [| b | n | s | items | props]; cbn [resolve_step];
      intros H;
      try (now apply key_into_non_mapping);
      try (now apply index_into_non_sequence).
    + destruct (assoc k props) as [y|] eqn:E; [discriminate|].
      now apply missing_key.
    + destruct (nth_error items i) as [y|] eqn:E; [discriminate|].
      apply index_out_of_range. now apply nth_error_None.
  - intros [props k E | items i E | w i E | w k E]; cbn [resolve_step].
    + now rewrite E.
    + now rewrite (proj2 (nth_error_None items i) E).
    + destruct w; try reflexivity. discriminate E.
    + destruct w; try reflexivity. discriminate E.
Qed.

Lemma resolve_steps_found (root : JSON number) steps v :
  resolve_steps root steps = Found v <-> reaches root steps v.
Proof.
  revert root. induction steps as [|step steps IH]; intros root; cbn [resolve_steps].
  - split; [intros [= <-]; constructor | intros H; now inversion H].
  - split.
    + destruct (resolve_step root step) as [|x] eqn:E; [discriminate|].
      intros H. apply reaches_further with (x := x);
        [now apply resolve_step_found | now apply IH].
    + intros H. inversion H as [|r s x rest y Hstep Hrest]; subst.
      apply resolve_step_found in Hstep. rewrite Hstep. now apply IH.
Qed.

Lemma resolve_steps_not_found (root : JSON number) steps :
  resolve_steps root steps = NOT_FOUND
  <-> exists before step after at_,
        steps = before ++ step :: after
        /\ reaches root before at_
        /\ fails_at at_ step.
Proof.
  revert root. induction steps as [|step steps IH]; intros root; cbn [resolve_steps].
  - split; [discriminate|].
    intros [before [s [after [at_ [E _]]]]]. destruct before; discriminate E.
  - split.
    + destruct (resolve_step root step) as [|x] eqn:E.
      * intros _. exists [], step, steps, root.
        split; [reflexivity|]. split; [constructor|].
        now apply resolve_step_not_found.
      * intros H. apply IH in H.
        destruct H as [before [s [after [at_ [-> [Hr Hf]]]]]].
        exists (step :: before), s, after, at_.
        split; [reflexivity|]. split; [|exact Hf].
        apply reaches_further with (x := x); [now apply resolve_step_found | exact Hr].
    + intros [before [s [after [at_ [E [Hr Hf]]]]]].
      destruct before as [|b before]; cbn [app] in E; injection E as -> ->.
      * inversion Hr; subst. apply resolve_step_not_found in Hf. now rewrite Hf.
      * inversion Hr as [|r s' x rest y Hstep Hrest]; subst.
        apply resolve_step_found in Hstep. rewrite Hstep.
        apply IH. now exists before, s, after, at_.
Qed.

Lemma tokenize_nonempty (path : string) : tokenize path <> [].
Proof.
  unfold tokenize. pose proof (split_on_nonempty "." path) as Hne.
  destruct (split_on "." path) as [|segment rest]; [contradiction|].
  cbn [flat_map]. unfold tokenize_segment.
  destruct (split_on "[" segment) as [|k [|suffix [|x l]]]; try discriminate.
  destruct (bracket_index suffix); [destruct k|]; discriminate.
Qed.

Lemma tokenize_append (p q : string) :
  tokenize (p ++ "." ++ q)%string = tokenize p ++ tokenize q.
Proof.
  unfold tokenize.
  change (p ++ "." ++ q)%string with (p ++ String "." q)%string.
  now rewrite split_on_append, flat_map_app.
Qed.

(** A rule of one of the five kinds with a target fails when its target
    is not found. *)
Lemma targeted_rule_fails target value message (fragment : JSON number) rule :
  In rule (targeted_rules target value message) ->
  resolve fragment target = NOT_FOUND ->
  evaluateRule rule fragment = false /\ rule_message rule = message.
Proof.
  intros Hin Hr. cbn [targeted_rules In] in Hin.
  repeat destruct Hin as [<-|Hin]; try contradiction;
    cbn [evaluateRule rule_message]; rewrite Hr; split; reflexivity.
Qed.

(** C8. Path resolution fails soft.  The text of a path is resolved step
    by step: the value is found exactly when every step succeeds, and
    [NOT_FOUND] is the result exactly when, after the steps that succeed,
    a step fails for a missing key, an index out of range, an index into a
    value that is no sequence or a key into a value that is no mapping.
    Resolution halts there: every longer path is not found either, and no
    path is found in a scalar or in [null].  [NOT_FOUND] differs from
    every value that is found, a [null] included, which counts as present.
    A rule whose target is not found fails, as does [arrayLength] on a
    value that is no sequence, and the result then holds the message of
    that rule and nothing else. *)
Theorem C8_resolution_fails_soft :
  (forall (root : JSON number) segments,
      segments <> [] ->
      forallb plain_segment segments = true ->
      (forall v,
          resolve root (path_text segments) = Found v
          <-> reaches root (flat_map segment_steps segments) v)
      /\ (resolve root (path_text segments) = NOT_FOUND
          <-> exists before step after at_,
                flat_map segment_steps segments = before ++ step :: after
                /\ reaches root before at_
                /\ fails_at at_ step))
  /\ (forall (root : JSON number) p q,
        resolve root (p ++ "." ++ q)%string
        = match resolve root p with
          | Found v => resolve v q
          | NOT_FOUND => NOT_FOUND
          end)
  /\ (forall (root : JSON number) path,
        structured (Some root) = false -> resolve root path = NOT_FOUND)
  /\ (forall v : JSON number, NOT_FOUND <> Found v)
  /\ (forall (props : list (string * JSON number)) key message,
        lacks "." key = true ->
        lacks "[" key = true ->
        assoc key props = Some JNull ->
        resolve (JObj props) key = Found JNull
        /\ evaluateRule (hasProperty key message) (JObj props) = true)
  /\ (forall target value message (fragment : JSON number) rule
             (testCase : TestCase number (ValidationRule number)),
        In rule (targeted_rules target value message) ->
        resolve fragment target = NOT_FOUND ->
        validationRules (expectedOutcome testCase) = [rule] ->
        (status (expectedOutcome testCase) = success ->
         validateResponse (Succeeded fragment) testCase
         = {| result := {| valid := false; errors := [message] |};
              evaluated := [rule] |})
        /\ (forall failure code,
              status (expectedOutcome testCase) = error ->
              fragment = error_root failure code ->
              validateResponse (Failed failure code) testCase
              = {| result := {| valid := false; errors := [message] |};
                   evaluated := [rule] |}))
  /\ (forall target value message (fragment v : JSON number)
             (testCase : TestCase number (ValidationRule number)),
        resolve fragment target = Found v ->
        Array_isArray v = false ->
        validationRules (expectedOutcome testCase)
        = [arrayLength target value message] ->
        status (expectedOutcome testCase) = success ->
        validateResponse (Succeeded fragment) testCase
        = {| result := {| valid := false; errors := [message] |};
             evaluated := [arrayLength target value message] |}).
Proof.
  split.
  { intros root segments Hne Hplain. unfold resolve.
    rewrite (tokenize_path_text segments Hne Hplain).
    split; [intros v; apply resolve_steps_found | apply resolve_steps_not_found]. }
  split.
  { intros root p q. unfold resolve. now rewrite tokenize_append, resolve_steps_app. }
  split.
  { intros root path Hroot. unfold resolve.
    pose proof (tokenize_nonempty path) as Hne.
    destruct (tokenize path) as [|step steps]; [contradiction|].
    cbn [resolve_steps].
    destruct root, step; try discriminate Hroot; reflexivity. }
  split; [discriminate|].
  split.
  { intros props key message Hdot Hbracket Hkey.
    assert (Hr : resolve (JObj props) key = Found JNull).
    { unfold resolve, tokenize. rewrite (split_on_lacks _ _ Hdot). cbn [flat_map].
      unfold tokenize_segment. rewrite (split_on_lacks _ _ Hbracket).
      cbn [app resolve_steps resolve_step]. now rewrite Hkey. }
    split; [exact Hr|]. cbn [evaluateRule]. now rewrite Hr. }
  split.
  { intros target value message fragment rule testCase Hin Hr Hrules.
    destruct (targeted_rule_fails target value message fragment rule Hin Hr)
      as [Hfail Hmsg].
    split.
    - intros Hs. unfold validateResponse. rewrite Hs, Hrules. cbn [fold_left].
      unfold runRule. rewrite Hfail, Hmsg. reflexivity.
    - intros failure code Hs ->. unfold validateResponse. rewrite Hs, Hrules.
      cbn [fold_left]. unfold runRule. rewrite Hfail, Hmsg. reflexivity. }
  intros target value message fragment v testCase Hr Hv Hrules Hs.
  unfold validateResponse. rewrite Hs, Hrules. cbn [fold_left].
  unfold runRule. cbn [evaluateRule rule_message]. rewrite Hr.
  destruct v; try reflexivity. discriminate Hv.
Qed.

End ValidatorTheorems.

(** ** The scenarios of the specification and of the test suites *)

Section OnScenarios.
Import Reference Scenarios.

(** Scenario F: success expected, the error [oops] returned. *)
Lemma C1_scenario_F :
  status (expectedOutcome expectsSuccess) = success
  /\ response_status (Failed "oops" None : ToolResponse Z) = error
  /\ result (validateResponse (Failed "oops" None) expectsSuccess)
     = {| valid := false; errors := ["Tool execution failed: oops"] |}
  /\ evaluated (validateResponse (Failed "oops" None) expectsSuccess) = [].
Proof.
  split; [reflexivity|]. split; [reflexivity|].
  destruct (C1_success_expected_error_returned (rt := runtime)
              (Failed "oops" None) expectsSuccess eq_refl eq_refl)
    as [message [code [E [Hr He]]]].
  injection E as <- <-. split; assumption.
Defined.

(** Scenario D: an error expected, the error [fail] returned. *)
Lemma C2_scenario_D :
  status (expectedOutcome expectsError) = error
  /\ RegExp_test "fail" "fail" = true
  /\ evaluated (validateResponse (Failed "fail" None) expectsError)
     = validationRules (expectedOutcome expectsError)
  /\ result (validateResponse (Failed "fail" None) expectsError)
     = {| valid := true; errors := [] |}.
Proof.
  split; [reflexivity|]. split; [reflexivity|].
  destruct (C2_error_expected_error_returned (rt := runtime) expectsError "fail" None eq_refl)
    as [He [_ [_ Hd]]].
  split; [exact He|]. apply (Hd "msg"); reflexivity.
Defined.

(** Scenario E: a text that is not JSON. *)
Lemma C3_scenario_E :
  JSON_parse (extracted_payload notJson) = inl "Unexpected token"
  /\ fst (parseResponse notJson mockToolFull world0) = []
  /\ In {| level := LogError;
           text := "[validationTool] Raw response text was: this is not json" |}
        (console (snd (parseResponse notJson mockToolFull world0))).
Proof.
  split; [reflexivity|].
  destruct (C3_invalid_json_returns_empty (rt := runtime) notJson mockToolFull world0
              "Unexpected token" eq_refl)
    as [Hempty [_ [_ [d [Hin [Hl Ht]]]]]].
  split; [exact Hempty|].
  destruct d as [l t]. cbn [level text] in Hl, Ht. subst l t. exact Hin.
Defined.

(** Three responses on which the parser departs from the conditions as
    stated.  An element whose description is the empty string has a
    description that is a string, inputs and an expected outcome that are
    objects and the status success, and yet is rejected.  An element whose
    inputs are an array, which is no structured object, becomes a test
    case.  Of two elements that meet every condition none becomes a test
    case when the conformance check throws at the second: the identifiers
    of both are drawn, and the console holds the two lines of the outer
    [catch]. *)
Lemma C4_empty_description_is_rejected :
  (JSON_parse (extracted_payload emptyDescriptionText) = inr (JArr [emptyDescription])
   /\ rejected_as_stated emptyDescription = false
   /\ fst (parseResponse emptyDescriptionText mockToolFull world0) = []
   /\ ~ (fst (parseTest mockToolFull [] emptyDescription 0 world0) = inr []
         <-> rejected_as_stated emptyDescription = true))
  /\ (JSON_parse (extracted_payload arrayInputsText) = inr (JArr [arrayInputs])
      /\ rejected_as_stated arrayInputs = true
      /\ map (fun t => (description t, inputs t))
           (fst (parseResponse arrayInputsText mockToolFull world0))
         = [("Array inputs", JArr [])])
  /\ (JSON_parse (extracted_payload unprintableText)
      = inr (JArr [printable; unprintable])
      /\ map rejected_as_stated [printable; unprintable] = [false; false]
      /\ parseResponse unprintableText mockToolFull world0
         = ([], {| uuid_calls := 2;
                   console :=
                     [{| level := LogWarn;
                         text := "[validationTool] LLM response did not contain JSON within backticks. Attempting to parse directly." |};
                      {| level := LogError;
                         text := "[validationTool] Unexpected error in parseResponse: Cannot convert object to primitive value" |};
                      {| level := LogError;
                         text := ("[validationTool] Response text was: "
                                    ++ unprintableText)%string |}] |})).
Proof.
  split; [|split].
  - split; [reflexivity|]. split; [reflexivity|]. split; [reflexivity|].
    intros [H _]. specialize (H eq_refl). discriminate H.
  - split; [reflexivity|]. split; reflexivity.
  - split; [vm_compute; reflexivity|]. split; [reflexivity|].
    vm_compute. reflexivity.
Qed.

(** The mixed response: the first and the third element become test
    cases, the others are rejected. *)
Lemma C4_mixed_validity :
  JSON_parse (extracted_payload mixedText) = inr (JArr mixedElements)
  /\ map rejected mixedElements = [false; true; false; true; true]
  /\ existsb (throws mockToolFull) mixedElements = false
  /\ map (fun t => description t) (fst (parseResponse mixedText mockToolFull world0))
     = ["Valid Case 1"; "Valid Case 2"].
Proof.
  split; [vm_compute; reflexivity|]. split; [reflexivity|].
  split; [vm_compute; reflexivity|].
  pose proof (proj2 (C4_rejected_elements (rt := runtime) mockToolFull) mixedText world0
                mixedElements eq_refl) as H.
  change (existsb (throws mockToolFull) mixedElements) with false in H.
  apply (f_equal (map (fun c => fst (fst (fst c))))) in H.
  rewrite !map_map in H. exact H.
Defined.

(** Two tools on which a required name that is no key of the inputs gets
    no warning.  The schema of the first has no properties: the checker
    returns before it reads [required].  The second requires [toString] and
    [constructor], which the empty inputs inherit. *)
Lemma C5_required_without_properties :
  (exists schema, inputSchema mockToolMinimal = Some schema
                  /\ properties schema = None
                  /\ required schema = Some ["location"])
  /\ own_key (inputs weatherCase) "location" = false
  /\ absent (inputs weatherCase) "location" = true
  /\ (exists r, validateTestInputs weatherCase mockToolMinimal = inr r
                 /\ count_occ string_dec (input_warnings r)
                      (missing_message "location") = 0)
  /\ (own_key (@JObj Z []) "toString" = false
      /\ own_key (@JObj Z []) "constructor" = false
      /\ validateTestInputs
           (test_case inheritingTool (JObj []) success (@nil (JSON Z)))
           inheritingTool
         = inr {| isValid := false;
                  input_warnings :=
                    ["Missing required input parameter: 'paramString'."] |}).
Proof.
  split; [eexists; repeat split|]. split; [reflexivity|]. split; [reflexivity|].
  split; [eexists; split; reflexivity|]. repeat split.
Qed.

(** Scenario A: [location] is required and absent. *)
Lemma C5_scenario_A :
  inputSchema weatherTool = Some weatherSchema
  /\ properties weatherSchema
     = Some [("location", {| prop_type := Some "string"; prop_enum := None |});
             ("unit", {| prop_type := Some "string";
                         prop_enum := Some [JStr "celsius"; JStr "fahrenheit"] |})]
  /\ absent (inputs weatherCase) "location" = true
  /\ validateTestInputs weatherCase weatherTool
     = inr {| isValid := false;
              input_warnings := ["Missing required input parameter: 'location'."] |}
  /\ count_occ string_dec ["Missing required input parameter: 'location'."]
       (missing_message "location") = 1.
Proof.
  split; [reflexivity|]. split; [reflexivity|]. split; [reflexivity|].
  split; [reflexivity|].
  destruct (C5_missing_required_warnings (rt := runtime) weatherCase weatherTool
              weatherSchema _
              {| isValid := false;
                 input_warnings := ["Missing required input parameter: 'location'."] |}
              eq_refl eq_refl eq_refl) as [perKey [_ [_ [_ [_ Hone]]]]].
  apply Hone; [repeat constructor; intros [] | now left | reflexivity].
Defined.


(** The test case of scenario B carries its warning. *)
Lemma C7_scenario_B :
  In mismatchCase (fst (parseResponse mismatchText mockToolFull world0))
  /\ status (expectedOutcome mismatchCase) = success
  /\ exists r, validateTestInputs mismatchCase mockToolFull = inr r
               /\ warnings mismatchCase = Some (input_warnings r).
Proof.
  assert (Hin : In mismatchCase (fst (parseResponse mismatchText mockToolFull world0)))
    by (vm_compute; left; reflexivity).
  split; [exact Hin|].
  destruct (C7_warnings_only_for_success (rt := runtime)
              mismatchText mockToolFull world0 mismatchCase Hin)
    as [Hsome _].
  destruct (Hsome _ eq_refl) as [Hs [[r [Hr Hw]] _]].
  split; [exact Hs|]. exists r. split; [exact Hr | exact (f_equal Some Hw)].
Defined.

(** A [matches] rule on a path that does not exist and an [arrayLength]
    rule on a value that is no sequence fail, each with its own message
    and nothing else. *)
Lemma C8_boundaries :
  In (matches "missing.path" (@JStr Z "x") "no match")
     (targeted_rules "missing.path" (@JStr Z "x") "no match")
  /\ resolve itemsData "missing.path" = NOT_FOUND
  /\ validateResponse (Succeeded itemsData)
       (test_case mockToolFull (JObj []) success
          [matches "missing.path" (@JStr Z "x") "no match"])
     = {| result := {| valid := false; errors := ["no match"] |};
          evaluated := [matches "missing.path" (JStr "x") "no match"] |}
  /\ resolve itemsData "count" = Found (JNum 42%Z)
  /\ validateResponse (Succeeded itemsData)
       (test_case mockToolFull (JObj []) success
          [arrayLength "count" (JNum 1%Z) "no length"])
     = {| result := {| valid := false; errors := ["no length"] |};
          evaluated := [arrayLength "count" (JNum 1%Z) "no length"] |}
  /\ (resolve itemsData
        (path_text [{| segment_key := "items"; segment_index := Some 2 |};
                    {| segment_key := "id"; segment_index := None |}])
      = NOT_FOUND
      <-> exists before step after at_,
            [Key "items"; Index 2; Key "id"] = before ++ step :: after
            /\ reaches itemsData before at_
            /\ fails_at at_ step).
Proof.
  destruct (C8_resolution_fails_soft (rt := runtime))
    as [Hpath [_ [_ [_ [_ [Hrule Hlength]]]]]].
  split; [cbn; tauto|]. split; [reflexivity|].
  split.
  { apply (proj1 (Hrule "missing.path" (JStr "x") "no match" itemsData
                    (matches "missing.path" (JStr "x") "no match")
                    (test_case mockToolFull (JObj []) success
                       [matches "missing.path" (JStr "x") "no match"])
                    (or_intror (or_intror (or_introl eq_refl))) eq_refl eq_refl)).
    reflexivity. }
  split; [reflexivity|].
  split.
  { apply (Hlength "count" (JNum 1%Z) "no length" itemsData (JNum 42%Z));
      reflexivity. }
  apply (Hpath itemsData
           [{| segment_key := "items"; segment_index := Some 2 |};
            {| segment_key := "id"; segment_index := None |}]);
    [discriminate | reflexivity].
Defined.

(** A schema without properties: the required [location] is not
    reported. *)
Lemma C9_no_properties :
  (exists schema, inputSchema mockToolMinimal = Some schema
                  /\ properties schema = None
                  /\ required schema = Some ["location"])
  /\ absent (inputs weatherCase) "location" = true
  /\ validateTestInputs weatherCase mockToolMinimal
     = inr {| isValid := true; input_warnings := [] |}.
Proof.
  split; [eexists; repeat split|]. split; [reflexivity|].
  destruct (C9_no_schema_no_warnings (rt := runtime) weatherCase mockToolMinimal)
    as [E _].
  - right. eexists. split; reflexivity.
  - exact E.
Defined.

(** [null] for [paramObject], declared an object. *)
Lemma C10_null_paramObject :
  assoc "paramObject" mockProperties
  = Some {| prop_type := Some "object"; prop_enum := None |}
  /\ checkInput mockProperties {| isValid := true; input_warnings := [] |}
       ("paramObject", @JNull Z)
     = inr {| isValid := true; input_warnings := [] |}.
Proof.
  split; [reflexivity|].
  destruct (C10_null_passes_object (rt := runtime) mockProperties
              {| isValid := true; input_warnings := [] |}
              "paramObject" _ eq_refl eq_refl) as [_ [_ [_ [H _]]]].
  rewrite H. reflexivity.
Defined.

(** The tests of [ResponseValidator.test.ts] on the validator as the
    specification describes it. *)
Example validates_rules_on_success :
  map (fun rule => evaluateRule rule itemsData)
    [hasProperty "items[0].id" "missing id";
     hasProperty "nothing" "null is present";
     hasProperty "items[2].id" "out of range";
     equals "count" (JNum 42%Z) "count should equal 42";
     arrayLength "items" (JNum 2%Z) "items length should be 2";
     custom (fun data => Array_isArray data) "custom failed"]
  = [true; true; false; true; true; false]
  /\ errors (result (validateResponse (Succeeded (JObj []))
                       (test_case mockToolFull (JObj []) error
                          [hasProperty "foo" "missing foo"])))
     = ["Expected tool to return an error, but got success."].
Proof. split; reflexivity. Qed.

(** "should parse a valid JSON response with backticks". *)
Example parses_fenced_response :
  fst (parseResponse
         ("```json" ++ String (ascii_of_nat 10) EmptyString
          ++ json_text "[{'description':'Test 1','inputs':{'paramString':'abc', 'paramNumber':123, 'paramEnum':'A'},'expectedOutcome':{'status':'success','validationRules':[]}}]"
          ++ String (ascii_of_nat 10) EmptyString ++ "```")%string
         mockToolFull world0)
  = [{| id := "uuid-0";
        toolName := "validationTool";
        description := "Test 1";
        naturalLanguageQuery := EmptyString;
        inputs := JObj [("paramString", JStr "abc"); ("paramNumber", JNum 123%Z);
                        ("paramEnum", JStr "A")];
        expectedOutcome := {| status := success; validationRules := [] |};
        warnings := None |}].
Proof. vm_compute. reflexivity. Qed.

(** The tests of [TestGenerator.test.ts] on missing and undeclared
    parameters and on enumerations. *)
Example warns_on_inputs :
  validateTestInputs
    (test_case mockToolFull
       (JObj [("paramNumber", JNum 123%Z); ("paramEnum", JStr "D");
              ("extraParam", JStr "xyz")]) success (@nil (JSON Z)))
    mockToolFull
  = inr {| isValid := false;
           input_warnings :=
             ["Missing required input parameter: 'paramString'.";
              "Input 'paramEnum' value 'D' is not in the allowed enum values: [A, B, C].";
              "Input parameter 'extraParam' is not defined in the tool's input schema."] |}.
Proof. reflexivity. Qed.

(** What the checker does where a name is inherited or a value cannot be
    printed: an input named [constructor] is taken for declared; an
    enumerated parameter whose value has a key [toString] makes the checker
    throw; inputs that are [null] make it throw at the first required
    name; of inputs that are a string the checker visits the characters,
    when no name is required. *)
Example checker_on_prototypes :
  validateTestInputs
    (test_case mockToolFull
       (JObj [("paramString", JStr "s"); ("paramNumber", JNum 1%Z);
              ("paramEnum", JStr "A"); ("constructor", JNum 1%Z)])
       success (@nil (JSON Z)))
    mockToolFull
  = inr {| isValid := true; input_warnings := [] |}
  /\ validateTestInputs
       (test_case mockToolFull
          (JObj [("paramEnum", JObj [("toString", JNum 1%Z)])])
          success (@nil (JSON Z)))
       mockToolFull
     = inl "Cannot convert object to primitive value"
  /\ validateTestInputs
       (test_case mockToolFull JNull success (@nil (JSON Z))) mockToolFull
     = inl "Cannot use 'in' operator to search for 'paramString' in null"
  /\ validateTestInputs
       (test_case optionalTool (JStr "ab") success (@nil (JSON Z))) optionalTool
     = inr {| isValid := true;
              input_warnings :=
                ["Input parameter '0' is not defined in the tool's input schema.";
                 "Input parameter '1' is not defined in the tool's input schema."] |}.
Proof. repeat split. Qed.

End OnScenarios.

(** ** The verdict of the conformance checker *)

Section ValidityFacts.
Context {number : Type} {rt : JSRuntime number}.

Lemma type_warnings_nil param expectedType (v : JSON number) :
  type_warnings param expectedType v = [] <-> type_ok expectedType v = true.
Proof.
  unfold type_warnings, type_ok. destruct expectedType as [expected|]; [|tauto].
  destruct (existsb (String.eqb expected) checked_types); cbn [negb andb orb];
    [|tauto].
  destruct (String.eqb (runtime_kind v) expected); cbn [negb]; split;
    intros H; try reflexivity; discriminate H.
Qed.

Lemma enum_warnings_nil param sp (v : JSON number) ws :
  enum_warnings param sp v = inr ws -> (ws = [] <-> enum_ok sp v = true).
Proof.
  unfold enum_warnings, enum_ok. destruct (prop_enum sp) as [allowed|];
    [|intros [= <-]; tauto].
  destruct (Array_includes allowed v); [intros [= <-]; tauto|].
  destruct (ToString v) as [thrown|value]; [discriminate|].
  destruct (Array_join ", " allowed) as [thrown|values]; [discriminate|].
  intros [= <-]. split; discriminate.
Qed.

(** An enumerated value that is allowed is never printed. *)
Lemma enum_warnings_allowed param sp (v : JSON number) :
  enum_ok sp v = true -> enum_warnings param sp v = inr [].
Proof.
  unfold enum_warnings, enum_ok. destruct (prop_enum sp) as [allowed|];
    [|reflexivity].
  now intros ->.
Qed.

Lemma type_warnings_undeclared param expectedType (v : JSON number) :
  Forall (fun w => exists name, w = undeclared_message name)
         (type_warnings param expectedType v)
  <-> type_ok expectedType v = true.
Proof.
  rewrite <- (type_warnings_nil param). split; [|intros ->; constructor].
  unfold type_warnings. destruct expectedType as [expected|]; [|reflexivity].
  destruct (_ && _); [|reflexivity].
  intros H. inversion H as [|w ws [name Hw] _]. discriminate Hw.
Qed.

Lemma enum_warnings_undeclared param sp (v : JSON number) ws :
  enum_warnings param sp v = inr ws ->
  (Forall (fun w => exists name, w = undeclared_message name) ws
   <-> enum_ok sp v = true).
Proof.
  intros E. rewrite <- (enum_warnings_nil param sp v ws E).
  split; [|intros ->; constructor].
  revert E. unfold enum_warnings. destruct (prop_enum sp) as [allowed|];
    [|now intros [= <-]].
  destruct (Array_includes allowed v); [now intros [= <-]|].
  destruct (ToString v) as [thrown|value]; [discriminate|].
  destruct (Array_join ", " allowed) as [thrown|values]; [discriminate|].
  intros [= <-] H. inversion H as [|w ws' [name Hw] _]. discriminate Hw.
Qed.

Lemma entry_warnings_nil props (entry : string * JSON number) ws :
  entry_warnings props entry = inr ws ->
  (ws = [] <-> declared props entry = true /\ passes props entry = true).
Proof.
  unfold entry_warnings, schema_get, declared, passes.
  destruct (assoc (fst entry) props) as [sp|].
  - destruct (enum_warnings (fst entry) sp (snd entry)) as [thrown|ews] eqn:E;
      [discriminate|].
    intros [= <-]. rewrite andb_true_iff, <- (type_warnings_nil (fst entry)),
      <- (enum_warnings_nil _ _ _ _ E).
    split.
    + intros H. apply app_eq_nil in H. tauto.
    + intros [_ [-> ->]]. reflexivity.
  - rewrite existsb_eqb_in_dec.
    destruct (in_dec string_dec (fst entry) Object_prototype_names).
    + intros [= <-]. cbn. tauto.
    + intros [= <-]. split; [discriminate | intros [H _]; discriminate H].
Qed.

Lemma entry_warnings_undeclared props (entry : string * JSON number) ws :
  entry_warnings props entry = inr ws ->
  (Forall (fun w => exists name, w = undeclared_message name) ws
   <-> passes props entry = true).
Proof.
  unfold entry_warnings, schema_get, passes.
  destruct (assoc (fst entry) props) as [sp|].
  - destruct (enum_warnings (fst entry) sp (snd entry)) as [thrown|ews] eqn:E;
      [discriminate|].
    intros [= <-]. rewrite Forall_app, andb_true_iff,
      type_warnings_undeclared, (enum_warnings_undeclared _ _ _ _ E).
    tauto.
  - destruct (existsb (String.eqb (fst entry)) Object_prototype_names).
    + intros [= <-]. cbn. split; [reflexivity | constructor].
    + intros [= <-]. split; [reflexivity|].
      intros _. constructor; [now eexists | constructor].
Qed.

(** An entry that passes the checks of its declaration throws nothing. *)
Lemma entry_warnings_passes props (entry : string * JSON number) :
  passes props entry = true -> exists ws, entry_warnings props entry = inr ws.
Proof.
  unfold entry_warnings, schema_get, passes.
  destruct (assoc (fst entry) props) as [sp|].
  - intros H. apply andb_true_iff in H. destruct H as [_ H].
    rewrite (enum_warnings_allowed _ _ _ H). now eexists.
  - intros _. destruct (existsb (String.eqb (fst entry)) Object_prototype_names);
      now eexists.
Qed.

Lemma entries_warnings_nil props (entries : list (string * JSON number)) :
  forall ws,
    entries_warnings props entries = inr ws ->
    (ws = [] <-> forallb (fun entry => declared props entry && passes props entry)
                   entries = true).
Proof.
  induction entries as [|entry entries IH]; intros ws; cbn [entries_warnings forallb].
  - intros [= <-]. tauto.
  - destruct (entry_warnings props entry) as [thrown|ws1] eqn:E1; [discriminate|].
    destruct (entries_warnings props entries) as [thrown|ws2]; [discriminate|].
    intros [= <-]. rewrite !andb_true_iff, <- (IH ws2 eq_refl),
      <- (entry_warnings_nil _ _ _ E1).
    split.
    + intros H. apply app_eq_nil in H. tauto.
    + intros [-> ->]. reflexivity.
Qed.

Lemma entries_warnings_undeclared props (entries : list (string * JSON number)) :
  forall ws,
    entries_warnings props entries = inr ws ->
    (Forall (fun w => exists name, w = undeclared_message name) ws
     <-> forallb (passes props) entries = true).
Proof.
  induction entries as [|entry entries IH]; intros ws; cbn [entries_warnings forallb].
  - intros [= <-]. split; [reflexivity | constructor].
  - destruct (entry_warnings props entry) as [thrown|ws1] eqn:E1; [discriminate|].
    destruct (entries_warnings props entries) as [thrown|ws2]; [discriminate|].
    intros [= <-]. rewrite Forall_app, andb_true_iff, (IH ws2 eq_refl),
      (entry_warnings_undeclared _ _ _ E1).
    tauto.
Qed.

Lemma entries_warnings_passes props (entries : list (string * JSON number)) :
  forallb (passes props) entries = true ->
  exists ws, entries_warnings props entries = inr ws.
Proof.
  induction entries as [|entry entries IH]; cbn [entries_warnings forallb].
  - now eexists.
  - intros H. apply andb_true_iff in H. destruct H as [He Hs].
    destruct (entry_warnings_passes props entry He) as [ws1 ->].
    destruct (IH Hs) as [ws2 ->]. now eexists.
Qed.

(** The checker on inputs that are an object or an array. *)
Lemma validateTestInputs_structured {rule : Type}
    (testCase : TestCase number rule) (tool : ToolDefinition number)
    (schema : InputSchema number) (props : list (string * SchemaProperty number)) :
  inputSchema tool = Some schema ->
  properties schema = Some props ->
  structured (Some (inputs testCase)) = true ->
  validateTestInputs testCase tool
  = match entries_warnings props (own_entries (inputs testCase)) with
    | inl thrown => inl thrown
    | inr perKey =>
        inr {| isValid :=
                 forallb (fun param => negb (absent (inputs testCase) param))
                   (required_names schema)
                 && forallb (passes props) (own_entries (inputs testCase));
               input_warnings :=
                 map missing_message
                   (filter (absent (inputs testCase)) (required_names schema))
                   ++ perKey |}
    end.
Proof.
  intros Hschema Hprops Hs. unfold validateTestInputs, required_names.
  rewrite Hschema, Hprops, required_loop, Hs, input_loop. reflexivity.
Qed.

Lemma missing_not_undeclared (names : list string) :
  Forall (fun w => exists name, w = undeclared_message name)
         (map missing_message names)
  <-> names = [].
Proof.
  split; [|intros ->; constructor].
  destruct names as [|n names]; [reflexivity|].
  intros H. inversion H as [|w ws [name Hw] _]. discriminate Hw.
Qed.

Lemma filter_absent_nil (testInputs : JSON number) names :
  filter (absent testInputs) names = []
  <-> forallb (fun param => negb (absent testInputs param)) names = true.
Proof.
  induction names as [|n names IH]; cbn [filter forallb]; [tauto|].
  destruct (absent testInputs n); cbn [negb andb]; [split; discriminate | exact IH].
Qed.

(** X1. With a schema that declares properties, the checker, when it
    returns, returns no warning exactly when every required name is a key
    of the inputs or a name they inherit, and every input key is declared,
    or inherited by the schema, and passes the type and enum checks of its
    declaration.  On such inputs, when they are an object or an array, the
    checker does return. *)
Theorem X1_no_warning_iff_conforming {rule : Type}
    (testCase : TestCase number rule) (tool : ToolDefinition number)
    (schema : InputSchema number) (props : list (string * SchemaProperty number)) :
  inputSchema tool = Some schema ->
  properties schema = Some props ->
  let conforming :=
    forallb (fun param => negb (absent (inputs testCase) param))
      (required_names schema)
    && forallb (fun entry => declared props entry && passes props entry)
         (own_entries (inputs testCase)) in
  (forall r, validateTestInputs testCase tool = inr r ->
             (input_warnings r = [] <-> conforming = true))
  /\ (structured (Some (inputs testCase)) = true ->
      conforming = true ->
      validateTestInputs testCase tool
      = inr {| isValid := true; input_warnings := [] |}).
Proof.
  intros Hschema Hprops conforming. subst conforming. split.
  - intros r Hr.
    destruct (validateTestInputs_returns testCase tool schema props r
                Hschema Hprops Hr) as [perKey [Hper [Hws _]]].
    rewrite Hws, andb_true_iff, <- filter_absent_nil,
      <- (entries_warnings_nil props _ perKey Hper).
    split.
    + intros H. apply app_eq_nil in H. destruct H as [H1 H2].
      apply map_eq_nil in H1. tauto.
    + intros [-> ->]. reflexivity.
  - intros Hs H. apply andb_true_iff in H. destruct H as [Hreq Hent].
    rewrite (validateTestInputs_structured testCase tool schema props
               Hschema Hprops Hs).
    assert (Hpass : forallb (passes props) (own_entries (inputs testCase)) = true).
    { rewrite forallb_forall in *. intros entry Hin.
      specialize (Hent entry Hin). apply andb_true_iff in Hent. tauto. }
    destruct (entries_warnings_passes props _ Hpass) as [ws Hws].
    rewrite Hws, Hreq, Hpass.
    rewrite (proj2 (entries_warnings_nil props _ ws Hws) Hent).
    rewrite (proj2 (filter_absent_nil _ _) Hreq). reflexivity.
Qed.

(** X2. The verdict [isValid] is true exactly when every warning is of
    the form [Input parameter '<name>' is not defined in the tool's input
    schema.]: an input the schema does not declare is reported and does not
    invalidate the test case, every other warning does. *)
Theorem X2_valid_iff_only_undeclared {rule : Type}
    (testCase : TestCase number rule) (tool : ToolDefinition number)
    (r : InputValidation) :
  validateTestInputs testCase tool = inr r ->
  (isValid r = true
   <-> Forall (fun w => exists param, w = undeclared_message param)
         (input_warnings r))
  /\ (input_warnings r = [] -> isValid r = true).
Proof.
  intros Hr.
  assert (Hiff : isValid r = true
                 <-> Forall (fun w => exists param, w = undeclared_message param)
                       (input_warnings r)).
  { destruct (inputSchema tool) as [schema|] eqn:Hschema;
      [destruct (properties schema) as [props|] eqn:Hprops|].
    - destruct (validateTestInputs_returns testCase tool schema props r
                  Hschema Hprops Hr) as [perKey [Hper [Hws Hv]]].
      rewrite Hws, Hv, andb_true_iff, Forall_app, missing_not_undeclared,
        filter_absent_nil, (entries_warnings_undeclared props _ perKey Hper).
      tauto.
    - unfold validateTestInputs in Hr. rewrite Hschema, Hprops in Hr.
      injection Hr as <-. split; [constructor | reflexivity].
    - unfold validateTestInputs in Hr. rewrite Hschema in Hr.
      injection Hr as <-. split; [constructor | reflexivity]. }
  split; [exact Hiff|]. intros E. apply Hiff. rewrite E. constructor.
Qed.

(** Induction on a value and on the values it holds. *)
Lemma JSON_induction (P : JSON number -> Prop) :
  P JNull ->
  (forall b, P (JBool b)) ->
  (forall n, P (JNum n)) ->
  (forall s, P (JStr s)) ->
  (forall items, Forall P items -> P (JArr items)) ->
  (forall props, Forall (fun kv => P (snd kv)) props -> P (JObj props)) ->
  forall v, P v.
Proof.
  intros Hnull Hbool Hnum Hstr Harr Hobj.
  fix IH 1. intros [| b | n | s | items | props].
  - exact Hnull.
  - apply Hbool.
  - apply Hnum.
  - apply Hstr.
  - apply Harr. revert items. fix IHitems 1. intros [|x items]; constructor;
      [apply IH | apply IHitems].
  - apply Hobj. revert props. fix IHprops 1. intros [|[k x] props]; constructor;
      [apply IH | apply IHprops].
Qed.

(** [join] throws at the first element that throws. *)
Lemma join_with_outcome {A : Type} (elem : A -> string + string) (sep : string)
    (bad : A -> bool) (thrown : string) (l : list A) :
  Forall (fun x => if bad x then elem x = inl thrown
                   else exists s, elem x = inr s) l ->
  if existsb bad l then join_with elem sep l = inl thrown
  else exists s, join_with elem sep l = inr s.
Proof.
  induction 1 as [|x l Hx Hl IH]; cbn [existsb join_with]; [now eexists|].
  destruct (bad x); cbn [orb].
  - now rewrite Hx.
  - destruct Hx as [s ->]. destruct l as [|y l]; [now eexists|].
    destruct (existsb bad (y :: l)).
    + now rewrite IH.
    + destruct IH as [s' ->]. now eexists.
Qed.

(** [String(v)] throws exactly on the values that cannot be printed. *)
Lemma ToString_outcome (v : JSON number) :
  if unprintable v then ToString v = inl ToPrimitive_TypeError
  else exists s, ToString v = inr s.
Proof.
  induction v as [| b | n | s | items IH | props IH] using JSON_induction;
    cbn [unprintable ToString]; try (now eexists).
  - destruct b; now eexists.
  - apply join_with_outcome. eapply Forall_impl; [|exact IH].
    intros x Hx. destruct x; cbn [unprintable] in *; try exact Hx; now eexists.
  - rewrite assoc_existsb. destruct (assoc "toString" props); [reflexivity | now eexists].
Qed.

Lemma Array_join_outcome sep (items : list (JSON number)) :
  if existsb unprintable items then Array_join sep items = inl ToPrimitive_TypeError
  else exists s, Array_join sep items = inr s.
Proof.
  unfold Array_join. apply join_with_outcome. apply Forall_forall. intros x _.
  pose proof (ToString_outcome x) as Hx.
  destruct x; cbn [unprintable] in *; try exact Hx; now eexists.
Qed.

Lemma entry_warnings_outcome props (entry : string * JSON number) :
  if entry_throws props entry
  then entry_warnings props entry = inl ToPrimitive_TypeError
  else exists ws, entry_warnings props entry = inr ws.
Proof.
  unfold entry_throws, entry_warnings, schema_get, enum_warnings.
  destruct (assoc (fst entry) props) as [sp|].
  - destruct (prop_enum sp) as [allowed|]; [|now eexists].
    destruct (Array_includes allowed (snd entry)); cbn [negb andb]; [now eexists|].
    pose proof (ToString_outcome (snd entry)) as Hv.
    pose proof (Array_join_outcome ", " allowed) as Ha.
    destruct (unprintable (snd entry)); cbn [orb].
    + now rewrite Hv.
    + destruct Hv as [value ->]. destruct (existsb unprintable allowed).
      * now rewrite Ha.
      * destruct Ha as [values ->]. now eexists.
  - destruct (existsb (String.eqb (fst entry)) Object_prototype_names); now eexists.
Qed.

Lemma entries_warnings_outcome props (entries : list (string * JSON number)) :
  if existsb (entry_throws props) entries
  then entries_warnings props entries = inl ToPrimitive_TypeError
  else exists ws, entries_warnings props entries = inr ws.
Proof.
  induction entries as [|entry entries IH]; cbn [existsb entries_warnings];
    [now eexists|].
  pose proof (entry_warnings_outcome props entry) as He.
  destruct (entry_throws props entry); cbn [orb].
  - now rewrite He.
  - destruct He as [ws ->]. destruct (existsb (entry_throws props) entries).
    + now rewrite IH.
    + destruct IH as [ws' ->]. now eexists.
Qed.

(** X14. With a schema that declares properties, the checker throws on
    inputs that are an object or an array exactly when an input key has a
    declaration with enumerated values, its value is none of them, and the
    value or one of the enumerated values cannot be printed, being an
    object with a key [toString] or an array that holds such a value; what
    it throws is the [TypeError] of the conversion.  On inputs that are no
    object it throws at the first required name, if there is one. *)
Theorem X14_checker_throws_on_unprintable {rule : Type}
    (testCase : TestCase number rule) (tool : ToolDefinition number)
    (schema : InputSchema number) (props : list (string * SchemaProperty number)) :
  inputSchema tool = Some schema ->
  properties schema = Some props ->
  (structured (Some (inputs testCase)) = true ->
   if existsb (entry_throws props) (own_entries (inputs testCase))
   then validateTestInputs testCase tool = inl ToPrimitive_TypeError
   else exists r, validateTestInputs testCase tool = inr r)
  /\ (structured (Some (inputs testCase)) = false ->
      forall param rest,
        required_names schema = param :: rest ->
        validateTestInputs testCase tool
        = inl (in_TypeError param (inputs testCase))).
Proof.
  intros Hschema Hprops. split.
  - intros Hs.
    rewrite (validateTestInputs_structured testCase tool schema props
               Hschema Hprops Hs).
    pose proof (entries_warnings_outcome props (own_entries (inputs testCase))) as H.
    destruct (existsb (entry_throws props) (own_entries (inputs testCase))).
    + now rewrite H.
    + destruct H as [ws ->]. now eexists.
  - intros Hs param rest Hreq. unfold validateTestInputs.
    unfold required_names in Hreq.
    rewrite Hschema, Hprops, required_loop, Hs.
    destruct (required schema) as [names|]; [|discriminate Hreq].
    now rewrite Hreq.
Qed.

End ValidityFacts.

(** ** The parser on every text *)

Lemma NoDup_map_injective {A B : Type} (f : A -> B) (l : list A) :
  (forall x y, f x = f y -> x = y) -> NoDup l -> NoDup (map f l).
Proof.
  intros Hinj Hnd. induction Hnd as [|x l Hx Hnd IH]; cbn [map]; constructor;
    [|exact IH].
  intros Hin. apply in_map_iff in Hin. destruct Hin as [y [Hy Hin]].
  apply Hinj in Hy. now subst y.
Qed.

Lemma StronglySorted_seq (start len : nat) : StronglySorted lt (seq start len).
Proof.
  revert start. induction len as [|len IH]; intros start; cbn [seq]; constructor.
  - apply IH.
  - apply Forall_forall. intros k Hk. apply in_seq in Hk. lia.
Qed.

Lemma StronglySorted_app (l1 l2 : list nat) (bound : nat) :
  StronglySorted lt l1 -> StronglySorted lt l2 ->
  Forall (fun k => k < bound) l1 -> Forall (fun k => bound <= k) l2 ->
  StronglySorted lt (l1 ++ l2).
Proof.
  intros H1 H2 Hb1 Hb2. induction H1 as [|x l1 Hs IH Hx]; cbn [app]; [exact H2|].
  inversion Hb1 as [|y l Hxb Hb1']; subst.
  constructor; [now apply IH|].
  apply Forall_app. split; [exact Hx|].
  eapply Forall_impl; [|exact Hb2]. cbn. intros k Hk. lia.
Qed.

Lemma StronglySorted_lt_NoDup (l : list nat) : StronglySorted lt l -> NoDup l.
Proof.
  induction 1 as [|x l Hs IH Hx]; constructor; [|exact IH].
  intros Hin. rewrite Forall_forall in Hx. specialize (Hx x Hin). lia.
Qed.

Section ParserRuns.
Context {number : Type} {rt : JSRuntime number}.

Lemma rejection_notices_warn tool_name (elements : list (JSON number)) :
  forall index,
    Forall (fun d => level d = LogWarn) (rejection_notices tool_name elements index)
    /\ List.length (rejection_notices tool_name elements index)
       = List.length (filter rejected elements).
Proof.
  induction elements as [|test elements IH]; intros index;
    cbn [rejection_notices filter]; [split; [constructor | reflexivity]|].
  destruct (IH (S index)) as [Hw Hn].
  destruct (rejected test); cbn [app List.length];
    [split; [now constructor | now rewrite Hn] | split; assumption].
Qed.

Lemma notices_warn (tool : ToolDefinition number) responseText parsedJson :
  Forall (fun d => level d = LogWarn)
    (fence_notice tool responseText ++ shape_notices tool responseText parsedJson).
Proof.
  apply Forall_app. split.
  - unfold fence_notice. destruct (fenced_payload responseText) as [[|c s]|];
      repeat constructor.
  - unfold shape_notices. destruct parsedJson; try destruct (looks_like_test _);
      repeat constructor.
Qed.

(** X3. When the parsed value is not an array, the test cases are those
    of the one-element array that holds it: a single object that is not
    rejected as an element is one test case, unless the conformance check
    throws at it; any other value gives none, and a value that does not
    look like a test case is reported once and draws no identifier. *)
Theorem X3_single_object_is_wrapped responseText (tool : ToolDefinition number)
    w parsedJson :
  JSON_parse (extracted_payload responseText) = inr parsedJson ->
  Array_isArray parsedJson = false ->
  let out := parseResponse responseText tool w in
  map case_fields (fst out)
  = (if rejected parsedJson || throws tool parsedJson then []
     else [case_of parsedJson])
  /\ (looks_like_test parsedJson = false ->
      out = ([], {| uuid_calls := uuid_calls w;
                    console := console w ++ fence_notice tool responseText
                                 ++ [not_array_notice tool responseText] |}))
  /\ (forall thrown,
        thrown_at tool parsedJson = Some thrown ->
        out = ([], {| uuid_calls := S (uuid_calls w);
                      console :=
                        console w ++ fence_notice tool responseText
                          ++ [not_array_notice tool responseText;
                              recovery_notice tool]
                          ++ catch_lines (name tool) responseText thrown |})).
Proof.
  intros Hparse Hshape out. subst out.
  rewrite (parseResponse_parsed _ _ _ _ Hparse).
  assert (Hel : elements_of parsedJson
                = if looks_like_test parsedJson then [parsedJson] else [])
    by (destruct parsedJson; try reflexivity; discriminate Hshape).
  assert (Hsh : shape_notices tool responseText parsedJson
                = not_array_notice tool responseText
                    :: (if looks_like_test parsedJson then [recovery_notice tool] else []))
    by (destruct parsedJson; try reflexivity; discriminate Hshape).
  rewrite Hel, Hsh.
  destruct (looks_like_test parsedJson) eqn:Hlooks.
  - match goal with
    | |- context [forEach _ _ _ _ ?w0] =>
        pose proof (forEach_parseTest_trace tool [parsedJson] 0 [] w0) as Hloop
    end.
    cbn [existsb] in Hloop. rewrite orb_false_r in Hloop.
    destruct (throws tool parsedJson) eqn:Hth.
    + destruct Hloop as [thrown [before [culprit [after [-> [Hel' [Hb Ht]]]]]]].
      assert (Hbefore : before = [] /\ culprit = parsedJson).
      { destruct before as [|b before]; cbn [app] in Hel'.
        - injection Hel' as <- _. now split.
        - injection Hel' as _ Hel'. destruct before; discriminate Hel'. }
      destruct Hbefore as [-> ->].
      rewrite orb_true_r. split; [reflexivity|]. split; [discriminate|].
      intros thrown' Ht'. rewrite Ht in Ht'. injection Ht' as <-.
      cbn [filter List.length uuid_calls console rejection_notices].
      rewrite Nat.add_1_r, app_nil_r, <- !app_assoc. reflexivity.
    + destruct Hloop as [added [-> [Hf _]]].
      rewrite orb_false_r. cbn [fst app filter] in *. rewrite Hf.
      split; [now destruct (rejected parsedJson)|]. split; [discriminate|].
      intros thrown Ht. unfold throws in Hth. now rewrite Ht in Hth.
  - cbn [forEach]. unfold ret_exc. cbn [fst map].
    assert (Hrej : rejected parsedJson = true).
    { destruct (rejected parsedJson) eqn:Hr; [reflexivity|].
      rewrite (accepted_looks_like_test _ Hr) in Hlooks. discriminate Hlooks. }
    rewrite Hrej. split; [reflexivity|]. split; [reflexivity|].
    intros thrown Ht. unfold thrown_at in Ht. rewrite Hrej in Ht. discriminate Ht.
Qed.

(** X4. The identifiers of the test cases of one run are the first
    identifiers [uuidv4] issues during the run, one for each test case, in
    the order of the test cases; the run draws no other identifier unless
    the conformance check throws, and then those it has drawn are lost with
    the test cases.  When [uuidv4] never repeats itself, the test cases of
    two successive runs have pairwise different identifiers. *)
Theorem X4_identifiers (tool1 tool2 : ToolDefinition number) text1 text2 w :
  let out1 := parseResponse text1 tool1 w in
  let out2 := parseResponse text2 tool2 (snd out1) in
  map id (fst out1)
  = map uuid_source (seq (uuid_calls w) (List.length (fst out1)))
  /\ uuid_calls w + List.length (fst out1) <= uuid_calls (snd out1)
  /\ (interrupted tool1 text1 = false ->
      uuid_calls (snd out1) = uuid_calls w + List.length (fst out1))
  /\ ((forall i j, uuid_source i = uuid_source j -> i = j) ->
      NoDup (map id (fst out1 ++ fst out2))).
Proof.
  intros out1 out2. subst out1 out2.
  assert (Hexact : interrupted tool1 text1 = false ->
            uuid_calls (snd (parseResponse text1 tool1 w))
            = uuid_calls w + List.length (fst (parseResponse text1 tool1 w))).
  { unfold interrupted.
    destruct (JSON_parse (extracted_payload text1)) as [message|parsedJson] eqn:Hparse.
    - intros _. rewrite (parseResponse_failed _ _ _ _ Hparse). cbn. lia.
    - intros Hth. rewrite (parseResponse_parsed _ _ _ _ Hparse).
      match goal with
      | |- context [forEach _ _ _ _ ?w0] =>
          pose proof (forEach_parseTest_trace tool1 (elements_of parsedJson) 0 [] w0)
            as Hloop
      end.
      rewrite Hth in Hloop. destruct Hloop as [added [-> _]]. reflexivity. }
  destruct (parseResponse_run text1 tool1 w)
    as [added1 [lines1 [discarded1 [E1 [Hi1 _]]]]].
  rewrite E1 in *. cbn [fst snd] in *.
  match goal with
  | |- context [parseResponse text2 tool2 ?w1] =>
      destruct (parseResponse_run text2 tool2 w1)
        as [added2 [lines2 [discarded2 [-> [Hi2 _]]]]]
  end.
  cbn [fst snd uuid_calls] in *.
  split; [exact Hi1|]. split; [lia|]. split; [exact Hexact|].
  intros Hinj. rewrite map_app, Hi1, Hi2, <- map_app.
  apply NoDup_map_injective; [exact Hinj|].
  apply StronglySorted_lt_NoDup.
  apply StronglySorted_app with (bound := uuid_calls w + List.length added1).
  - apply StronglySorted_seq.
  - apply StronglySorted_seq.
  - apply Forall_forall. intros k Hk. apply in_seq in Hk. lia.
  - apply Forall_forall. intros k Hk. apply in_seq in Hk. lia.
Qed.

(** X5. Every test case the parser returns bears the name of the tool,
    an empty natural-language query, a description that is not empty and
    inputs that are an object or an array. *)
Theorem X5_test_cases_are_well_formed responseText (tool : ToolDefinition number) w :
  Forall (fun t => toolName t = name tool
                   /\ naturalLanguageQuery t = EmptyString
                   /\ description t <> EmptyString
                   /\ structured (Some (inputs t)) = true)
         (fst (parseResponse responseText tool w)).
Proof.
  destruct (parseResponse_run responseText tool w)
    as [added [lines [discarded [-> [_ [H _]]]]]].
  exact H.
Qed.

(** X6. When the payload parses, the parser writes, after the notices
    about the fence and the shape of the value, the warning of each
    rejected element, in order.  Unless the conformance check throws,
    these are all it writes, warnings only, and every element is either
    returned as a test case or reported.  When the check throws at an
    element, the parser returns nothing, and the warnings of the rejected
    elements before that one are followed by the two error lines of the
    outer [catch]. *)
Theorem X6_every_element_is_accounted_for responseText (tool : ToolDefinition number)
    w parsedJson :
  JSON_parse (extracted_payload responseText) = inr parsedJson ->
  let out := parseResponse responseText tool w in
  let elements := elements_of parsedJson in
  let notices :=
    fence_notice tool responseText ++ shape_notices tool responseText parsedJson in
  Forall (fun d => level d = LogWarn)
    (notices ++ rejection_notices (name tool) elements 0)
  /\ List.length (rejection_notices (name tool) elements 0)
     = List.length (filter rejected elements)
  /\ (existsb (throws tool) elements = false ->
      console (snd out)
      = console w ++ notices ++ rejection_notices (name tool) elements 0
      /\ List.length (fst out)
           + List.length (rejection_notices (name tool) elements 0)
         = List.length elements)
  /\ (existsb (throws tool) elements = true ->
      fst out = []
      /\ exists thrown before test after,
           elements = before ++ test :: after
           /\ existsb (throws tool) before = false
           /\ thrown_at tool test = Some thrown
           /\ console (snd out)
              = console w ++ notices
                  ++ rejection_notices (name tool) before 0
                  ++ catch_lines (name tool) responseText thrown).
Proof.
  intros Hparse out elements notices. subst out elements notices.
  destruct (rejection_notices_warn (name tool) (elements_of parsedJson) 0)
    as [Hwarn Hcount].
  split; [apply Forall_app; split; [apply notices_warn | exact Hwarn]|].
  split; [exact Hcount|].
  rewrite (parseResponse_parsed _ _ _ _ Hparse).
  match goal with
  | |- context [forEach _ _ _ _ ?w0] =>
      pose proof (forEach_parseTest_trace tool (elements_of parsedJson) 0 [] w0)
        as Hloop
  end.
  destruct (existsb (throws tool) (elements_of parsedJson)).
  - split; [discriminate|]. intros _.
    destruct Hloop as [thrown [before [culprit [after [-> [Hel [Hb Ht]]]]]]].
    split; [reflexivity|].
    exists thrown, before, culprit, after.
    cbn [snd uuid_calls console]. rewrite <- !app_assoc.
    repeat split; assumption.
  - split; [|discriminate]. intros _.
    destruct Hloop as [added [-> [Hf _]]].
    cbn [fst snd app console]. split; [now rewrite <- !app_assoc|].
    apply (f_equal (@List.length _)) in Hf. rewrite !length_map in Hf.
    rewrite Hf, Hcount. clear.
    induction (elements_of parsedJson) as [|test elements IH]; [reflexivity|].
    cbn [filter]. destruct (rejected test); cbn [negb List.length]; lia.
Qed.

End ParserRuns.

(** ** The fenced payload *)

Lemma substring_all (s : string) : substring 0 (String.length s) s = s.
Proof. induction s as [|c s IH]; cbn; [reflexivity | now rewrite IH]. Qed.

Lemma prefix_drop (p s : string) :
  prefix p s = true ->
  s = (p ++ substring (String.length p) (String.length s - String.length p) s)%string.
Proof.
  revert s; induction p as [|a p IH]; intros s H.
  - cbn. now rewrite Nat.sub_0_r, substring_all.
  - destruct s as [|b s]; [discriminate H|]. cbn in H.
    destruct (ascii_dec a b) as [->|]; [|discriminate H].
    cbn. f_equal. now apply IH.
Qed.

Lemma prefix_append (p s t : string) :
  prefix p s = true -> prefix p (s ++ t)%string = true.
Proof.
  revert s; induction p as [|a p IH]; intros s H;
    [destruct (s ++ t)%string; reflexivity|].
  destruct s as [|b s]; [discriminate H|]. cbn in *.
  destruct (ascii_dec a b); [now apply IH | discriminate H].
Qed.

Lemma append_assoc (a b c : string) : ((a ++ b) ++ c = a ++ (b ++ c))%string.
Proof. induction a as [|x a IH]; cbn; [reflexivity | now rewrite IH]. Qed.

Lemma append_nil_r (a : string) : (a ++ EmptyString)%string = a.
Proof. induction a as [|x a IH]; cbn; [reflexivity | now rewrite IH]. Qed.

Lemma after_fence_found (s r : string) :
  after_fence s = Some r -> exists before, s = (before ++ fence ++ r)%string.
Proof.
  induction s as [|c s IH]; cbn [after_fence].
  - cbn. discriminate.
  - destruct (prefix fence (String c s)) eqn:Hp.
    + intros H. injection H as <-. exists EmptyString. cbn [append].
      exact (prefix_drop fence (String c s) Hp).
    + intros H. destruct (IH H) as [before ->]. now exists (String c before).
Qed.

Lemma skip_json_found (s : string) :
  exists tag, s = (tag ++ skip_json s)%string
              /\ (tag = EmptyString \/ tag = "json"%string).
Proof.
  unfold skip_json. destruct (prefix "json" s) eqn:Hp.
  - exists "json"%string. split; [exact (prefix_drop "json" s Hp) | now right].
  - exists EmptyString. split; [reflexivity | now left].
Qed.

Lemma skip_spaces_found (s : string) :
  (exists ws, s = (ws ++ skip_spaces s)%string /\ all_spaces ws = true)
  /\ starts_with_space (skip_spaces s) = false.
Proof.
  induction s as [|c s [[ws [E Hws]] Hs]]; cbn [skip_spaces].
  - split; [now exists EmptyString | reflexivity].
  - destruct (is_space c) eqn:Hc.
    + split; [|exact Hs]. exists (String c ws). cbn. rewrite Hc, Hws.
      split; [now rewrite <- E | reflexivity].
    + split; [now exists EmptyString | exact Hc].
Qed.

Lemma closes_no_prefix (s : string) : closes s = false -> prefix fence s = false.
Proof.
  destruct s as [|c s]; [reflexivity|]. cbn [closes].
  now destruct (prefix fence (String c s)).
Qed.

(** What the lazy group takes: a prefix after which the closing fence
    matches, without a fence inside and without white space at its end. *)
Lemma capture_found (s p : string) :
  capture s = Some p ->
  (exists rest, s = (p ++ rest)%string /\ closes rest = true)
  /\ includes fence p = false
  /\ ends_with_space p = false.
Proof.
  revert p; induction s as [|c s IH]; intros p; cbn [capture].
  - cbn. discriminate.
  - destruct (closes (String c s)) eqn:Hc.
    + intros H. injection H as <-. split; [|split; reflexivity].
      now exists (String c s).
    + destruct (capture s) as [p'|] eqn:Hcap; [|discriminate].
      cbn [option_map]. intros H. injection H as <-.
      destruct (IH p' eq_refl) as [[rest [E Hrest]] [Hin Hend]].
      split; [exists rest; split; [cbn; now rewrite <- E | exact Hrest]|].
      split.
      * cbn [includes]. rewrite Hin, orb_false_r.
        destruct (prefix fence (String c p')) eqn:Hp; [|reflexivity].
        apply (prefix_append _ _ rest) in Hp. cbn [append] in Hp.
        rewrite <- E in Hp. now rewrite (closes_no_prefix _ Hc) in Hp.
      * destruct p' as [|d p']; [|exact Hend].
        cbn [ends_with_space]. cbn [append] in E. subst s.
        pose proof (closes_no_prefix _ Hc) as Hp.
        cbn [closes] in Hc. rewrite Hp, Hrest in Hc.
        now rewrite andb_true_r in Hc.
Qed.

(** X7. When the fence expression matches, the payload it extracts
    stands in the text after an opening fence, an optional [json] and white
    space, and before white space and a closing fence; it holds no fence
    and neither starts nor ends with white space. *)
Theorem X7_payload_is_trimmed (responseText payload : string) :
  fenced_payload responseText = Some payload ->
  (exists before tag ws after,
      responseText = (before ++ fence ++ tag ++ ws ++ payload ++ after)%string
      /\ (tag = EmptyString \/ tag = "json"%string)
      /\ all_spaces ws = true
      /\ closes after = true)
  /\ includes fence payload = false
  /\ starts_with_space payload = false
  /\ ends_with_space payload = false.
Proof.
  unfold fenced_payload.
  destruct (after_fence responseText) as [r|] eqn:Ha; [|discriminate].
  intros Hcap.
  destruct (capture_found _ _ Hcap) as [[rest [E Hrest]] [Hin Hend]].
  destruct (after_fence_found _ _ Ha) as [before ->].
  destruct (skip_json_found r) as [tag [Et Htag]].
  destruct (skip_spaces_found (skip_json r)) as [[ws [Es Hws]] Hstart].
  split; [|split; [exact Hin | split; [|exact Hend]]].
  - exists before, tag, ws, rest. repeat split; try assumption.
    now rewrite <- E, <- Es, <- Et.
  - rewrite E in Hstart. now destruct payload.
Qed.

Lemma prefix_nil (s : string) : prefix EmptyString s = true.
Proof. now destruct s. Qed.

Lemma prefix_fence_other (c : ascii) (s : string) :
  Ascii.eqb c "`" = false -> prefix fence (String c s) = false.
Proof.
  intros H. unfold fence. cbn [prefix].
  destruct (ascii_dec "`" c) as [<-|]; [discriminate H | reflexivity].
Qed.

Lemma after_fence_first (before r : string) :
  no_backtick before = true ->
  after_fence (before ++ fence ++ r)%string = Some r.
Proof.
  intros Hb. induction before as [|c before IH].
  - assert (Hp : prefix fence (fence ++ r)%string = true)
      by (apply prefix_append; reflexivity).
    pose proof (prefix_drop _ _ Hp) as Hd. apply append_inv_head in Hd.
    cbn [append fence] in Hp |- *. cbn [after_fence]. rewrite Hp.
    f_equal. symmetry. exact Hd.
  - cbn [no_backtick] in Hb. apply andb_true_iff in Hb. destruct Hb as [Hc Hb].
    cbn [append after_fence].
    apply negb_true_iff in Hc.
    rewrite (prefix_fence_other _ _ Hc). now apply IH.
Qed.

Lemma skip_json_tag (s : string) : skip_json ("json" ++ s)%string = s.
Proof.
  assert (Hp : prefix "json" ("json" ++ s)%string = true)
    by (apply prefix_append; reflexivity).
  pose proof (prefix_drop _ _ Hp) as Hd. apply append_inv_head in Hd.
  unfold skip_json. rewrite Hp. symmetry. exact Hd.
Qed.

Lemma skip_spaces_skips (ws s : string) :
  all_spaces ws = true -> starts_with_space s = false ->
  skip_spaces (ws ++ s)%string = s.
Proof.
  intros Hws Hs. induction ws as [|c ws IH]; cbn [append].
  - destruct s as [|d s]; [reflexivity|]. cbn in *. now rewrite Hs.
  - cbn [all_spaces] in Hws. apply andb_true_iff in Hws. destruct Hws as [Hc Hws].
    cbn [skip_spaces]. rewrite Hc. now apply IH.
Qed.

Lemma closes_after_spaces (ws rest : string) :
  all_spaces ws = true -> closes (ws ++ fence ++ rest)%string = true.
Proof.
  intros Hws. induction ws as [|c ws IH]; cbn [append].
  - assert (Hp : prefix fence (fence ++ rest)%string = true)
      by (apply prefix_append; reflexivity).
    cbn [append fence] in *. cbn [closes]. now rewrite Hp.
  - cbn [all_spaces] in Hws. apply andb_true_iff in Hws. destruct Hws as [Hc Hws].
    cbn [closes]. rewrite Hc, (IH Hws). now destruct (prefix fence _).
Qed.

(** No fence starts in a body that holds none and does not end with a
    backtick, whatever follows the body. *)
Lemma no_fence_in_body (body tail : string) :
  body <> EmptyString ->
  ends_with_backtick body = false ->
  includes fence body = false ->
  prefix fence (body ++ tail)%string = false.
Proof.
  intros Hne Hend Hin.
  destruct body as [|c [|d [|e body]]]; [contradiction| | |].
  - cbn [ends_with_backtick] in Hend. cbn [append].
    now apply prefix_fence_other.
  - cbn [ends_with_backtick] in Hend. cbn [append]. unfold fence. cbn [prefix].
    destruct (ascii_dec "`" c); [|reflexivity].
    destruct (ascii_dec "`" d) as [<-|]; [discriminate Hend | reflexivity].
  - cbn [includes] in Hin. apply orb_false_iff in Hin. destruct Hin as [Hp _].
    unfold fence in *. cbn [append]. cbn [prefix] in *.
    destruct (ascii_dec "`" c); [|reflexivity].
    destruct (ascii_dec "`" d); [|reflexivity].
    destruct (ascii_dec "`" e); [|reflexivity].
    now rewrite prefix_nil in Hp.
Qed.

Lemma body_does_not_close (body tail : string) :
  body <> EmptyString ->
  ends_with_space body = false ->
  ends_with_backtick body = false ->
  includes fence body = false ->
  closes (body ++ tail)%string = false.
Proof.
  induction body as [|c body IH]; intros Hne Hsp Hbt Hin; [contradiction|].
  pose proof (no_fence_in_body (String c body) tail Hne Hbt Hin) as Hp.
  cbn [append] in *. cbn [closes]. rewrite Hp.
  destruct body as [|d body].
  - cbn in Hsp. now rewrite Hsp.
  - rewrite IH; [apply andb_false_r | discriminate | exact Hsp | exact Hbt |].
    cbn [includes] in Hin. apply orb_false_iff in Hin. tauto.
Qed.

Lemma capture_body (body tail : string) :
  ends_with_space body = false ->
  ends_with_backtick body = false ->
  includes fence body = false ->
  closes tail = true ->
  capture (body ++ tail)%string = Some body.
Proof.
  intros Hsp Hbt Hin Htail. induction body as [|c body IH].
  - cbn [append]. destruct tail as [|t tail]; [discriminate Htail|].
    cbn [capture]. now rewrite Htail.
  - pose proof (body_does_not_close (String c body) tail) as Hc.
    cbn [append] in *. cbn [capture]. rewrite Hc; try assumption; [|discriminate].
    rewrite IH; [reflexivity | | |].
    + destruct body; [reflexivity | exact Hsp].
    + destruct body; [reflexivity | exact Hbt].
    + cbn [includes] in Hin. apply orb_false_iff in Hin. tauto.
Qed.

(** X8. A payload inside a fence tagged [json] is extracted as it is:
    when the text before the fence has no backtick and the payload is not
    empty, holds no fence, does not end with a backtick and has no white
    space at its ends, the fence expression yields the payload, whatever
    white space surrounds it inside the fence and whatever text follows
    the fence. *)
Theorem X8_fenced_payload_round_trip (before ws1 body ws2 rest : string) :
  no_backtick before = true ->
  all_spaces ws1 = true ->
  all_spaces ws2 = true ->
  body <> EmptyString ->
  starts_with_space body = false ->
  ends_with_space body = false ->
  ends_with_backtick body = false ->
  includes fence body = false ->
  fenced_payload (fenced before ws1 body ws2 rest) = Some body
  /\ extracted_payload (fenced before ws1 body ws2 rest) = body.
Proof.
  intros Hb Hw1 Hw2 Hne Hst Hsp Hbt Hin.
  assert (E : fenced_payload (fenced before ws1 body ws2 rest) = Some body).
  { unfold fenced_payload, fenced.
    change ("```json" ++ ws1 ++ body ++ ws2 ++ "```" ++ rest)%string
      with (fence ++ "json" ++ ws1 ++ body ++ ws2 ++ fence ++ rest)%string.
    rewrite (after_fence_first before _ Hb), skip_json_tag.
    rewrite skip_spaces_skips; [| exact Hw1 |].
    - apply capture_body; try assumption. now apply closes_after_spaces.
    - destruct body; [contradiction | exact Hst]. }
  split; [exact E|]. unfold extracted_payload. rewrite E.
  destruct body; [contradiction | reflexivity].
Qed.

Lemma no_backtick_does_not_close (s : string) :
  no_backtick s = true -> closes s = false /\ capture s = None.
Proof.
  induction s as [|c s IH]; intros H; [split; reflexivity|].
  cbn [no_backtick] in H. apply andb_true_iff in H. destruct H as [Hc Hs].
  destruct (IH Hs) as [Hcl Hcap].
  apply negb_true_iff in Hc.
  pose proof (prefix_fence_other c s Hc) as Hp.
  assert (Hc' : closes (String c s) = false).
  { cbn [closes]. rewrite Hp, Hcl. apply andb_false_r. }
  split; [exact Hc'|]. cbn [capture]. cbn [closes] in Hc'.
  cbn [closes]. rewrite Hc', Hcap. reflexivity.
Qed.

Lemma no_backtick_after_fence (s : string) :
  no_backtick s = true -> after_fence s = None.
Proof.
  induction s as [|c s IH]; intros H; [reflexivity|].
  cbn [no_backtick] in H. apply andb_true_iff in H. destruct H as [Hc Hs].
  cbn [after_fence]. apply negb_true_iff in Hc.
  rewrite (prefix_fence_other c s Hc). now apply IH.
Qed.

Lemma no_backtick_suffix (a b : string) :
  no_backtick (a ++ b)%string = true -> no_backtick b = true.
Proof.
  induction a as [|c a IH]; cbn [append no_backtick]; [tauto|].
  intros H. apply andb_true_iff in H. tauto.
Qed.

(** X9. A text without a backtick, a text whose only fence is never
    closed and a text whose fence is empty have no fenced payload: the
    whole text goes to [JSON.parse], and the parser says that the response
    held no JSON within backticks. *)
Theorem X9_no_payload_parses_whole {number : Type} (tool : ToolDefinition number)
    (responseText : string) :
  no_backtick responseText = true
  \/ (exists before after,
        responseText = (before ++ fence ++ after)%string
        /\ no_backtick before = true /\ no_backtick after = true)
  \/ (exists before ws1 ws2 rest,
        responseText = fenced before ws1 EmptyString ws2 rest
        /\ no_backtick before = true
        /\ all_spaces ws1 = true /\ all_spaces ws2 = true) ->
  extracted_payload responseText = responseText
  /\ fence_notice tool responseText
     = [{| level := LogWarn;
           text := ("[" ++ name tool
             ++ "] LLM response did not contain JSON within backticks. Attempting to parse directly.")%string |}].
Proof.
  intros H.
  assert (E : fenced_payload responseText = None
              \/ fenced_payload responseText = Some EmptyString).
  { destruct H as [H | [[before [after [-> [Hb Ha]]]]
                       | [before [ws1 [ws2 [rest [-> [Hb [Hw1 Hw2]]]]]]]]].
    - left. unfold fenced_payload. now rewrite no_backtick_after_fence.
    - left. unfold fenced_payload. rewrite (after_fence_first before after Hb).
      destruct (skip_json_found after) as [tag [Et _]].
      destruct (skip_spaces_found (skip_json after)) as [[ws [Es _]] _].
      apply no_backtick_does_not_close.
      rewrite Et in Ha. apply no_backtick_suffix in Ha.
      rewrite Es in Ha. now apply no_backtick_suffix in Ha.
    - right. unfold fenced_payload, fenced.
      change ("```json" ++ ws1 ++ EmptyString ++ ws2 ++ "```" ++ rest)%string
        with (fence ++ "json" ++ ws1 ++ ws2 ++ fence ++ rest)%string.
      rewrite (after_fence_first before _ Hb), skip_json_tag.
      destruct (skip_spaces_found (ws1 ++ ws2 ++ fence ++ rest)%string)
        as [[ws [Es Hws]] Hst].
      assert (Hcl : closes (skip_spaces (ws1 ++ ws2 ++ fence ++ rest)%string) = true).
      { clear Es Hws Hst. induction ws1 as [|c ws1 IH]; cbn [append].
        - induction ws2 as [|d ws2 IH2]; cbn [append].
          + destruct rest; reflexivity.
          + cbn [all_spaces] in Hw2. apply andb_true_iff in Hw2.
            destruct Hw2 as [Hd Hw2]. cbn [skip_spaces]. rewrite Hd. now apply IH2.
        - cbn [all_spaces] in Hw1. apply andb_true_iff in Hw1.
          destruct Hw1 as [Hc Hw1]. cbn [skip_spaces]. rewrite Hc. now apply IH. }
      destruct (skip_spaces _) as [|x s]; [discriminate Hcl|].
      cbn [capture]. now rewrite Hcl. }
  unfold extracted_payload, fence_notice.
  destruct E as [-> | ->]; split; reflexivity.
Qed.


(** ** The generator *)

Section GeneratorRuns.
Context {number : Type} {rt : JSRuntime number}.
Variable createPrompt : ToolDefinition number -> number -> string.
Variable completions_create : nat -> CompletionRequest number -> string + string.
Variable CLAUDE_MODEL : option string.
Variable seven_tenths : number.

Local Abbreviation generate :=
  (generateTests createPrompt completions_create CLAUDE_MODEL seven_tenths).
Local Abbreviation step :=
  (generateFor createPrompt completions_create CLAUDE_MODEL seven_tenths).
Local Abbreviation request :=
  (request_for createPrompt CLAUDE_MODEL seven_tenths).
Local Abbreviation grouped :=
  (grouped_by_tool createPrompt completions_create CLAUDE_MODEL seven_tenths).

(** The loop over the tools, from any state. *)
Lemma generate_loop config (tools : list (ToolDefinition number)) :
  forall acc (p : Process number),
  exists groups drawn,
    fst (fold_left (step config) tools (acc, p)) = acc ++ List.concat groups
    /\ grouped config (List.length (requests p)) tools groups
    /\ requests (snd (fold_left (step config) tools (acc, p)))
       = requests p ++ map (request config) tools
    /\ map id (List.concat groups) = map uuid_source drawn
    /\ StronglySorted lt drawn
    /\ Forall (fun k => uuid_calls (world p) <= k
                        /\ k < uuid_calls
                                 (world (snd (fold_left (step config) tools (acc, p)))))
         drawn
    /\ uuid_calls (world p)
       <= uuid_calls (world (snd (fold_left (step config) tools (acc, p)))).
Proof.
  induction tools as [|tool tools IH]; intros acc p.
  - exists [], []. cbn [fold_left fst snd List.concat map List.length grouped_by_tool].
    rewrite !app_nil_r. repeat split; constructor.
  - cbn [fold_left].
    destruct (completions_create (List.length (requests p)) (request config tool))
      as [thrown|completion] eqn:Hcall.
    + assert (Hstep : exists p1,
                 step config (acc, p) tool = (acc, p1)
                 /\ requests p1 = requests p ++ [request config tool]
                 /\ uuid_calls (world p1) = uuid_calls (world p)).
      { unfold generateFor. cbn [console_log requests world stdout].
        rewrite Hcall. eexists. repeat split. }
      destruct Hstep as [p1 [-> [Hq1 Hu1]]].
      destruct (IH acc p1) as [groups [drawn [Hr [Hg [Hq [Hi [Hs [Hb Hu]]]]]]]].
      rewrite Hq1, length_app, Nat.add_1_r in Hg.
      rewrite Hu1 in Hb, Hu. rewrite Hq1, <- app_assoc in Hq.
      exists ([] :: groups), drawn. cbn [List.concat app map grouped_by_tool].
      repeat split; try assumption. constructor.
    + destruct (parseResponse_run completion tool (world p))
        as [added [lines [discarded [Hrun [Hid [Hwf _]]]]]].
      assert (Hstep : exists p1,
                 step config (acc, p) tool = (acc ++ added, p1)
                 /\ requests p1 = requests p ++ [request config tool]
                 /\ uuid_calls (world p1)
                    = uuid_calls (world p) + List.length added + discarded).
      { unfold generateFor. cbn [console_log requests world stdout].
        rewrite Hcall, Hrun. eexists. repeat split. }
      destruct Hstep as [p1 [-> [Hq1 Hu1]]].
      destruct (IH (acc ++ added) p1)
        as [groups [drawn [Hr [Hg [Hq [Hi [Hs [Hb Hu]]]]]]]].
      rewrite Hq1, length_app, Nat.add_1_r in Hg.
      rewrite Hu1 in Hb, Hu. rewrite Hq1, <- app_assoc in Hq.
      rewrite <- app_assoc in Hr.
      exists (added :: groups),
        (seq (uuid_calls (world p)) (List.length added) ++ drawn).
      cbn [List.concat map grouped_by_tool].
      split; [exact Hr|]. split.
      { split.
        - eapply Forall_impl; [|exact Hwf]. intros t [Ht _]. exact Ht.
        - split; [|exact Hg].
          intros thrown Hthrown. rewrite Hthrown in Hcall. discriminate Hcall. }
      split; [exact Hq|]. rewrite !map_app.
      split; [now rewrite Hid, Hi|].
      split.
      { apply StronglySorted_app
          with (bound := uuid_calls (world p) + List.length added + discarded).
        - apply StronglySorted_seq.
        - exact Hs.
        - apply Forall_forall. intros k Hk. apply in_seq in Hk. lia.
        - eapply Forall_impl; [|exact Hb]. cbn. intros k Hk. lia. }
      split; [|lia].
      apply Forall_app. split.
      * apply Forall_forall. intros k Hk. apply in_seq in Hk. lia.
      * eapply Forall_impl; [|exact Hb]. cbn. intros k Hk. lia.
Qed.

(** X10. [generateTests] sends exactly one request for each tool, in the
    order of the tools, whether earlier requests failed or not, all with
    the same model, temperature and token limit; the test cases it returns
    come tool by tool in that order, those of one tool bear its name, and
    a tool whose request fails contributes none. *)
Theorem X10_one_request_per_tool (tools : list (ToolDefinition number))
    (config : TesterConfig number) (p : Process number) :
  let out := generate tools config p in
  requests (snd out) = requests p ++ map (request config) tools
  /\ exists groups,
      fst out = List.concat groups
      /\ grouped config (List.length (requests p)) tools groups.
Proof.
  intros out. subst out. unfold generateTests.
  destruct (generate_loop config tools [] p) as [groups [drawn [Hr [Hg [Hq _]]]]].
  split; [exact Hq|]. exists groups. split; assumption.
Qed.

(** X11. The identifiers of the test cases of a whole run are identifiers
    [uuidv4] issued during the run, each drawn later than the one of the
    test case before; when [uuidv4] never repeats itself, no two test cases
    of the run, of the same tool or of different tools, have the same
    identifier. *)
Theorem X11_identifiers_are_unique_in_a_run (tools : list (ToolDefinition number))
    (config : TesterConfig number) (p : Process number) :
  let out := generate tools config p in
  exists drawn,
    map id (fst out) = map uuid_source drawn
    /\ StronglySorted lt drawn
    /\ Forall (fun k => uuid_calls (world p) <= k
                        /\ k < uuid_calls (world (snd out))) drawn
    /\ ((forall i j, uuid_source i = uuid_source j -> i = j) ->
        NoDup (map id (fst out))).
Proof.
  intros out. subst out. unfold generateTests.
  destruct (generate_loop config tools [] p)
    as [groups [drawn [Hr [_ [_ [Hi [Hs [Hb _]]]]]]]].
  cbn [app] in Hr. rewrite Hr. exists drawn.
  split; [exact Hi|]. split; [exact Hs|]. split; [exact Hb|].
  intros Hinj. rewrite Hi. apply NoDup_map_injective; [exact Hinj|].
  now apply StronglySorted_lt_NoDup.
Qed.

(** X12. When every request fails, [generateTests] returns no test case,
    draws no identifier and writes one error for each tool; no request
    failure escapes the loop. *)
Theorem X12_failures_are_contained (tools : list (ToolDefinition number))
    (config : TesterConfig number) (p : Process number) :
  (forall n r, exists thrown, completions_create n r = inl thrown) ->
  let out := generate tools config p in
  fst out = []
  /\ uuid_calls (world (snd out)) = uuid_calls (world p)
  /\ exists lines,
      console (world (snd out)) = console (world p) ++ lines
      /\ Forall (fun d => level d = LogError) lines
      /\ List.length lines = List.length tools.
Proof.
  intros Hfail out. subst out. unfold generateTests.
  assert (H : forall (p : Process number) acc,
             fst (fold_left (step config) tools (acc, p)) = acc
             /\ uuid_calls (world (snd (fold_left (step config) tools (acc, p))))
                = uuid_calls (world p)
             /\ exists lines,
                 console (world (snd (fold_left (step config) tools (acc, p))))
                 = console (world p) ++ lines
                 /\ Forall (fun d => level d = LogError) lines
                 /\ List.length lines = List.length tools).
  { induction tools as [|tool tools IH]; intros q acc.
    - cbn [fold_left fst snd]. split; [reflexivity|]. split; [reflexivity|].
      exists []. rewrite app_nil_r. repeat split. constructor.
    - cbn [fold_left].
      destruct (Hfail (List.length (requests q)) (request config tool))
        as [thrown Hcall].
      assert (Hstep : exists q1,
                 step config (acc, q) tool = (acc, q1)
                 /\ uuid_calls (world q1) = uuid_calls (world q)
                 /\ console (world q1)
                    = console (world q)
                        ++ [{| level := LogError;
                               text := ("Error generating tests for tool "
                                          ++ name tool ++ ": " ++ thrown)%string |}]).
      { unfold generateFor. cbn [console_log requests world stdout].
        rewrite Hcall. eexists. repeat split. }
      destruct Hstep as [q1 [-> [Hu1 Hc1]]].
      destruct (IH q1 acc) as [Hr [Hu [lines [Hc [Hl Hn]]]]].
      split; [exact Hr|]. split; [now rewrite Hu|].
      eexists (_ :: lines). rewrite Hc, Hc1, <- app_assoc. cbn [app List.length].
      split; [reflexivity|]. split; [now constructor | now rewrite Hn]. }
  apply H.
Qed.

End GeneratorRuns.

(** ** The two parsers *)

Section TwoParsers.
Context {number : Type} {rt : JSRuntime number}.

Lemma forEach_ext {A T : Type} (f g : T -> A -> nat -> Exc T) (l : list A) :
  (forall acc x index w, f acc x index w = g acc x index w) ->
  forall index acc w, forEach f l index acc w = forEach g l index acc w.
Proof.
  intros Hfg. induction l as [|x l IH]; intros index acc w; [reflexivity|].
  cbn [forEach]. unfold bind_exc. rewrite Hfg.
  destruct (g acc x index w) as [[thrown|acc'] w']; [reflexivity | apply IH].
Qed.

(** The parser that takes the name of the tool is the parser that takes
    the tool, on a tool of that name without a schema. *)
Lemma parseTest_v1_unspecified tool_name acc (test : JSON number) index w :
  parseTest_v1 tool_name acc test index w
  = parseTest (unspecified tool_name) acc test index w.
Proof.
  unfold parseTest_v1, parseTest. cbv zeta. cbn [name unspecified].
  repeat match goal with
         | |- context [if ?b then _ else _] =>
             match b with
             | context [js_get] => destruct b; [reflexivity|]
             | context [truthy] => destruct b; [reflexivity|]
             end
         end.
  unfold bind_exc, lift, uuidv4, ret_exc, evaluate, validateTestInputs.
  cbn [status expectedOutcome inputSchema unspecified input_warnings].
  reflexivity.
Qed.

Lemma parseResponse_v1_unspecified responseText tool_name w :
  parseResponse_v1 responseText tool_name w
  = parseResponse responseText (unspecified tool_name : ToolDefinition number) w.
Proof.
  unfold parseResponse_v1, parseResponse, try_catch. cbn [name unspecified].
  destruct (fenced_payload responseText) as [[|c s]|];
    unfold bind_exc, ret_exc, lift, console_warn, console_error, log; cbn beta iota;
    (destruct (JSON_parse _) as [message | [| b | n | s' | items | props]];
     [ reflexivity
     | first [ rewrite (forEach_ext _ _ _ (parseTest_v1_unspecified tool_name));
               reflexivity
             | destruct (looks_like_test _);
               [ rewrite (forEach_ext _ _ _ (parseTest_v1_unspecified tool_name));
                 reflexivity
               | reflexivity ] ] ..
     ]).
Qed.

Lemma unspecified_never_throws tool_name (test : JSON number) :
  throws (unspecified tool_name) test = false.
Proof.
  unfold throws, thrown_at. destruct (rejected test); [reflexivity|].
  destruct (case_of test) as [[[d given] [|]] rules]; reflexivity.
Qed.

Lemma unspecified_never_interrupts tool_name (elements : list (JSON number)) :
  existsb (throws (unspecified tool_name)) elements = false.
Proof.
  induction elements as [|test elements IH]; [reflexivity|].
  cbn [existsb]. rewrite unspecified_never_throws. exact IH.
Qed.

Lemma unspecified_attaches_nothing {rule : Type} tool_name
    (t : TestCase number rule) :
  attached_warnings (unspecified tool_name) t = None.
Proof. unfold attached_warnings. now destruct (status (expectedOutcome t)). Qed.

(** Test cases that agree on every field but [warnings]. *)
Lemma without_warnings_determined tool_name
    (l l' : list (TestCase number (JSON number))) :
  map case_fields l' = map case_fields l ->
  map id l' = map id l ->
  Forall (fun t => toolName t = tool_name
                   /\ naturalLanguageQuery t = EmptyString) l ->
  Forall (fun t => toolName t = tool_name
                   /\ naturalLanguageQuery t = EmptyString
                   /\ warnings t = None) l' ->
  l' = map without_warnings l.
Proof.
  revert l'. induction l as [|t l IH]; intros [|t' l'] Hf Hi Hl Hl';
    try discriminate; [reflexivity|].
  cbn [map] in *. injection Hf as Hf1 Hf. injection Hi as Hi1 Hi.
  inversion Hl as [|x y [Hn Hq] Hl0]; subst.
  inversion Hl' as [|x y [Hn' [Hq' Hw']] Hl0']; subst.
  f_equal; [|now apply IH].
  destruct t as [i n d q inp [s r] ws], t' as [i' n' d' q' inp' [s' r'] ws'].
  unfold case_fields, without_warnings in *.
  cbn [id toolName description naturalLanguageQuery inputs expectedOutcome
       status validationRules warnings] in *.
  congruence.
Qed.

(** X13. Unless the conformance check throws, it changes neither which
    test cases the parser returns nor what it writes or draws: the parser
    that takes a tool returns the test cases of the parser that takes the
    name of the tool, with a [warnings] field on some of them, and leaves
    the same console and the same count of identifiers.  When the check
    throws, the parser that takes the tool returns nothing, where the
    other returns the test cases of the elements that are not rejected. *)
Theorem X13_conformance_check_only_adds_warnings responseText
    (tool : ToolDefinition number) w :
  (interrupted tool responseText = false ->
   fst (parseResponse_v1 responseText (name tool) w)
   = map without_warnings (fst (parseResponse responseText tool w))
   /\ snd (parseResponse_v1 responseText (name tool) w)
      = snd (parseResponse responseText tool w))
  /\ (interrupted tool responseText = true ->
      fst (parseResponse responseText tool w) = []
      /\ exists parsedJson,
           JSON_parse (extracted_payload responseText) = inr parsedJson
           /\ map case_fields (fst (parseResponse_v1 responseText (name tool) w))
              = map case_of (filter (fun test => negb (rejected test))
                               (elements_of parsedJson))).
Proof.
  rewrite parseResponse_v1_unspecified. unfold interrupted.
  destruct (JSON_parse (extracted_payload responseText))
    as [message|parsedJson] eqn:Hparse.
  - split; [|discriminate]. intros _.
    rewrite !(parseResponse_failed _ _ _ _ Hparse). split; reflexivity.
  - rewrite !(parseResponse_parsed _ _ _ _ Hparse).
    change (fence_notice (unspecified (name tool)) responseText)
      with (fence_notice tool responseText).
    change (shape_notices (unspecified (name tool)) responseText parsedJson)
      with (shape_notices tool responseText parsedJson).
    set (w0 := {| uuid_calls := uuid_calls w;
                  console := console w ++ fence_notice tool responseText
                               ++ shape_notices tool responseText parsedJson |}).
    pose proof (forEach_parseTest_trace (unspecified (name tool))
                  (elements_of parsedJson) 0 [] w0) as Hbare.
    rewrite unspecified_never_interrupts in Hbare.
    destruct Hbare as [added' [E' [Hf' [Hi' Ht']]]].
    cbn [name unspecified] in E'. rewrite E'.
    pose proof (forEach_parseTest_trace tool (elements_of parsedJson) 0 [] w0)
      as Hloop.
    destruct (existsb (throws tool) (elements_of parsedJson)).
    + split; [discriminate|]. intros _.
      destruct Hloop as [thrown [before [culprit [after [-> _]]]]].
      split; [reflexivity|]. exists parsedJson. split; [reflexivity | exact Hf'].
    + split; [|discriminate]. intros _.
      destruct Hloop as [added [-> [Hf [Hi Ht]]]].
      cbn [fst snd app].
      assert (Hlen : List.length added' = List.length added).
      { apply (f_equal (@List.length _)) in Hf, Hf'.
        rewrite !length_map in Hf, Hf'. congruence. }
      assert (Hsame : added' = map without_warnings added).
      { apply (without_warnings_determined (name tool)).
        - congruence.
        - rewrite Hi, Hi', Hlen. reflexivity.
        - eapply Forall_impl; [|exact Ht]. cbn. tauto.
        - eapply Forall_impl; [|exact Ht']. cbn [name unspecified].
          intros t [Hn [Hq Hw]]. rewrite unspecified_attaches_nothing in Hw. tauto. }
      split; [exact Hsame | now rewrite Hlen].
Qed.

End TwoParsers.

(** ** More scenarios *)

Lemma nat_toString_injective (i j : nat) : nat_toString i = nat_toString j -> i = j.
Proof.
  unfold nat_toString. intros H.
  apply (f_equal NilEmpty.uint_of_string) in H. rewrite !NilEmpty.usu in H.
  injection H as H. apply (f_equal Nat.of_uint) in H.
  now rewrite !DecimalNat.Unsigned.of_to in H.
Qed.

Section OnMoreScenarios.
Import Reference Scenarios MoreScenarios.

Lemma reference_uuid_injective (i j : nat) : uuid_source i = uuid_source j -> i = j.
Proof.
  cbn [uuid_source runtime]. intros H. apply append_inv_head in H.
  now apply nat_toString_injective.
Qed.

(** Inputs that conform get no warning, and the checker returns on
    them. *)
Lemma X1_conforming_inputs :
  inputSchema mockToolFull = Some mockSchema
  /\ properties mockSchema = Some mockProperties
  /\ structured (Some (inputs conformingCase)) = true
  /\ validateTestInputs conformingCase mockToolFull
     = inr {| isValid := true; input_warnings := [] |}.
Proof.
  split; [reflexivity|]. split; [reflexivity|]. split; [reflexivity|].
  apply (proj2 (X1_no_warning_iff_conforming (rt := runtime) conformingCase mockToolFull
                  mockSchema mockProperties eq_refl eq_refl));
    reflexivity.
Defined.

(** An undeclared parameter is reported and the inputs stay valid. *)
Lemma X2_extra_parameter :
  validateTestInputs extraCase mockToolFull
  = inr {| isValid := true;
           input_warnings :=
             ["Input parameter 'extraParam' is not defined in the tool's input schema."] |}
  /\ Forall (fun w => exists param, w = undeclared_message param)
        ["Input parameter 'extraParam' is not defined in the tool's input schema."].
Proof.
  split; [reflexivity|].
  exact (proj1 (proj1 (X2_valid_iff_only_undeclared (rt := runtime) extraCase
                         mockToolFull
                         {| isValid := true;
                            input_warnings :=
                              ["Input parameter 'extraParam' is not defined in the tool's input schema."] |}
                         eq_refl))
           eq_refl).
Defined.

(** A single object is one test case. *)
Lemma X3_single_object :
  JSON_parse (extracted_payload singleText) = inr singleObject
  /\ Array_isArray singleObject = false
  /\ rejected singleObject || throws mockToolFull singleObject = false
  /\ map case_fields (fst (parseResponse singleText mockToolFull world0))
     = [case_of singleObject].
Proof.
  split; [reflexivity|]. split; [reflexivity|]. split; [reflexivity|].
  exact (proj1 (X3_single_object_is_wrapped (rt := runtime) singleText mockToolFull
                  world0 singleObject eq_refl eq_refl)).
Defined.

(** The two runs of scenario B and of the mixed response: three test
    cases, three identifiers. *)
Lemma X4_two_runs :
  (forall i j, uuid_source i = uuid_source j -> i = j)
  /\ NoDup (map id
              (fst (parseResponse mismatchText mockToolFull world0)
               ++ fst (parseResponse mixedText mockToolFull
                         (snd (parseResponse mismatchText mockToolFull world0))))).
Proof.
  split; [exact reference_uuid_injective|].
  exact (proj2 (proj2 (proj2 (X4_identifiers (rt := runtime) mockToolFull mockToolFull
                                mismatchText mixedText world0)))
           reference_uuid_injective).
Defined.

(** The mixed response: five elements, two test cases, three warnings. *)
Lemma X6_mixed_response :
  JSON_parse (extracted_payload mixedText) = inr (JArr mixedElements)
  /\ existsb (throws mockToolFull) mixedElements = false
  /\ List.length (fst (parseResponse mixedText mockToolFull world0)) = 2
  /\ List.length (console (snd (parseResponse mixedText mockToolFull world0))) = 3.
Proof.
  split; [vm_compute; reflexivity|]. split; [vm_compute; reflexivity|].
  destruct (X6_every_element_is_accounted_for (rt := runtime) mixedText mockToolFull
              world0 (JArr mixedElements) eq_refl)
    as [_ [Hn [Hrun _]]].
  cbn [elements_of] in Hn, Hrun.
  assert (Hquiet : existsb (throws mockToolFull) mixedElements = false)
    by (vm_compute; reflexivity).
  destruct (Hrun Hquiet) as [Hc Hsum].
  change (List.length (filter rejected mixedElements)) with 3 in Hn.
  change (List.length mixedElements) with 5 in Hsum.
  split; [lia|].
  rewrite Hc, !length_app, Hn. reflexivity.
Defined.

(** The payload of the mixed response. *)
Lemma X7_mixed_payload :
  fenced_payload mixedText = Some (extracted_payload mixedText)
  /\ includes fence (extracted_payload mixedText) = false
  /\ starts_with_space (extracted_payload mixedText) = false
  /\ ends_with_space (extracted_payload mixedText) = false.
Proof.
  split; [vm_compute; reflexivity|].
  assert (E : fenced_payload mixedText = Some (extracted_payload mixedText))
    by (vm_compute; reflexivity).
  destruct (X7_payload_is_trimmed mixedText (extracted_payload mixedText) E)
    as [_ H].
  exact H.
Defined.

(** A fenced answer after a sentence and before another. *)
Lemma X8_fenced_answer :
  no_backtick "Here are the tests: " = true
  /\ all_spaces newline = true
  /\ fencedBody <> EmptyString
  /\ starts_with_space fencedBody = false
  /\ ends_with_space fencedBody = false
  /\ ends_with_backtick fencedBody = false
  /\ includes fence fencedBody = false
  /\ extracted_payload
       (fenced "Here are the tests: " newline fencedBody newline " Done.")
     = fencedBody.
Proof.
  split; [reflexivity|]. split; [reflexivity|]. split; [discriminate|].
  split; [reflexivity|]. split; [vm_compute; reflexivity|].
  split; [vm_compute; reflexivity|]. split; [vm_compute; reflexivity|].
  apply (X8_fenced_payload_round_trip "Here are the tests: " newline fencedBody
           newline " Done.");
    first [reflexivity | discriminate | vm_compute; reflexivity].
Defined.

(** Scenario E has no backtick. *)
Lemma X9_plain_text :
  no_backtick notJson = true
  /\ extracted_payload notJson = notJson
  /\ List.length (fence_notice mockToolFull notJson) = 1.
Proof.
  split; [reflexivity|].
  destruct (X9_no_payload_parses_whole mockToolFull notJson (or_introl eq_refl))
    as [Hp Hn].
  split; [exact Hp | now rewrite Hn].
Defined.

(** Two tools, the check throwing on the answer for the first: its two
    identifiers are lost, and the test case of the second tool bears the
    third. *)
Lemma X11_a_run_of_three_tools :
  (forall i j, uuid_source i = uuid_source j -> i = j)
  /\ map id (fst (generateTests promptOf interruptedService None 7%Z
                    [mockToolFull; mockToolFull] someConfig process0))
     = ["uuid-2"]
  /\ NoDup (map id (fst (generateTests promptOf answering None 7%Z
                           [mockToolFull; mockToolFull; weatherTool]
                           someConfig process0))).
Proof.
  split; [exact reference_uuid_injective|]. split; [vm_compute; reflexivity|].
  destruct (X11_identifiers_are_unique_in_a_run (rt := runtime)
              promptOf answering None 7%Z
              [mockToolFull; mockToolFull; weatherTool]
              someConfig process0) as [drawn [_ [_ [_ Hunique]]]].
  exact (Hunique reference_uuid_injective).
Defined.

(** A service that rejects every request. *)
Lemma X12_a_failing_service :
  (forall n r, exists thrown, failing n r = inl thrown)
  /\ fst (generateTests promptOf failing None 7%Z [mockToolFull; weatherTool]
            someConfig process0) = []
  /\ uuid_calls (world (snd (generateTests promptOf failing None 7%Z
                               [mockToolFull; weatherTool] someConfig process0)))
     = 0.
Proof.
  assert (Hfail : forall n r, exists thrown, failing n r = inl thrown)
    by (intros n r; now exists "Error: boom").
  split; [exact Hfail|].
  destruct (X12_failures_are_contained (rt := runtime) promptOf failing None 7%Z
              [mockToolFull; weatherTool] someConfig process0 Hfail)
    as [Hr [Hu _]].
  split; [exact Hr | exact Hu].
Defined.

(** The two parsers on the mixed response, on which the check returns,
    and on the response on which it throws. *)
Lemma X13_two_responses :
  interrupted mockToolFull mixedText = false
  /\ fst (parseResponse_v1 mixedText "validationTool" world0)
     = map without_warnings (fst (parseResponse mixedText mockToolFull world0))
  /\ interrupted mockToolFull unprintableText = true
  /\ fst (parseResponse unprintableText mockToolFull world0) = [].
Proof.
  assert (Hquiet : interrupted mockToolFull mixedText = false)
    by (vm_compute; reflexivity).
  assert (Hthrows : interrupted mockToolFull unprintableText = true)
    by (vm_compute; reflexivity).
  split; [exact Hquiet|].
  split.
  - exact (proj1 (proj1 (X13_conformance_check_only_adds_warnings (rt := runtime)
                           mixedText mockToolFull world0) Hquiet)).
  - split; [exact Hthrows|].
    exact (proj1 (proj2 (X13_conformance_check_only_adds_warnings (rt := runtime)
                           unprintableText mockToolFull world0) Hthrows)).
Defined.

(** The inputs of the element at which the check throws. *)
Lemma X14_unprintable_enum :
  inputSchema mockToolFull = Some mockSchema
  /\ properties mockSchema = Some mockProperties
  /\ entry_throws mockProperties ("paramEnum", JObj [("toString", JNum 1%Z)]) = true
  /\ validateTestInputs
       (test_case mockToolFull
          (JObj [("paramString", JStr "s"); ("paramNumber", JNum 1%Z);
                 ("paramEnum", JObj [("toString", JNum 1%Z)])])
          success (@nil (JSON Z)))
       mockToolFull
     = inl "Cannot convert object to primitive value".
Proof.
  split; [reflexivity|]. split; [reflexivity|]. split; [reflexivity|].
  exact (proj1 (X14_checker_throws_on_unprintable (rt := runtime)
                  (test_case mockToolFull
                     (JObj [("paramString", JStr "s"); ("paramNumber", JNum 1%Z);
                            ("paramEnum", JObj [("toString", JNum 1%Z)])])
                     success (@nil (JSON Z)))
                  mockToolFull mockSchema mockProperties eq_refl eq_refl)
           eq_refl).
Defined.

(** The requests of a run, and its test cases tool by tool. *)
Example generates_for_three_tools :
  map (fun r => (model r, request_temperature r, max_tokens_to_sample r))
    (requests (snd (generateTests promptOf answering (Some "env-model-456") 7%Z
                      [mockToolFull; mockToolFull; weatherTool]
                      someConfig process0)))
  = [("env-model-456", 0%Z, 4000); ("env-model-456", 0%Z, 4000);
     ("env-model-456", 0%Z, 4000)]
  /\ map (fun t => (id t, toolName t, description t))
       (fst (generateTests promptOf answering None 7%Z
               [mockToolFull; mockToolFull; weatherTool] someConfig process0))
     = [("uuid-0", "validationTool", "Test type mismatch");
        ("uuid-1", "validationTool", "Valid Case 1");
        ("uuid-2", "validationTool", "Valid Case 2")]
  /\ stdout (snd (generateTests promptOf answering None 7%Z
                    [mockToolFull; mockToolFull; weatherTool] someConfig process0))
     = ["Generating tests for tool: validationTool";
        "Generated 1 tests for validationTool";
        "Generating tests for tool: validationTool";
        "Generated 2 tests for validationTool";
        "Generating tests for tool: getWeather"].
Proof. vm_compute. repeat split. Qed.

End OnMoreScenarios.
